(** * Dual-viewport viewer controller of ComfyUI-GeometryPack

    A shallow embedding of the viewer controllers found in
    [web/js/viewer/viewers/DualViewer.js], [web/js/viewer/viewers/StandardViewer.js]
    and [web/js/viewer/core/BaseViewer.js], together with the properties that
    the design document states about them, and of the helpers around them:
    the combined bounds of the loaded actors, the URL construction of
    [web/js/utils/path_utils.js], the file test of the glTF loader, the
    widget hiding of the node scripts and the handle names of the image
    cropping widget.

    Conventions of the embedding:
    - a JavaScript value is a term of [Js.value]; numbers are integers
      (rounding and NaN are outside the model);
    - an object of the rendering library (camera, renderer) is the record of
      the state the controller can observe through its accessors;
    - a method that mutates [this] is a function from viewer to viewer; a
      method that may throw returns an [outcome];
    - [async] methods are split at their [await]: the part that runs when
      the method is called, and the continuations that run when the awaited
      promise resolves or rejects;
    - calls whose effect lives outside the viewer (rendering, notifications
      to the parent frame, console output) are appended to a log. *)

From Stdlib Require Import ZArith Lia.
From stdpp Require Import base option list strings gmap.

Local Open Scope string_scope.
Local Open Scope list_scope.
Local Open Scope Z_scope.

(** ** JavaScript values *)

Module Js.

#[local] Unset Elimination Schemes.
Inductive value : Type :=
| Undefined
| Null
| Bool (b : bool)
| Num (n : Z)
| Str (s : string)
| Arr (items : list value)
| Obj (fields : list (string * value)).
#[local] Set Elimination Schemes.

(** [ToBoolean]: what [if (v)], [!v] and [v && w] test. *)
Definition truthy (v : value) : bool :=
  match v with
  | Undefined | Null => false
  | Bool b => b
  | Num n => negb (Z.eqb n 0)
  | Str s => negb (String.eqb s "")
  | Arr _ | Obj _ => true
  end.

(** [v === 'lit'] for a string literal. *)
Definition is_str (v : value) (lit : string) : bool :=
  match v with
  | Str s => String.eqb s lit
  | _ => false
  end.

(** [o.key] on an object held as a map: a missing key reads [undefined]. *)
Definition prop (o : gmap string value) (key : string) : value :=
  default Undefined (o !! key).

Fixpoint assoc (fields : list (string * value)) (key : string) : value :=
  match fields with
  | [] => Undefined
  | (k, v) :: rest => if String.eqb k key then v else assoc rest key
  end.

(** [v.key] on an arbitrary value: [None] is the [TypeError] raised on
    [undefined] and [null]; primitives have no own properties. *)
Definition member (v : value) (key : string) : option value :=
  match v with
  | Undefined | Null => None
  | Obj fields => Some (assoc fields key)
  | _ => Some Undefined
  end.

(** [key in fields], for the own properties of an object. *)
Definition has_key (fields : list (string * value)) (key : string) : bool :=
  existsb (fun kv => String.eqb kv.1 key) fields.

(** Whether [ToString(v)], which a template literal applies to [${v}],
    returns; otherwise it throws a [TypeError].  The values of this model
    hold no functions, as the data of a message does not: an own property
    [toString] then shadows the inherited method with something that
    cannot be called, and [valueOf] does not rescue the conversion
    (inherited it returns the object itself, own it cannot be called
    either).  An array is converted by joining the conversions of its
    elements.  The text itself is not modelled: log entries carry the
    value. *)
Fixpoint printable (v : value) : bool :=
  match v with
  | Arr items => forallb printable items
  | Obj fields => negb (has_key fields "toString")
  | _ => true
  end.

(** A message none of the given [type] strings of which is its [type]:
    the key is missing, or holds something else. *)
Definition unrecognized (types : list string) (data : gmap string value)
  : Prop :=
  ∀ t, t ∈ types → prop data "type" ≠ Str t.

End Js.

(** ** Outcomes of a call *)

Inductive error : Type :=
| TypeError
| VtkNotLoaded
| FieldNotFoundError (field : string)
| LoadError (message : string).

(** A call on a controller of state [St] either returns ([Done]), or lets
    an exception escape ([Raised], with the state the controller is left
    in: JavaScript does not roll mutations back), or exceeds the number of
    nested notifications the interpreter was given ([OutOfFuel]).  For an
    [async] method [Raised] is the rejection of the promise it returned. *)
Inductive outcome (St A : Type) : Type :=
| Done (a : A)
| Raised (e : error) (s : St)
| OutOfFuel.

Arguments Done {St A} a.
Arguments Raised {St A} e s.
Arguments OutOfFuel {St A}.

#[export] Instance outcome_ret {St} : MRet (outcome St) := fun A a => Done a.

#[export] Instance outcome_bind {St} : MBind (outcome St) := fun A B k r =>
  match r with
  | Done a => k a
  | Raised e s => Raised e s
  | OutOfFuel => OutOfFuel
  end.

(** A promise nobody awaits: its rejection is not observed by the caller. *)
Definition forget {St : Type} (r : outcome St St) : outcome St St :=
  match r with
  | Raised _ s => Done s
  | _ => r
  end.

(** ** The rendering library, as far as the controllers use it *)

Module Vtk.

Abbreviation vec3 := (Z * Z * Z)%type.

Record Pose : Type := mkPose {
  position : vec3;
  focalPoint : vec3;
  viewUp : vec3;
  parallelScale : Z
}.

#[export] Instance Pose_eq_dec : EqDecision Pose.
Proof. solve_decision. Defined.

Definition set_position (p : Pose) (x : vec3) : Pose :=
  mkPose x (focalPoint p) (viewUp p) (parallelScale p).
Definition set_focalPoint (p : Pose) (x : vec3) : Pose :=
  mkPose (position p) x (viewUp p) (parallelScale p).
Definition set_viewUp (p : Pose) (x : vec3) : Pose :=
  mkPose (position p) (focalPoint p) x (parallelScale p).
Definition set_parallelScale (p : Pose) (x : Z) : Pose :=
  mkPose (position p) (focalPoint p) (viewUp p) x.

Definition actor : Type := nat.

(** Modelled from the spec: the renderer of the rendering library, whose
    source is not part of the repository sources at hand.  It keeps a list
    of attached actors; attaching an actor that is already attached and
    detaching one that is not attached change nothing. *)
Definition addActor (scene : list actor) (a : actor) : list actor :=
  if bool_decide (a ∈ scene) then scene else scene ++ [a].

Definition removeActor (scene : list actor) (a : actor) : list actor :=
  filter (fun b => b ≠ a) scene.

(** A dataset: an identity and, for each named attribute it carries, the
    native [min, max] of that attribute. *)
Record PolyData : Type := mkPolyData {
  handle : nat;
  ranges : gmap string (Z * Z)
}.

End Vtk.

(** ** Field ranges shared by two datasets *)

Module FieldVisualization.

Abbreviation range := (Z * Z)%type.

(** Componentwise union of two ranges: overall min, overall max. *)
Definition union (r1 r2 : range) : range :=
  (Z.min r1.1 r2.1, Z.max r1.2 r2.2).

(** The native ranges of the datasets that have the attribute, in the
    order of the dataset list. *)
Definition nativeRanges (datasets : list Vtk.PolyData) (fieldName : string)
  : list range :=
  omap (fun d => Vtk.ranges d !! fieldName) datasets.

(** Modelled from the spec: [calculateSynchronizedRange] of
    [features/FieldVisualization.js], which is called by the viewers but
    whose source is missing.  For each dataset that has the named attribute
    it reads its native [min, max] and returns the componentwise union; if
    no dataset has the attribute it fails with a [FieldNotFoundError]; if
    exactly one has it, that dataset's own range is returned. *)
Definition calculateSynchronizedRange
  (datasets : list Vtk.PolyData) (fieldName : string) : error + range :=
  match nativeRanges datasets fieldName with
  | [] => inl (FieldNotFoundError fieldName)
  | r :: rs => inr (foldl union r rs)
  end.

(** [lo] is the least first component, [hi] the greatest second component
    of the ranges in [rs]. *)
Definition spans (rs : list range) (r : range) : Prop :=
  (r.1 ∈ rs.*1 ∧ ∀ x, x ∈ rs.*1 → r.1 ≤ x) ∧
  (r.2 ∈ rs.*2 ∧ ∀ y, y ∈ rs.*2 → y ≤ r.2).

End FieldVisualization.

(** ** The result of the mesh loader *)

Module Loader.

(** What the promise of [loadMesh(url, vtk, {renderer})] resolves to, as far
    as the viewers read it.  [polyData] is absent for multi-actor formats;
    [hasTexture] and [hasVertexColors] are read through [|| false]. *)
Record Result : Type := mkResult {
  actors : list Vtk.actor;
  polyData : option Vtk.PolyData;
  format : Js.value;
  hasTexture : bool;
  hasVertexColors : bool
}.

End Loader.

(** ** DualViewer *)

Module Dual.

Import Js Vtk.

(** The two viewport objects a DualViewer owns. *)
Inductive slot : Type := SlotA | SlotB.

#[export] Instance slot_eq_dec : EqDecision slot.
Proof. solve_decision. Defined.

Definition other (s : slot) : slot :=
  match s with
  | SlotA => SlotB
  | SlotB => SlotA
  end.

(** The closures that [_setupCameraSync] subscribes with [onModified]:
    [() => { if (this.syncCameras) syncCamera(source, other source) }]. *)
Inductive callback : Type :=
| SyncCameraFrom (source : slot).

(** Modelled from the spec: the camera of the rendering library, an object
    with get/set accessors for its pose and a "pose changed" notification;
    [observers] are the callbacks subscribed to that notification. *)
Record Camera : Type := mkCamera {
  pose : Pose;
  observers : list callback
}.

(** The object returned by [_createViewport].  [camera] stands for
    [renderer.getActiveCamera()] and [scene] for the actors attached to
    [renderer]; the remaining library handles carry no state of their own
    that the controller reads. *)
Record Viewport : Type := mkViewport {
  id : string;
  camera : Camera;
  scene : list actor;
  actors : list actor;
  polyData : option PolyData;
  filename : value
}.

Definition set_pose (p : Pose) (vp : Viewport) : Viewport :=
  mkViewport (id vp) (mkCamera p (observers (camera vp))) (scene vp)
    (actors vp) (polyData vp) (filename vp).

Definition subscribe (cb : callback) (vp : Viewport) : Viewport :=
  mkViewport (id vp)
    (mkCamera (pose (camera vp)) (observers (camera vp) ++ [cb]))
    (scene vp) (actors vp) (polyData vp) (filename vp).

Definition set_scene (sc : list actor) (vp : Viewport) : Viewport :=
  mkViewport (id vp) (camera vp) sc (actors vp) (polyData vp) (filename vp).

Definition set_actors (l : list actor) (vp : Viewport) : Viewport :=
  mkViewport (id vp) (camera vp) (scene vp) l (polyData vp) (filename vp).

Definition set_polyData (d : option PolyData) (vp : Viewport) : Viewport :=
  mkViewport (id vp) (camera vp) (scene vp) (actors vp) d (filename vp).

Definition set_filename (f : value) (vp : Viewport) : Viewport :=
  mkViewport (id vp) (camera vp) (scene vp) (actors vp) (polyData vp) f.

(** Calls that leave the viewer: library calls without a result the
    controller reads, notifications to the parent frame, console output. *)
Inductive effect : Type :=
| CameraSet (s : slot) (p : Pose)
| Render (s : slot)
| TextureFixes (s : slot) (l : list actor)
| EdgeVisibility (s : slot) (l : list actor)
| ConfigureActors (s : slot) (l : list actor)
| FieldApplied (s : slot) (field range : value)
| SendMeshLoaded (viewport filename format : value)
    (hasTexture hasVertexColors : bool)
| SendError (viewport : value) (cause : error)
| ScreenshotCapture
| ConsoleLog (text : string)
| ConsoleError (viewport : value) (cause : error)
| MessageCleanup
| ResizeDisconnect (s : slot)
| ActorRemoved (s : slot) (a : actor)
| UnbindEvents (s : slot)
| DeleteOpenGLRenderWindow (s : slot)
| DeleteRenderWindow (s : slot).

(** A [loadMesh] call suspended at its [await]: the variables its
    continuation closes over. *)
Record Suspended : Type := mkSuspended {
  target : slot;
  viewport : value;
  url : value
}.

Record DualViewer : Type := mkDualViewer {
  config : gmap string value;
  vtk : bool;
  viewportA : option Viewport;
  viewportB : option Viewport;
  layout : value;
  syncCameras : value;
  syncFields : value;
  isInitialized : bool;
  _isUpdatingCamera : bool;
  _messageCleanup : bool;
  _resizeObserverA : bool;
  _resizeObserverB : bool;
  (** the promises of the loader still pending, by order of issue *)
  inflight : gmap nat Suspended;
  issued : nat;
  log : list effect
}.

(** Assignments to the fields of [this]. *)
Definition set_vtk (x : bool) (v : DualViewer) : DualViewer :=
  mkDualViewer (config v) x (viewportA v) (viewportB v) (layout v)
    (syncCameras v) (syncFields v) (isInitialized v) (_isUpdatingCamera v)
    (_messageCleanup v) (_resizeObserverA v) (_resizeObserverB v)
    (inflight v) (issued v) (log v).

Definition set_viewportA (x : option Viewport) (v : DualViewer) : DualViewer :=
  mkDualViewer (config v) (vtk v) x (viewportB v) (layout v) (syncCameras v)
    (syncFields v) (isInitialized v) (_isUpdatingCamera v)
    (_messageCleanup v) (_resizeObserverA v) (_resizeObserverB v)
    (inflight v) (issued v) (log v).

Definition set_viewportB (x : option Viewport) (v : DualViewer) : DualViewer :=
  mkDualViewer (config v) (vtk v) (viewportA v) x (layout v) (syncCameras v)
    (syncFields v) (isInitialized v) (_isUpdatingCamera v)
    (_messageCleanup v) (_resizeObserverA v) (_resizeObserverB v)
    (inflight v) (issued v) (log v).

Definition set_layout (x : value) (v : DualViewer) : DualViewer :=
  mkDualViewer (config v) (vtk v) (viewportA v) (viewportB v) x
    (syncCameras v) (syncFields v) (isInitialized v) (_isUpdatingCamera v)
    (_messageCleanup v) (_resizeObserverA v) (_resizeObserverB v)
    (inflight v) (issued v) (log v).

Definition set_syncCameras (x : value) (v : DualViewer) : DualViewer :=
  mkDualViewer (config v) (vtk v) (viewportA v) (viewportB v) (layout v) x
    (syncFields v) (isInitialized v) (_isUpdatingCamera v)
    (_messageCleanup v) (_resizeObserverA v) (_resizeObserverB v)
    (inflight v) (issued v) (log v).

Definition set_syncFields (x : value) (v : DualViewer) : DualViewer :=
  mkDualViewer (config v) (vtk v) (viewportA v) (viewportB v) (layout v)
    (syncCameras v) x (isInitialized v) (_isUpdatingCamera v)
    (_messageCleanup v) (_resizeObserverA v) (_resizeObserverB v)
    (inflight v) (issued v) (log v).

Definition set_isInitialized (x : bool) (v : DualViewer) : DualViewer :=
  mkDualViewer (config v) (vtk v) (viewportA v) (viewportB v) (layout v)
    (syncCameras v) (syncFields v) x (_isUpdatingCamera v)
    (_messageCleanup v) (_resizeObserverA v) (_resizeObserverB v)
    (inflight v) (issued v) (log v).

Definition set_isUpdatingCamera (x : bool) (v : DualViewer) : DualViewer :=
  mkDualViewer (config v) (vtk v) (viewportA v) (viewportB v) (layout v)
    (syncCameras v) (syncFields v) (isInitialized v) x (_messageCleanup v)
    (_resizeObserverA v) (_resizeObserverB v) (inflight v) (issued v)
    (log v).

Definition set_messageCleanup (x : bool) (v : DualViewer) : DualViewer :=
  mkDualViewer (config v) (vtk v) (viewportA v) (viewportB v) (layout v)
    (syncCameras v) (syncFields v) (isInitialized v) (_isUpdatingCamera v) x
    (_resizeObserverA v) (_resizeObserverB v) (inflight v) (issued v)
    (log v).

Definition set_resizeObserverA (x : bool) (v : DualViewer) : DualViewer :=
  mkDualViewer (config v) (vtk v) (viewportA v) (viewportB v) (layout v)
    (syncCameras v) (syncFields v) (isInitialized v) (_isUpdatingCamera v)
    (_messageCleanup v) x (_resizeObserverB v) (inflight v) (issued v)
    (log v).

Definition set_resizeObserverB (x : bool) (v : DualViewer) : DualViewer :=
  mkDualViewer (config v) (vtk v) (viewportA v) (viewportB v) (layout v)
    (syncCameras v) (syncFields v) (isInitialized v) (_isUpdatingCamera v)
    (_messageCleanup v) (_resizeObserverA v) x (inflight v) (issued v)
    (log v).

Definition set_inflight (x : gmap nat Suspended) (v : DualViewer) : DualViewer :=
  mkDualViewer (config v) (vtk v) (viewportA v) (viewportB v) (layout v)
    (syncCameras v) (syncFields v) (isInitialized v) (_isUpdatingCamera v)
    (_messageCleanup v) (_resizeObserverA v) (_resizeObserverB v) x
    (issued v) (log v).

Definition set_issued (x : nat) (v : DualViewer) : DualViewer :=
  mkDualViewer (config v) (vtk v) (viewportA v) (viewportB v) (layout v)
    (syncCameras v) (syncFields v) (isInitialized v) (_isUpdatingCamera v)
    (_messageCleanup v) (_resizeObserverA v) (_resizeObserverB v)
    (inflight v) x (log v).

Definition set_log (x : list effect) (v : DualViewer) : DualViewer :=
  mkDualViewer (config v) (vtk v) (viewportA v) (viewportB v) (layout v)
    (syncCameras v) (syncFields v) (isInitialized v) (_isUpdatingCamera v)
    (_messageCleanup v) (_resizeObserverA v) (_resizeObserverB v)
    (inflight v) (issued v) x.

Definition record (e : effect) (v : DualViewer) : DualViewer :=
  set_log (log v ++ [e]) v.

Definition viewport_of (s : slot) (v : DualViewer) : option Viewport :=
  match s with
  | SlotA => viewportA v
  | SlotB => viewportB v
  end.

Definition set_viewport (s : slot) (vp : Viewport) (v : DualViewer)
  : DualViewer :=
  match s with
  | SlotA => set_viewportA (Some vp) v
  | SlotB => set_viewportB (Some vp) v
  end.

Abbreviation call := (outcome DualViewer DualViewer).

(** *** Construction and initialization *)

(** [DUAL_CONFIG], restricted to the keys the modelled methods read. *)
Definition DUAL_CONFIG : gmap string value :=
  list_to_map [
    ("layout", Str "side-by-side");
    ("syncCameras", Bool true);
    ("syncFields", Bool true);
    ("showEdges", Bool false);
    ("enableFields", Bool true);
    ("enableTextures", Bool true)
  ].

(** [constructor(containerA, containerB, config = {})]; the merge
    [{ ...DUAL_CONFIG, ...config }] is the union that prefers [config]. *)
Definition new (cfg : gmap string value) : DualViewer :=
  let merged := cfg ∪ DUAL_CONFIG in
  {| config := merged;
     vtk := false;
     viewportA := None;
     viewportB := None;
     layout := prop merged "layout";
     syncCameras := prop merged "syncCameras";
     syncFields := prop merged "syncFields";
     isInitialized := false;
     _isUpdatingCamera := false;
     _messageCleanup := false;
     _resizeObserverA := false;
     _resizeObserverB := false;
     inflight := ∅;
     issued := 0%nat;
     log := [] |}.

(** Modelled from the spec: the pose of a camera the rendering library has
    just created (its documented defaults). *)
Definition defaultPose : Pose :=
  mkPose (0, 0, 1) (0, 0, 0) (0, 1, 0) 1.

Definition _createViewport (name : string) : Viewport :=
  {| id := name;
     camera := mkCamera defaultPose [];
     scene := [];
     actors := [];
     polyData := None;
     filename := Null |}.

(** [_setupCameraSync]: the part that subscribes the two closures.  The
    helper [syncCamera] it declares is embedded below. *)
Definition _setupCameraSync (v : DualViewer) : call :=
  match viewportA v, viewportB v with
  | Some a, Some b =>
      Done (set_viewportB (Some (subscribe (SyncCameraFrom SlotB) b))
             (set_viewportA (Some (subscribe (SyncCameraFrom SlotA) a)) v))
  | _, _ => Raised TypeError v
  end.

Definition _setupResizeHandlers (v : DualViewer) : DualViewer :=
  set_resizeObserverB true (set_resizeObserverA true v).

Definition _setupMessageListener (v : DualViewer) : DualViewer :=
  set_messageCleanup true v.

(** [initialize()]; [window_vtk] tells whether [window.vtk] is defined. *)
Definition initialize (window_vtk : bool) (v : DualViewer) : call :=
  if isInitialized v then Done v else
  let v := set_vtk window_vtk v in
  if negb (vtk v) then Raised VtkNotLoaded v else
  let v := set_viewportA (Some (_createViewport "A")) v in
  let v := set_viewportB (Some (_createViewport "B")) v in
  v ← (if truthy (syncCameras v) then _setupCameraSync v else Done v);
  let v := _setupResizeHandlers v in
  let v := _setupMessageListener v in
  Done (record (ConsoleLog "[DualViewer] Initialized")
          (set_isInitialized true v)).

(** *** Collaborators whose source is not at hand

    [extractFilename] belongs to [utils/MessageHandler.js];
    [initialPose] is the pose [CameraController.positionInitialCamera]
    gives a camera for the combined bounds of a list of actors, or [None]
    when [isValidBounds] rejects those bounds; [viewPose] is the pose
    [CameraController.setCameraView] gives a camera for a direction and
    the combined bounds of a list of actors; [eager_notify] tells whether
    a camera setter notifies its observers even when the value it is given
    equals the one it holds (otherwise only on a change). *)
Record Externals : Type := mkExternals {
  extractFilename : value -> value;
  initialPose : list actor -> option Pose;
  viewPose : value -> list actor -> Pose;
  eager_notify : bool
}.

Section Controller.

Variable X : Externals.

(** *** Camera synchronization *)

(** What "fire the modified event of the camera of viewport [s]" does, as a
    parameter: the interpreter [modified] below ties the knot. *)
Definition notifier : Type := slot -> DualViewer -> call.

(** A setter of the camera of viewport [s]: store, then notify. *)
Definition camera_set (notify : notifier) (s : slot) (upd : Pose -> Pose)
  (v : DualViewer) : call :=
  match viewport_of s v with
  | None => Raised TypeError v
  | Some vp =>
      let old := pose (camera vp) in
      let v' := record (CameraSet s (upd old))
                  (set_viewport s (set_pose (upd old) vp) v) in
      if eager_notify X || negb (bool_decide (upd old = old))
      then notify s v'
      else Done v'
  end.

(** [sourceViewport.renderer.getActiveCamera()] and one of its getters. *)
Definition camera_get {T : Type} (s : slot) (get : Pose -> T)
  (v : DualViewer) : outcome DualViewer T :=
  match viewport_of s v with
  | None => Raised TypeError v
  | Some vp => Done (get (pose (camera vp)))
  end.

(** The helper [syncCamera(sourceViewport, targetViewport)]. *)
Definition syncCamera (notify : notifier) (source target : slot)
  (v : DualViewer) : call :=
  if _isUpdatingCamera v then Done v else
  let v := set_isUpdatingCamera true v in
  x ← camera_get source position v;
  v ← camera_set notify target (fun p => set_position p x) v;
  x ← camera_get source focalPoint v;
  v ← camera_set notify target (fun p => set_focalPoint p x) v;
  x ← camera_get source viewUp v;
  v ← camera_set notify target (fun p => set_viewUp p x) v;
  x ← camera_get source parallelScale v;
  v ← camera_set notify target (fun p => set_parallelScale p x) v;
  Done (set_isUpdatingCamera false (record (Render target) v)).

(** One subscribed closure, run on a notification. *)
Definition onModified (notify : notifier) (cb : callback) (v : DualViewer)
  : call :=
  match cb with
  | SyncCameraFrom source =>
      if truthy (syncCameras v)
      then syncCamera notify source (other source) v
      else Done v
  end.

Definition run_callbacks (notify : notifier) (cbs : list callback)
  (v : DualViewer) : call :=
  foldl (fun r cb => v' ← r; onModified notify cb v') (Done v) cbs.

(** The modified event of the camera of viewport [s]: every subscribed
    closure runs, synchronously and in subscription order.  Setters called
    by a closure fire the event of their own camera in turn; [fuel] bounds
    the depth of that nesting. *)
Fixpoint modified (fuel : nat) (s : slot) (v : DualViewer) : call :=
  match fuel with
  | O => OutOfFuel
  | S fuel' =>
      match viewport_of s v with
      | None => Raised TypeError v
      | Some vp => run_callbacks (modified fuel') (observers (camera vp)) v
      end
  end.

(** A pose change made on the camera of viewport [s] from outside the
    controller (the interactor, a camera controller): the camera takes the
    pose [p] and fires its modified event. *)
Definition poseChange (fuel : nat) (s : slot) (p : Pose) (v : DualViewer)
  : call :=
  match viewport_of s v with
  | None => Raised TypeError v
  | Some vp => modified fuel s (set_viewport s (set_pose p vp) v)
  end.

(** [setCameraSync(enabled)]: the flag is assigned, then the log text is
    built from [enabled]. *)
Definition setCameraSync (enabled : value) (v : DualViewer) : call :=
  let v := set_syncCameras enabled v in
  if printable enabled
  then Done (record (ConsoleLog "[DualViewer] Camera sync") v)
  else Raised TypeError v.

Definition setFieldSync (enabled : value) (v : DualViewer) : DualViewer :=
  set_syncFields enabled v.

(** [setLayout(layout)]: the field is assigned, then the log text is built
    from [layout]. *)
Definition setLayout (l : value) (v : DualViewer) : call :=
  let v := set_layout l v in
  if printable l
  then Done (record (ConsoleLog "[DualViewer] Layout set") v)
  else Raised TypeError v.

(** [viewport === 'A' ? this.viewportA : this.viewportB] *)
Definition select (viewport : value) : slot :=
  if is_str viewport "A" then SlotA else SlotB.

Definition getViewport (ident : value) (v : DualViewer) : option Viewport :=
  viewport_of (select ident) v.

(** *** Loading a mesh *)

(** The [catch] block of [loadMesh]: report, then rethrow.  Both texts are
    built from [viewport]; when that conversion throws, it does so before
    [console.error] is called, and the [TypeError] leaves the block in
    place of [e]. *)
Definition loadMesh_catch (viewport : value) (e : error) (v : DualViewer)
  : call :=
  if printable viewport
  then Raised e (record (SendError viewport e)
                   (record (ConsoleError viewport e) v))
  else Raised TypeError v.

Definition try_catch (viewport : value) (r : call) : call :=
  match r with
  | Raised e v => loadMesh_catch viewport e v
  | _ => r
  end.

(** [vp.actors.forEach(actor => vp.renderer.removeActor(actor));
    vp.actors = [];] *)
Definition detach (vp : Viewport) : Viewport :=
  set_actors [] (set_scene (foldl removeActor (scene vp) (actors vp)) vp).

(** [loadMesh(viewport, url)] up to its [await]: the viewport is chosen,
    its actors are detached, the loader is started and the call suspends.
    The suspended call is filed under the number of loads issued so far. *)
Definition loadMesh (viewport url : value) (v : DualViewer) : call :=
  let s := select viewport in
  try_catch viewport
    match viewport_of s v with
    | None => Raised TypeError v
    | Some vp =>
        let v := set_viewport s (detach vp) v in
        Done (set_issued (S (issued v))
                (set_inflight
                   (<[issued v := mkSuspended s viewport url]> (inflight v)) v))
    end.

(** "Configure actors based on format".  The colours and edge options
    handed to the actors are appearance only and are not recorded. *)
Definition configure (s : slot) (r : Loader.Result) (v : DualViewer)
  : DualViewer :=
  if Loader.hasTexture r && truthy (prop (config v) "enableTextures")
  then record (TextureFixes s (Loader.actors r)) v
  else if Loader.hasVertexColors r
  then (if truthy (prop (config v) "showEdges")
        then record (EdgeVisibility s (Loader.actors r)) v
        else v)
  else record (ConfigureActors s (Loader.actors r)) v.

Definition _positionCameraForViewport (fuel : nat) (s : slot)
  (v : DualViewer) : call :=
  match viewport_of s v with
  | None => Raised TypeError v
  | Some vp =>
      match actors vp with
      | [] => Done v
      | _ :: _ =>
          match initialPose X (actors vp) with
          | Some p => poseChange fuel s p v
          | None => Done v
          end
      end
  end.

(** The rest of [loadMesh], run when the loader's promise of the
    suspended call number [k] resolves to [r]. *)
Definition loadMesh_resolved (fuel : nat) (k : nat) (r : Loader.Result)
  (v : DualViewer) : call :=
  match inflight v !! k with
  | None => Done v
  | Some c =>
      let v := set_inflight (delete k (inflight v)) v in
      try_catch (viewport c)
        match viewport_of (target c) v with
        | None => Raised TypeError v
        | Some vp =>
            let vp := set_actors (Loader.actors r) vp in
            let vp := set_polyData (Loader.polyData r) vp in
            let vp := set_filename (extractFilename X (url c)) vp in
            let vp := set_scene (foldl addActor (scene vp) (Loader.actors r)) vp in
            let v := configure (target c) r (set_viewport (target c) vp v) in
            v ← _positionCameraForViewport fuel (target c) v;
            let v := record (Render (target c)) v in
            Done (record (SendMeshLoaded (viewport c)
                            (extractFilename X (url c)) (Loader.format r)
                            (Loader.hasTexture r) (Loader.hasVertexColors r)) v)
        end
  end.

(** The [catch] path of [loadMesh], run when the loader's promise of the
    suspended call number [k] rejects with [e]. *)
Definition loadMesh_rejected (k : nat) (e : error) (v : DualViewer) : call :=
  match inflight v !! k with
  | None => Done v
  | Some c =>
      loadMesh_catch (viewport c) e (set_inflight (delete k (inflight v)) v)
  end.

(** *** Field visualization, camera views, screenshots *)

Definition render (v : DualViewer) : DualViewer :=
  record (Render SlotB) (record (Render SlotA) v).

(** The shared range [applyField] settles on: the one given in [options],
    else, with field sync on, the synchronized range of the loaded
    datasets.  A field name that is not a string names no attribute. *)
Definition fieldRange (fieldName given : value) (v : DualViewer)
  : outcome DualViewer value :=
  if truthy (syncFields v) && negb (truthy given) then
    match viewportA v, viewportB v with
    | Some a, Some b =>
        match omap polyData [a; b] with
        | [] => Done given
        | polydatas =>
            match fieldName with
            | Str f =>
                match FieldVisualization.calculateSynchronizedRange
                        polydatas f with
                | inr (lo, hi) => Done (Arr [Num lo; Num hi])
                | inl e => Raised e v
                end
            | _ => Raised (FieldNotFoundError "") v
            end
        end
    | _, _ => Raised TypeError v
    end
  else Done given.

(** "Apply to viewport A" / "Apply to viewport B". *)
Definition applyTo (s : slot) (fieldName range : value) (v : DualViewer)
  : call :=
  match viewport_of s v with
  | None => Raised TypeError v
  | Some vp =>
      match polyData vp, actors vp with
      | Some _, _ :: _ => Done (record (FieldApplied s fieldName range) v)
      | _, _ => Done v
      end
  end.

(** [applyField(fieldName, options = {})] *)
Definition applyField (fieldName options : value) (v : DualViewer) : call :=
  if negb (truthy (prop (config v) "enableFields")) then Done v else
  let options := match options with Undefined => Obj [] | o => o end in
  match member options "range" with
  | None => Raised TypeError v
  | Some given =>
      range ← fieldRange fieldName given v;
      v ← applyTo SlotA fieldName range v;
      v ← applyTo SlotB fieldName range v;
      Done (render v)
  end.

(** [captureScreenshot()] up to its [await]. *)
Definition captureScreenshot (v : DualViewer) : call :=
  match viewportA v, viewportB v with
  | Some _, Some _ => Done (record ScreenshotCapture v)
  | _, _ => Raised TypeError v
  end.

(** [setCameraView(direction)] *)
Definition setCameraView (fuel : nat) (direction : value) (v : DualViewer)
  : call :=
  match viewportA v, viewportB v with
  | Some a, Some b =>
      match (actors a ++ actors b)%list with
      | [] => Done v
      | allActors =>
          v ← poseChange fuel SlotA (viewPose X direction allActors) v;
          v ← (if negb (truthy (syncCameras v))
               then poseChange fuel SlotB (viewPose X direction allActors) v
               else Done v);
          Done (render v)
      end
  | _, _ => Raised TypeError v
  end.

(** *** Messages from the parent frame *)

(** The callback handed to [createMessageListener], applied to the data of
    one message.  The promises of [loadMesh] and [captureScreenshot] are
    not awaited. *)
Definition onMessage (data : gmap string value) (v : DualViewer) : call :=
  let type := prop data "type" in
  if is_str type "loadMeshA" then
    forget (loadMesh (Str "A") (prop data "url") v)
  else if is_str type "loadMeshB" then
    forget (loadMesh (Str "B") (prop data "url") v)
  else if is_str type "loadMesh" then
    (if truthy (prop data "viewport")
     then forget (loadMesh (prop data "viewport") (prop data "url") v)
     else forget (loadMesh (Str "A") (prop data "url") v))
  else if is_str type "setLayout" then
    setLayout (prop data "layout") v
  else if is_str type "setCameraSync" then
    setCameraSync (prop data "enabled") v
  else if is_str type "setField" then
    applyField (prop data "field") (prop data "options") v
  else if is_str type "screenshot" then
    forget (captureScreenshot v)
  else Done v.

(** *** Teardown *)

(** The body of the [forEach] over the two viewports in [destroy]. *)
Definition destroyViewport (s : slot) (v : DualViewer) : DualViewer :=
  match viewport_of s v with
  | None => v
  | Some vp =>
      let v := set_viewport s
                 (set_scene (foldl removeActor (scene vp) (actors vp)) vp) v in
      let v := foldl (fun w a => record (ActorRemoved s a) w) v (actors vp) in
      record (DeleteRenderWindow s)
        (record (DeleteOpenGLRenderWindow s) (record (UnbindEvents s) v))
  end.

Definition destroy (v : DualViewer) : DualViewer :=
  let v := if _messageCleanup v then record MessageCleanup v else v in
  let v := if _resizeObserverA v then record (ResizeDisconnect SlotA) v else v in
  let v := if _resizeObserverB v then record (ResizeDisconnect SlotB) v else v in
  let v := destroyViewport SlotA v in
  let v := destroyViewport SlotB v in
  record (ConsoleLog "[DualViewer] Destroyed") v.

End Controller.

(** *** Observations used by the properties *)

Definition poseOf (s : slot) (v : DualViewer) : option Pose :=
  pose ∘ camera <$> viewport_of s v.

(** The state [_setupCameraSync] establishes: each camera has exactly the
    closure that copies its own pose to the other viewport. *)
Definition wired (v : DualViewer) : Prop :=
  ∀ s, observers ∘ camera <$> viewport_of s v = Some [SyncCameraFrom s].

(** The dataset slot of a viewport: what a load replaces. *)
Definition dataset (vp : Viewport)
  : list actor * option PolyData * value :=
  (actors vp, polyData vp, filename vp).

(** A viewport in the state [_createViewport] leaves its dataset slot in. *)
Definition cleared (vp : Viewport) : Prop :=
  dataset vp = ([], None, Null).

(** A viewer with its camera poses, its reentrancy guard and its log
    blanked: two viewers with the same frame differ in those at most. *)
Definition frame (v : DualViewer) : DualViewer :=
  let blank := fun vp => set_pose defaultPose vp in
  mkDualViewer (config v) (vtk v) (blank <$> viewportA v)
    (blank <$> viewportB v) (layout v) (syncCameras v) (syncFields v)
    (isInitialized v) false (_messageCleanup v) (_resizeObserverA v)
    (_resizeObserverB v) (inflight v) (issued v) [].

(** Both viewports have been created. *)
Definition ready (v : DualViewer) : Prop :=
  ∀ s, is_Some (viewport_of s v).

(** The call that deletes the render window of a viewport; [render()] on
    a deleted render window throws. *)
Definition deletion (e : effect) : bool :=
  match e with
  | DeleteRenderWindow _ => true
  | _ => false
  end.

(** No render window of the viewer has been deleted: [destroy], the only
    method that deletes them, has not run since the viewports were
    created.  The log holds every call the viewer has made, so this is
    read off the log. *)
Definition live (v : DualViewer) : Prop :=
  existsb deletion (log v) = false.

(** A notifier is quiet when, under the guard, firing the modified event
    of an existing camera changes nothing. *)
Definition quiet (notify : slot -> DualViewer -> call) : Prop :=
  ∀ s v, _isUpdatingCamera v = true → is_Some (viewport_of s v) →
         notify s v = Done v.

(** A run of pose changes on the camera of one viewport. *)
Definition poseChanges (X : Externals) (fuel : nat) (s : slot)
  (ps : list Pose) (v : DualViewer) : call :=
  foldl (fun r p => v' ← r; poseChange X fuel s p v') (Done v) ps.

(** What a viewport looks like after [destroy]: its actors are detached
    from its renderer, everything else is as before. *)
Definition torn (vp : Viewport) : Viewport :=
  set_scene (foldl removeActor (scene vp) (actors vp)) vp.

(** The release calls [destroy] makes for one viewport, in order. *)
Definition viewportReleases (s : slot) (v : DualViewer) : list effect :=
  match viewport_of s v with
  | None => []
  | Some vp =>
      (ActorRemoved s <$> actors vp) ++
      [UnbindEvents s; DeleteOpenGLRenderWindow s; DeleteRenderWindow s]
  end.

(** The calls [destroy] makes on a viewer, in order. *)
Definition releases (v : DualViewer) : list effect :=
  (if _messageCleanup v then [MessageCleanup] else []) ++
  (if _resizeObserverA v then [ResizeDisconnect SlotA] else []) ++
  (if _resizeObserverB v then [ResizeDisconnect SlotB] else []) ++
  viewportReleases SlotA v ++ viewportReleases SlotB v ++
  [ConsoleLog "[DualViewer] Destroyed"].

(** No reference to a viewport object is left in the viewer. *)
Definition released (v : DualViewer) : Prop :=
  viewportA v = None ∧ viewportB v = None.

(** A run of pose changes on the cameras of either viewport. *)
Definition session (X : Externals) (fuel : nat)
  (changes : list (slot * Pose)) (v : DualViewer) : call :=
  foldl (fun r c => v' ← r; poseChange X fuel c.1 c.2 v') (Done v) changes.

(** The [type] strings the message callback has a [case] for. *)
Definition messageTypes : list string :=
  ["loadMeshA"; "loadMeshB"; "loadMesh"; "setLayout"; "setCameraSync";
   "setField"; "screenshot"].

End Dual.

(** ** BaseViewer *)

Module Base.

Import Js Vtk.

Inductive effect : Type :=
| ShowLoading (show : bool)
| Render
| TextureFixes (l : list actor)
| EdgeVisibility (l : list actor)
| ConfigureActors (l : list actor)
| PositionInitialCamera (l : list actor)
| UpdateInfoOverlay (filename : value)
| SendMeshLoaded (filename format : value) (numActors : nat)
    (hasTexture hasVertexColors : bool)
| SendError (cause : error)
| CaptureAndSend
| FieldApplied (field colormap range : value)
| DisableScalarVisualization
| FieldsAvailable (names : list string)
| ConsoleError (cause : error)
| ConsoleLog (text : string)
| MessageCleanup
| ResizeDisconnect
| AxisIndicatorDestroy
| ActorRemoved (a : actor)
| UnbindEvents
| DeleteOpenGLRenderWindow
| DeleteRenderWindow
| RemoveOverlay (name : string).

(** The fields of a BaseViewer.  [renderer] is [None] while the field is
    [null] and otherwise holds the actors attached to the renderer; an
    overlay is [None] while absent and otherwise tells whether the element
    still has a parent; the other library handles and feature modules are
    present or not. *)
Record BaseViewer : Type := mkBaseViewer {
  config : gmap string value;
  vtk : bool;
  renderWindow : bool;
  renderer : option (list actor);
  interactor : bool;
  openGLRenderWindow : bool;
  screenshotCapture : bool;
  axisIndicator : bool;
  fieldVisualization : bool;
  textureManager : bool;
  actors : list actor;
  polyDatas : list PolyData;
  currentFilename : value;
  isInitialized : bool;
  loadingOverlay : option bool;
  infoOverlay : option bool;
  _messageCleanup : bool;
  _resizeObserver : bool;
  (** the promises of the loader still pending: the [url] each suspended
      [loadMesh] call closes over *)
  inflight : gmap nat value;
  issued : nat;
  log : list effect
}.

(** Assignments to the fields of [this]. *)
Definition set_vtk (x : bool) (v : BaseViewer) : BaseViewer :=
  mkBaseViewer (config v) x (renderWindow v) (renderer v) (interactor v)
    (openGLRenderWindow v) (screenshotCapture v) (axisIndicator v)
    (fieldVisualization v) (textureManager v) (actors v) (polyDatas v)
    (currentFilename v) (isInitialized v) (loadingOverlay v) (infoOverlay v)
    (_messageCleanup v) (_resizeObserver v) (inflight v) (issued v) (log v).

Definition set_renderWindow (x : bool) (v : BaseViewer) : BaseViewer :=
  mkBaseViewer (config v) (vtk v) x (renderer v) (interactor v)
    (openGLRenderWindow v) (screenshotCapture v) (axisIndicator v)
    (fieldVisualization v) (textureManager v) (actors v) (polyDatas v)
    (currentFilename v) (isInitialized v) (loadingOverlay v) (infoOverlay v)
    (_messageCleanup v) (_resizeObserver v) (inflight v) (issued v) (log v).

Definition set_renderer (x : option (list actor)) (v : BaseViewer) : BaseViewer :=
  mkBaseViewer (config v) (vtk v) (renderWindow v) x (interactor v)
    (openGLRenderWindow v) (screenshotCapture v) (axisIndicator v)
    (fieldVisualization v) (textureManager v) (actors v) (polyDatas v)
    (currentFilename v) (isInitialized v) (loadingOverlay v) (infoOverlay v)
    (_messageCleanup v) (_resizeObserver v) (inflight v) (issued v) (log v).

Definition set_interactor (x : bool) (v : BaseViewer) : BaseViewer :=
  mkBaseViewer (config v) (vtk v) (renderWindow v) (renderer v) x
    (openGLRenderWindow v) (screenshotCapture v) (axisIndicator v)
    (fieldVisualization v) (textureManager v) (actors v) (polyDatas v)
    (currentFilename v) (isInitialized v) (loadingOverlay v) (infoOverlay v)
    (_messageCleanup v) (_resizeObserver v) (inflight v) (issued v) (log v).

Definition set_openGLRenderWindow (x : bool) (v : BaseViewer) : BaseViewer :=
  mkBaseViewer (config v) (vtk v) (renderWindow v) (renderer v)
    (interactor v) x (screenshotCapture v) (axisIndicator v)
    (fieldVisualization v) (textureManager v) (actors v) (polyDatas v)
    (currentFilename v) (isInitialized v) (loadingOverlay v) (infoOverlay v)
    (_messageCleanup v) (_resizeObserver v) (inflight v) (issued v) (log v).

Definition set_screenshotCapture (x : bool) (v : BaseViewer) : BaseViewer :=
  mkBaseViewer (config v) (vtk v) (renderWindow v) (renderer v)
    (interactor v) (openGLRenderWindow v) x (axisIndicator v)
    (fieldVisualization v) (textureManager v) (actors v) (polyDatas v)
    (currentFilename v) (isInitialized v) (loadingOverlay v) (infoOverlay v)
    (_messageCleanup v) (_resizeObserver v) (inflight v) (issued v) (log v).

Definition set_axisIndicator (x : bool) (v : BaseViewer) : BaseViewer :=
  mkBaseViewer (config v) (vtk v) (renderWindow v) (renderer v)
    (interactor v) (openGLRenderWindow v) (screenshotCapture v) x
    (fieldVisualization v) (textureManager v) (actors v) (polyDatas v)
    (currentFilename v) (isInitialized v) (loadingOverlay v) (infoOverlay v)
    (_messageCleanup v) (_resizeObserver v) (inflight v) (issued v) (log v).

Definition set_fieldVisualization (x : bool) (v : BaseViewer) : BaseViewer :=
  mkBaseViewer (config v) (vtk v) (renderWindow v) (renderer v)
    (interactor v) (openGLRenderWindow v) (screenshotCapture v)
    (axisIndicator v) x (textureManager v) (actors v) (polyDatas v)
    (currentFilename v) (isInitialized v) (loadingOverlay v) (infoOverlay v)
    (_messageCleanup v) (_resizeObserver v) (inflight v) (issued v) (log v).

Definition set_textureManager (x : bool) (v : BaseViewer) : BaseViewer :=
  mkBaseViewer (config v) (vtk v) (renderWindow v) (renderer v)
    (interactor v) (openGLRenderWindow v) (screenshotCapture v)
    (axisIndicator v) (fieldVisualization v) x (actors v) (polyDatas v)
    (currentFilename v) (isInitialized v) (loadingOverlay v) (infoOverlay v)
    (_messageCleanup v) (_resizeObserver v) (inflight v) (issued v) (log v).

Definition set_actors (x : list actor) (v : BaseViewer) : BaseViewer :=
  mkBaseViewer (config v) (vtk v) (renderWindow v) (renderer v)
    (interactor v) (openGLRenderWindow v) (screenshotCapture v)
    (axisIndicator v) (fieldVisualization v) (textureManager v) x
    (polyDatas v) (currentFilename v) (isInitialized v) (loadingOverlay v)
    (infoOverlay v) (_messageCleanup v) (_resizeObserver v) (inflight v)
    (issued v) (log v).

Definition set_polyDatas (x : list PolyData) (v : BaseViewer) : BaseViewer :=
  mkBaseViewer (config v) (vtk v) (renderWindow v) (renderer v)
    (interactor v) (openGLRenderWindow v) (screenshotCapture v)
    (axisIndicator v) (fieldVisualization v) (textureManager v) (actors v) x
    (currentFilename v) (isInitialized v) (loadingOverlay v) (infoOverlay v)
    (_messageCleanup v) (_resizeObserver v) (inflight v) (issued v) (log v).

Definition set_currentFilename (x : value) (v : BaseViewer) : BaseViewer :=
  mkBaseViewer (config v) (vtk v) (renderWindow v) (renderer v)
    (interactor v) (openGLRenderWindow v) (screenshotCapture v)
    (axisIndicator v) (fieldVisualization v) (textureManager v) (actors v)
    (polyDatas v) x (isInitialized v) (loadingOverlay v) (infoOverlay v)
    (_messageCleanup v) (_resizeObserver v) (inflight v) (issued v) (log v).

Definition set_isInitialized (x : bool) (v : BaseViewer) : BaseViewer :=
  mkBaseViewer (config v) (vtk v) (renderWindow v) (renderer v)
    (interactor v) (openGLRenderWindow v) (screenshotCapture v)
    (axisIndicator v) (fieldVisualization v) (textureManager v) (actors v)
    (polyDatas v) (currentFilename v) x (loadingOverlay v) (infoOverlay v)
    (_messageCleanup v) (_resizeObserver v) (inflight v) (issued v) (log v).

Definition set_loadingOverlay (x : option bool) (v : BaseViewer) : BaseViewer :=
  mkBaseViewer (config v) (vtk v) (renderWindow v) (renderer v)
    (interactor v) (openGLRenderWindow v) (screenshotCapture v)
    (axisIndicator v) (fieldVisualization v) (textureManager v) (actors v)
    (polyDatas v) (currentFilename v) (isInitialized v) x (infoOverlay v)
    (_messageCleanup v) (_resizeObserver v) (inflight v) (issued v) (log v).

Definition set_infoOverlay (x : option bool) (v : BaseViewer) : BaseViewer :=
  mkBaseViewer (config v) (vtk v) (renderWindow v) (renderer v)
    (interactor v) (openGLRenderWindow v) (screenshotCapture v)
    (axisIndicator v) (fieldVisualization v) (textureManager v) (actors v)
    (polyDatas v) (currentFilename v) (isInitialized v) (loadingOverlay v) x
    (_messageCleanup v) (_resizeObserver v) (inflight v) (issued v) (log v).

Definition set_messageCleanup (x : bool) (v : BaseViewer) : BaseViewer :=
  mkBaseViewer (config v) (vtk v) (renderWindow v) (renderer v)
    (interactor v) (openGLRenderWindow v) (screenshotCapture v)
    (axisIndicator v) (fieldVisualization v) (textureManager v) (actors v)
    (polyDatas v) (currentFilename v) (isInitialized v) (loadingOverlay v)
    (infoOverlay v) x (_resizeObserver v) (inflight v) (issued v) (log v).

Definition set_resizeObserver (x : bool) (v : BaseViewer) : BaseViewer :=
  mkBaseViewer (config v) (vtk v) (renderWindow v) (renderer v)
    (interactor v) (openGLRenderWindow v) (screenshotCapture v)
    (axisIndicator v) (fieldVisualization v) (textureManager v) (actors v)
    (polyDatas v) (currentFilename v) (isInitialized v) (loadingOverlay v)
    (infoOverlay v) (_messageCleanup v) x (inflight v) (issued v) (log v).

Definition set_inflight (x : gmap nat value) (v : BaseViewer) : BaseViewer :=
  mkBaseViewer (config v) (vtk v) (renderWindow v) (renderer v)
    (interactor v) (openGLRenderWindow v) (screenshotCapture v)
    (axisIndicator v) (fieldVisualization v) (textureManager v) (actors v)
    (polyDatas v) (currentFilename v) (isInitialized v) (loadingOverlay v)
    (infoOverlay v) (_messageCleanup v) (_resizeObserver v) x (issued v)
    (log v).

Definition set_issued (x : nat) (v : BaseViewer) : BaseViewer :=
  mkBaseViewer (config v) (vtk v) (renderWindow v) (renderer v)
    (interactor v) (openGLRenderWindow v) (screenshotCapture v)
    (axisIndicator v) (fieldVisualization v) (textureManager v) (actors v)
    (polyDatas v) (currentFilename v) (isInitialized v) (loadingOverlay v)
    (infoOverlay v) (_messageCleanup v) (_resizeObserver v) (inflight v) x
    (log v).

Definition set_log (x : list effect) (v : BaseViewer) : BaseViewer :=
  mkBaseViewer (config v) (vtk v) (renderWindow v) (renderer v)
    (interactor v) (openGLRenderWindow v) (screenshotCapture v)
    (axisIndicator v) (fieldVisualization v) (textureManager v) (actors v)
    (polyDatas v) (currentFilename v) (isInitialized v) (loadingOverlay v)
    (infoOverlay v) (_messageCleanup v) (_resizeObserver v) (inflight v)
    (issued v) x.

Definition record (e : effect) (v : BaseViewer) : BaseViewer :=
  set_log (log v ++ [e]) v.

Abbreviation call := (outcome BaseViewer BaseViewer).

(** [DEFAULT_CONFIG], restricted to the keys the modelled methods read. *)
Definition DEFAULT_CONFIG : gmap string value :=
  list_to_map [
    ("showEdges", Bool false);
    ("enableFields", Bool true);
    ("enableTextures", Bool false);
    ("enableScreenshot", Bool true);
    ("enableAxisIndicator", Bool false);
    ("showLoadingOverlay", Bool true);
    ("showInfoOverlay", Bool true)
  ].

(** [constructor(container, config = {})] *)
Definition new (cfg : gmap string value) : BaseViewer :=
  {| config := cfg ∪ DEFAULT_CONFIG;
     vtk := false;
     renderWindow := false;
     renderer := None;
     interactor := false;
     openGLRenderWindow := false;
     screenshotCapture := false;
     axisIndicator := false;
     fieldVisualization := false;
     textureManager := false;
     actors := [];
     polyDatas := [];
     currentFilename := Null;
     isInitialized := false;
     loadingOverlay := None;
     infoOverlay := None;
     _messageCleanup := false;
     _resizeObserver := false;
     inflight := ∅;
     issued := 0%nat;
     log := [] |}.

Definition _createRenderingPipeline (v : BaseViewer) : BaseViewer :=
  set_interactor true
    (set_openGLRenderWindow true (set_renderer (Some []) (set_renderWindow true v))).

Definition enabled (key : string) (v : BaseViewer) : bool :=
  truthy (prop (config v) key).

Definition _initializeFeatures (v : BaseViewer) : BaseViewer :=
  let v := if enabled "enableScreenshot" v then set_screenshotCapture true v else v in
  let v := if enabled "enableAxisIndicator" v then set_axisIndicator true v else v in
  let v := if enabled "enableFields" v then set_fieldVisualization true v else v in
  if enabled "enableTextures" v then set_textureManager true v else v.

(** [_createUI]: the two overlays; the settings panel and the controls bar
    hold no state the modelled methods read. *)
Definition _createUI (v : BaseViewer) : BaseViewer :=
  let v := if enabled "showLoadingOverlay" v
           then set_loadingOverlay (Some true) v else v in
  if enabled "showInfoOverlay" v then set_infoOverlay (Some true) v else v.

Definition initialize (window_vtk : bool) (v : BaseViewer) : call :=
  if isInitialized v
  then Done (record (ConsoleLog "[BaseViewer] Already initialized") v) else
  let v := set_vtk window_vtk v in
  if negb (vtk v) then Raised VtkNotLoaded v else
  let v := _createUI (_initializeFeatures (_createRenderingPipeline v)) in
  let v := set_messageCleanup true (set_resizeObserver true v) in
  Done (record (ConsoleLog "[BaseViewer] Initialized") (set_isInitialized true v)).

Section Controller.

Variable extractFilename : value -> value.

(** Whether [isValidBounds] accepts the combined bounds of the actors. *)
Variable validBounds : list actor -> bool.

(** [showLoading(show)]: a no-op without the overlay. *)
Definition showLoading (show : bool) (v : BaseViewer) : BaseViewer :=
  match loadingOverlay v with
  | Some _ => record (ShowLoading show) v
  | None => v
  end.

(** [clearScene()]; detaching an actor needs the renderer. *)
Definition clearScene (v : BaseViewer) : call :=
  match actors v, renderer v with
  | [], _ => Done (set_polyDatas [] (set_actors [] v))
  | _ :: _, None => Raised TypeError v
  | l, Some sc =>
      let v := foldl (fun w a => record (ActorRemoved a) w) v l in
      Done (set_polyDatas []
              (set_actors [] (set_renderer (Some (foldl removeActor sc l)) v)))
  end.

(** The [catch] block of [loadMesh]. *)
Definition loadMesh_catch (e : error) (v : BaseViewer) : call :=
  Raised e (record (SendError e)
              (showLoading false (record (ConsoleError e) v))).

Definition try_catch (r : call) : call :=
  match r with
  | Raised e v => loadMesh_catch e v
  | _ => r
  end.

(** [loadMesh(url)] up to its [await]. *)
Definition loadMesh (url : value) (v : BaseViewer) : call :=
  let v := showLoading true v in
  try_catch (
    v ← clearScene v;
    Done (set_issued (S (issued v))
            (set_inflight (<[issued v := url]> (inflight v)) v))).

Definition _configureLoadedActors (r : Loader.Result) (v : BaseViewer)
  : BaseViewer :=
  if enabled "enableTextures" v && textureManager v && Loader.hasTexture r
  then record (TextureFixes (actors v)) v
  else if Loader.hasVertexColors r
  then (if enabled "showEdges" v
        then record (EdgeVisibility (actors v)) v
        else v)
  else record (ConfigureActors (actors v)) v.

Definition _setupCameraForMesh (v : BaseViewer) : BaseViewer :=
  match actors v with
  | [] => v
  | l => if validBounds l then record (PositionInitialCamera l) v else v
  end.

Definition _updateInfoOverlay (v : BaseViewer) : BaseViewer :=
  match infoOverlay v with
  | Some _ => record (UpdateInfoOverlay (currentFilename v)) v
  | None => v
  end.

(** [result.actors.forEach(actor => this.renderer.addActor(actor))] *)
Definition attach (l : list actor) (v : BaseViewer) : call :=
  match l, renderer v with
  | [], _ => Done v
  | _ :: _, None => Raised TypeError v
  | _, Some sc => Done (set_renderer (Some (foldl addActor sc l)) v)
  end.

(** The rest of [loadMesh], run when the loader's promise of the
    suspended call number [k] resolves to [r]. *)
Definition loadMesh_resolved (k : nat) (r : Loader.Result) (v : BaseViewer)
  : call :=
  match inflight v !! k with
  | None => Done v
  | Some url =>
      let v := set_inflight (delete k (inflight v)) v in
      try_catch (
        let v := set_actors (Loader.actors r) v in
        let v := set_polyDatas (option_list (Loader.polyData r)) v in
        let v := set_currentFilename (extractFilename url) v in
        v ← attach (Loader.actors r) v;
        let v := _configureLoadedActors r v in
        let v := _setupCameraForMesh v in
        let v := _updateInfoOverlay v in
        let v := showLoading false v in
        let v := record (SendMeshLoaded (currentFilename v) (Loader.format r)
                           (length (Loader.actors r)) (Loader.hasTexture r)
                           (Loader.hasVertexColors r)) v in
        Done (record Render v))
  end.

(** The [catch] path of [loadMesh], run when the loader's promise of the
    suspended call number [k] rejects with [e]. *)
Definition loadMesh_rejected (k : nat) (e : error) (v : BaseViewer) : call :=
  match inflight v !! k with
  | None => Done v
  | Some _ => loadMesh_catch e (set_inflight (delete k (inflight v)) v)
  end.

Definition captureScreenshot (v : BaseViewer) : BaseViewer :=
  if screenshotCapture v then record CaptureAndSend v else v.

(** The callback [BaseViewer._setupMessageListener] hands to
    [createMessageListener]. *)
Definition onMessage (data : gmap string value) (v : BaseViewer) : call :=
  if is_str (prop data "type") "loadMesh" && truthy (prop data "url")
  then forget (loadMesh (prop data "url") v)
  else if is_str (prop data "type") "screenshot"
  then Done (captureScreenshot v)
  else Done v.

Definition removeOverlay (name : string) (o : option bool) (v : BaseViewer)
  : BaseViewer :=
  match o with
  | Some true => record (RemoveOverlay name) v
  | _ => v
  end.

Definition detached (o : option bool) : option bool :=
  match o with
  | Some _ => Some false
  | None => None
  end.

(** [destroy()] *)
Definition destroy (v : BaseViewer) : call :=
  let v := if _messageCleanup v then record MessageCleanup v else v in
  let v := if _resizeObserver v then record ResizeDisconnect v else v in
  let v := if axisIndicator v then record AxisIndicatorDestroy v else v in
  v ← clearScene v;
  let v := if interactor v then record UnbindEvents v else v in
  let v := if openGLRenderWindow v then record DeleteOpenGLRenderWindow v else v in
  let v := if renderWindow v then record DeleteRenderWindow v else v in
  let v := set_loadingOverlay (detached (loadingOverlay v))
             (removeOverlay "loading" (loadingOverlay v) v) in
  let v := set_infoOverlay (detached (infoOverlay v))
             (removeOverlay "meshInfo" (infoOverlay v) v) in
  Done (record (ConsoleLog "[BaseViewer] Destroyed") v).

End Controller.

(** The references [destroy] releases through, and the actor list. *)
Definition core (v : BaseViewer)
  : option (list actor) * bool * bool * bool * list actor :=
  (renderer v, renderWindow v, openGLRenderWindow v, interactor v, actors v).

(** The dataset a BaseViewer holds and its pending loads. *)
Definition content (v : BaseViewer)
  : list actor * list PolyData * value * gmap nat value :=
  (actors v, polyDatas v, currentFilename v, inflight v).

End Base.

(** ** StandardViewer *)

Module Standard.

Import Js Vtk.

(** A StandardViewer is a BaseViewer ([super]) with the state of its field
    visualization. *)
Record StandardViewer : Type := mkStandardViewer {
  super : Base.BaseViewer;
  currentField : value;
  currentColormap : value;
  availableFields : list string
}.

Definition on_super (f : Base.BaseViewer -> Base.BaseViewer)
  (v : StandardViewer) : StandardViewer :=
  mkStandardViewer (f (super v)) (currentField v) (currentColormap v)
    (availableFields v).

Definition set_currentField (x : value) (v : StandardViewer)
  : StandardViewer :=
  mkStandardViewer (super v) x (currentColormap v) (availableFields v).

Definition set_currentColormap (x : value) (v : StandardViewer)
  : StandardViewer :=
  mkStandardViewer (super v) (currentField v) x (availableFields v).

Definition set_availableFields (x : list string) (v : StandardViewer)
  : StandardViewer :=
  mkStandardViewer (super v) (currentField v) (currentColormap v) x.

Abbreviation call := (outcome StandardViewer StandardViewer).

(** Runs a method inherited from BaseViewer on a StandardViewer. *)
Definition inherited (f : Base.BaseViewer -> Base.call) (v : StandardViewer)
  : call :=
  match f (super v) with
  | Done b => Done (on_super (fun _ => b) v)
  | Raised e b => Raised e (on_super (fun _ => b) v)
  | OutOfFuel => OutOfFuel
  end.

(** [STANDARD_CONFIG], restricted to the keys the modelled methods read. *)
Definition STANDARD_CONFIG : gmap string value :=
  list_to_map [
    ("enableFields", Bool true);
    ("enableTextures", Bool false);
    ("enableScreenshot", Bool true);
    ("enableAxisIndicator", Bool false);
    ("showEdges", Bool false)
  ].

Definition new (cfg : gmap string value) : StandardViewer :=
  {| super := Base.new (cfg ∪ STANDARD_CONFIG);
     currentField := Null;
     currentColormap := Str "erdc_rainbow_bright";
     availableFields := [] |}.

(** [applyField(fieldName, options)], with the two keys of [options] the
    method reads. *)
Definition applyField (fieldName colormap range : value)
  (v : StandardViewer) : StandardViewer :=
  if negb (Base.fieldVisualization (super v))
     || bool_decide (length (Base.polyDatas (super v)) = 0%nat)
  then on_super (Base.record
                   (Base.ConsoleLog "[StandardViewer] Field visualization not available")) v
  else
    match Base.actors (super v) with
    | [] => v
    | _ :: _ =>
        let shown := if truthy colormap then colormap else currentColormap v in
        let v := on_super (Base.record (Base.FieldApplied fieldName shown range)) v in
        let v := set_currentField fieldName v in
        if truthy colormap then set_currentColormap colormap v else v
    end.

Definition setColormap (colormap : value) (v : StandardViewer)
  : StandardViewer :=
  let v := set_currentColormap colormap v in
  if truthy (currentField v)
  then applyField (currentField v) colormap Undefined v
  else v.

Definition clearField (v : StandardViewer) : StandardViewer :=
  let v := match Base.actors (super v) with
           | [] => v
           | _ :: _ =>
               if Base.fieldVisualization (super v)
               then on_super (Base.record Base.DisableScalarVisualization) v
               else v
           end in
  set_currentField Null v.

Section Controller.

Variable extractFilename : value -> value.
Variable validBounds : list actor -> bool.

(** [loadMesh(url)] up to the [await] inside [super.loadMesh(url)]. *)
Definition loadMesh (url : value) (v : StandardViewer) : call :=
  inherited (Base.loadMesh url) v.

(** Modelled from the spec: [extractFields] of
    [features/FieldVisualization.js] lists the named attributes of a
    dataset. *)
Definition extractFields (d : PolyData) : list string :=
  (map_to_list (ranges d)).*1.

(** The rest of [loadMesh], run when the loader's promise resolves. *)
Definition loadMesh_resolved (k : nat) (r : Loader.Result)
  (v : StandardViewer) : call :=
  v ← inherited (Base.loadMesh_resolved extractFilename validBounds k r) v;
  match Base.fieldVisualization (super v), Base.polyDatas (super v) with
  | true, d :: _ =>
      let v := set_availableFields (extractFields d) v in
      match availableFields v with
      | [] => Done v
      | names => Done (on_super (Base.record (Base.FieldsAvailable names)) v)
      end
  | _, _ => Done v
  end.

Definition loadMesh_rejected (k : nat) (e : error) (v : StandardViewer)
  : call :=
  inherited (Base.loadMesh_rejected k e) v.

(** The listener [StandardViewer._setupMessageListener] adds to the one of
    BaseViewer. *)
Definition onFieldMessage (data : gmap string value) (v : StandardViewer)
  : StandardViewer :=
  let type := prop data "type" in
  if negb (truthy type) then v
  else if is_str type "setField" then
    applyField (prop data "field") (prop data "colormap") (prop data "range") v
  else if is_str type "setColormap" then
    setColormap (prop data "colormap") v
  else if is_str type "clearField" then
    clearField v
  else v.

(** One message, delivered to both listeners in the order they were
    registered.  [this.loadMesh] in the inherited callback is the override
    above. *)
Definition onMessage (data : gmap string value) (v : StandardViewer) : call :=
  v ← (if is_str (prop data "type") "loadMesh" && truthy (prop data "url")
       then forget (loadMesh (prop data "url") v)
       else if is_str (prop data "type") "screenshot"
       then Done (on_super Base.captureScreenshot v)
       else Done v);
  Done (onFieldMessage data v).

End Controller.

(** The [type] strings the two listeners of a StandardViewer act on. *)
Definition messageTypes : list string :=
  ["loadMesh"; "screenshot"; "setField"; "setColormap"; "clearField"].

End Standard.

(** ** Sample inputs *)

Module Sample.

Import Js Vtk Dual.

(** Collaborators for the examples: the filename is the URL itself, no
    bounds are valid (the camera stays where it is after a load), setters
    notify on a change only. *)
Definition X0 : Externals :=
  mkExternals (fun u => u) (fun _ => None) (fun _ _ => defaultPose) false.

(** A DualViewer constructed without options, once [initialize] has run. *)
Definition viewer : DualViewer :=
  {| config := DUAL_CONFIG;
     vtk := true;
     viewportA := Some (subscribe (SyncCameraFrom SlotA) (_createViewport "A"));
     viewportB := Some (subscribe (SyncCameraFrom SlotB) (_createViewport "B"));
     layout := Str "side-by-side";
     syncCameras := Bool true;
     syncFields := Bool true;
     isInitialized := true;
     _isUpdatingCamera := false;
     _messageCleanup := true;
     _resizeObserverA := true;
     _resizeObserverB := true;
     inflight := ∅;
     issued := 0%nat;
     log := [ConsoleLog "[DualViewer] Initialized"] |}.

(** A DualViewer constructed with [{syncCameras: false}], once
    [initialize] has run: nothing is subscribed to its cameras. *)
Definition unsynced : DualViewer :=
  {| config := {[ "syncCameras" := Bool false ]} ∪ DUAL_CONFIG;
     vtk := true;
     viewportA := Some (_createViewport "A");
     viewportB := Some (_createViewport "B");
     layout := Str "side-by-side";
     syncCameras := Bool false;
     syncFields := Bool true;
     isInitialized := true;
     _isUpdatingCamera := false;
     _messageCleanup := true;
     _resizeObserverA := true;
     _resizeObserverB := true;
     inflight := ∅;
     issued := 0%nat;
     log := [ConsoleLog "[DualViewer] Initialized"] |}.

(** A camera rotated away from where the library puts it. *)
Definition rotated : Pose := mkPose (3, 4, 0) (0, 0, 0) (0, 0, 1) 5.

Definition dataset1 : PolyData := mkPolyData 1 {[ "point:height" := (0, 10) ]}.
Definition dataset2 : PolyData := mkPolyData 2 {[ "point:height" := (5, 20) ]}.
Definition plain : PolyData := mkPolyData 3 ∅.

(** What the loader resolves to for [mesh1.obj] and for [mesh2.obj]. *)
Definition mesh1 : Loader.Result :=
  Loader.mkResult [1%nat] (Some dataset1) (Str "obj") false false.
Definition mesh2 : Loader.Result :=
  Loader.mkResult [2%nat] (Some dataset2) (Str "obj") false false.

(** The message [{foo: "bar"}]. *)
Definition fooBar : gmap string value := {[ "foo" := Str "bar" ]}.

(** A BaseViewer and a StandardViewer constructed without options, once
    [initialize] has run. *)
Definition base : Base.BaseViewer :=
  {| Base.config := Base.DEFAULT_CONFIG;
     Base.vtk := true;
     Base.renderWindow := true;
     Base.renderer := Some [];
     Base.interactor := true;
     Base.openGLRenderWindow := true;
     Base.screenshotCapture := true;
     Base.axisIndicator := false;
     Base.fieldVisualization := true;
     Base.textureManager := false;
     Base.actors := [];
     Base.polyDatas := [];
     Base.currentFilename := Null;
     Base.isInitialized := true;
     Base.loadingOverlay := Some true;
     Base.infoOverlay := Some true;
     Base._messageCleanup := true;
     Base._resizeObserver := true;
     Base.inflight := ∅;
     Base.issued := 0%nat;
     Base.log := [Base.ConsoleLog "[BaseViewer] Initialized"] |}.

Definition standard : Standard.StandardViewer :=
  Standard.mkStandardViewer base Null (Str "erdc_rainbow_bright") [].

(** The sample DualViewer with [mesh1.obj] being loaded into viewport A,
    and with that load completed. *)
Definition loading : DualViewer :=
  set_issued 1
    (set_inflight {[ 0%nat := mkSuspended SlotA (Str "A") (Str "mesh1.obj") ]}
       viewer).

Definition loaded : DualViewer :=
  set_log [ConsoleLog "[DualViewer] Initialized";
           ConfigureActors SlotA [1%nat];
           Render SlotA;
           SendMeshLoaded (Str "A") (Str "mesh1.obj") (Str "obj") false false]
    (set_issued 1
       (set_viewportA
          (Some {| id := "A";
                   camera := mkCamera defaultPose [SyncCameraFrom SlotA];
                   scene := [1%nat];
                   actors := [1%nat];
                   polyData := Some dataset1;
                   filename := Str "mesh1.obj" |})
          viewer)).

(** The sample BaseViewer with [mesh1.obj] being loaded. *)
Definition baseLoading : Base.BaseViewer :=
  Base.set_log [Base.ConsoleLog "[BaseViewer] Initialized"; Base.ShowLoading true]
    (Base.set_issued 1
       (Base.set_inflight {[ 0%nat := Str "mesh1.obj" ]} base)).

End Sample.

(** ** Further observations on the viewers *)

Module DualView.

Import Js Vtk Dual.

(** The call [applyField] makes on the field visualization for viewport
    [s]: none unless the viewport holds a dataset and at least one actor. *)
Definition applied (s : slot) (fieldName range : value) (v : DualViewer)
  : list effect :=
  match viewport_of s v with
  | Some vp =>
      match polyData vp, actors vp with
      | Some _, _ :: _ => [FieldApplied s fieldName range]
      | _, _ => []
      end
  | None => []
  end.

(** [options.range], with [options] defaulting to the empty object;
    [None] is the [TypeError] of reading a property of [null]. *)
Definition givenRange (options : value) : option value :=
  member (match options with Undefined => Obj [] | o => o end) "range".

(** The renderer of a viewport shows exactly the actors the viewport
    lists. *)
Definition consistent (vp : Viewport) : Prop :=
  ∀ x, x ∈ scene vp ↔ x ∈ actors vp.

(** The notifications a DualViewer posts to the parent frame. *)
Definition hostMessage (e : effect) : bool :=
  match e with
  | SendMeshLoaded _ _ _ _ _ | SendError _ _ => true
  | _ => false
  end.

End DualView.

Module BaseView.

Import Js Vtk.

(** The calls [destroy] makes on observers and library handles that are
    still referenced: those before the scene is cleared, and those
    after. *)
Definition handleReleases (w : Base.BaseViewer)
  : list Base.effect * list Base.effect :=
  ((if Base._messageCleanup w then [Base.MessageCleanup] else []) ++
   (if Base._resizeObserver w then [Base.ResizeDisconnect] else []) ++
   (if Base.axisIndicator w then [Base.AxisIndicatorDestroy] else []),
   (if Base.interactor w then [Base.UnbindEvents] else []) ++
   (if Base.openGLRenderWindow w then [Base.DeleteOpenGLRenderWindow] else []) ++
   (if Base.renderWindow w then [Base.DeleteRenderWindow] else [])).

(** The overlay elements [destroy] takes out of the document. *)
Definition overlayRemovals (w : Base.BaseViewer) : list Base.effect :=
  match Base.loadingOverlay w with
  | Some true => [Base.RemoveOverlay "loading"]
  | _ => []
  end ++
  match Base.infoOverlay w with
  | Some true => [Base.RemoveOverlay "meshInfo"]
  | _ => []
  end.

(** The call that deletes the render window. *)
Definition deletion (e : Base.effect) : bool :=
  match e with
  | Base.DeleteRenderWindow => true
  | _ => false
  end.

(** [this.renderWindow.render()] returns: the render window has been
    created and [destroy], the only method that deletes it, has not run.
    The log holds every call the viewer has made. *)
Definition live (w : Base.BaseViewer) : Prop :=
  Base.renderWindow w = true ∧ existsb deletion (Base.log w) = false.

(** Calls on the rendering library and on the info overlay: neither the
    loading overlay nor the parent frame sees them. *)
Definition internal (e : Base.effect) : bool :=
  match e with
  | Base.TextureFixes _ | Base.EdgeVisibility _ | Base.ConfigureActors _
  | Base.PositionInitialCamera _ | Base.UpdateInfoOverlay _ => true
  | _ => false
  end.

(** What the loading overlay and the parent frame see of a viewer. *)
Definition trace (v : Base.BaseViewer)
  : list Base.effect * option bool * value :=
  (Base.log v, Base.loadingOverlay v, Base.currentFilename v).

(** From [v] to [v'] only internal calls were made. *)
Definition quietly (v v' : Base.BaseViewer) : Prop :=
  ∃ mid, Forall (fun e => internal e = true) mid ∧
         trace v' = (Base.log v ++ mid, Base.loadingOverlay v,
                     Base.currentFilename v).

End BaseView.

(** ** Combined bounds of the loaded actors *)

Module Bounds.

Import Vtk.

(** A JavaScript number as the bounds code meets it: an integer or one of
    the two infinities (rounding and NaN are outside the model). *)
Inductive num : Type :=
| NegInf
| Fin (z : Z)
| PosInf.

(** [a <= b] *)
Definition leb (a b : num) : bool :=
  match a, b with
  | NegInf, _ | _, PosInf => true
  | Fin x, Fin y => Z.leb x y
  | _, _ => false
  end.

(** [Math.min(a, b)] and [Math.max(a, b)] *)
Definition min (a b : num) : num := if leb a b then a else b.
Definition max (a b : num) : num := if leb a b then b else a.

(** The array [xmin, xmax, ymin, ymax, zmin, zmax] that [getBounds]
    returns. *)
Record Box : Type := mkBox {
  xmin : num; xmax : num;
  ymin : num; ymax : num;
  zmin : num; zmax : num
}.

(** One round of either loop: the six [Math.min]/[Math.max] calls. *)
Definition merge (b a : Box) : Box :=
  mkBox (min (xmin b) (xmin a)) (max (xmax b) (xmax a))
        (min (ymin b) (ymin a)) (max (ymax b) (ymax a))
        (min (zmin b) (zmin a)) (max (zmax b) (zmax a)).

Section Combine.

(** [actor.getBounds()] *)
Variable getBounds : actor -> Box.

(** The combined bounds [BaseViewer._setupCameraForMesh] computes: the
    bounds of the first actor, merged with those of the others in turn.
    [None] when there is no actor (the method returns before). *)
Definition combinedBounds (actors : list actor) : option Box :=
  match actors with
  | [] => None
  | a :: rest => Some (foldl (fun b x => merge b (getBounds x)) (getBounds a) rest)
  end.

(** The bounds [BaseViewer.setCameraView] hands to the camera controller:
    those of the first actor. *)
Definition viewBounds (actors : list actor) : option Box :=
  match actors with
  | [] => None
  | a :: _ => Some (getBounds a)
  end.

(** The combined bounds [loadGLTF] returns: [null] without actors,
    otherwise the merge of all actors' bounds into
    [[Infinity, -Infinity, Infinity, -Infinity, Infinity, -Infinity]]. *)
Definition gltfBounds (actors : list actor) : option Box :=
  match actors with
  | [] => None
  | _ :: _ =>
      Some (foldl (fun b x => merge b (getBounds x))
              (mkBox PosInf NegInf PosInf NegInf PosInf NegInf) actors)
  end.

End Combine.

(** Box [a] lies within box [b]. *)
Definition within (a b : Box) : Prop :=
  leb (xmin b) (xmin a) = true ∧ leb (xmax a) (xmax b) = true ∧
  leb (ymin b) (ymin a) = true ∧ leb (ymax a) (ymax b) = true ∧
  leb (zmin b) (zmin a) = true ∧ leb (zmax a) (zmax b) = true.

End Bounds.

(** ** URL construction ([web/js/utils/path_utils.js]) *)

Module PathUtils.

(** The string methods the module calls, on strings of characters:
    [s.startsWith(p)], [s.indexOf(sub)] (with [None] for [-1]),
    [s.endsWith(suf)], [s.slice(0, -1)] and [s.slice(1)]. *)
Definition startsWith (s p : string) : bool := String.prefix p s.

Definition indexOf (s sub : string) : option nat := String.index 0 sub s.

Definition endsWith (s suf : string) : bool :=
  (String.length suf <=? String.length s)%nat &&
  String.eqb
    (String.substring (String.length s - String.length suf)
       (String.length suf) s) suf.

Definition dropLast (s : string) : string :=
  String.substring 0 (String.length s - 1) s.

Definition dropFirst (s : string) : string :=
  String.substring 1 (String.length s - 1) s.

(** What the module reads from its surroundings: the first capture group
    of each of its two regular expressions on [import.meta.url] ([None]
    when the expression does not match) and [window.location.pathname]. *)
Record Env : Type := mkEnv {
  baseMatch : option string;
  folderMatch : option string;
  pathname : string
}.

Definition EXTENSION_FOLDER (env : Env) : string :=
  match folderMatch env with
  | Some m => m
  | None => "ComfyUI-GeometryPack"
  end.

(** [getBasePathForHTML()] *)
Definition getBasePathForHTML (env : Env) : string :=
  match indexOf (pathname env) "/extensions/" with
  | Some (S i) => String.substring 0 (S i) (pathname env)
  | _ =>
      if negb (String.eqb (pathname env) "")
         && negb (String.eqb (pathname env) "/")
         && endsWith (pathname env) "/"
      then dropLast (pathname env)
      else ""
  end.

(** [getBasePath()] *)
Definition getBasePath (env : Env) : string :=
  match baseMatch env with
  | Some m => if String.eqb m "" then getBasePathForHTML env else m
  | None => getBasePathForHTML env
  end.

(** [getViewerUrl(viewerName, addCacheBuster)]; [now] is the text of
    [Date.now()]. *)
Definition getViewerUrl (env : Env) (now : string) (viewerName : string)
  (addCacheBuster : bool) : string :=
  let url := getBasePath env +:+ "/extensions/" +:+ EXTENSION_FOLDER env
             +:+ "/" +:+ viewerName in
  if addCacheBuster then url +:+ "?v=" +:+ now else url.

(** [getApiUrl(endpoint)] *)
Definition getApiUrl (env : Env) (endpoint : string) : string :=
  let normalizedEndpoint :=
    if startsWith endpoint "/" then endpoint else "/" +:+ endpoint in
  getBasePath env +:+ normalizedEndpoint.

(** [getExtensionAssetUrl(assetPath)] *)
Definition getExtensionAssetUrl (env : Env) (assetPath : string) : string :=
  let normalizedPath :=
    if startsWith assetPath "/" then dropFirst assetPath else assetPath in
  getBasePath env +:+ "/extensions/" +:+ EXTENSION_FOLDER env +:+ "/"
  +:+ normalizedPath.

End PathUtils.

(** ** The glTF loader's file test *)

Module GLTF.

(** [String.prototype.toLowerCase] on the letters A to Z; other characters
    are left as they are. *)
Definition lowerChar (c : Ascii.ascii) : Ascii.ascii :=
  let n := Ascii.nat_of_ascii c in
  if (65 <=? n)%nat && (n <=? 90)%nat then Ascii.ascii_of_nat (n + 32) else c.

Fixpoint toLowerCase (s : string) : string :=
  match s with
  | EmptyString => EmptyString
  | String c s' => String (lowerChar c) (toLowerCase s')
  end.

(** [s.includes(sub)] *)
Definition includes (s sub : string) : bool :=
  match String.index 0 sub s with
  | Some _ => true
  | None => false
  end.

(** [canLoadGLTF(filepath)] *)
Definition canLoadGLTF (filepath : string) : bool :=
  let lower := toLowerCase filepath in
  includes lower ".glb" || includes lower ".gltf".

End GLTF.

(** ** Hiding and showing the widgets of a node *)

Module Widgets.

Import Js.

(** A widget object, as far as the scripts read and write it.  Widgets are
    objects with identity: a node lists them by reference, here by a
    number, and [objects] gives the object behind each reference.
    [_hidden] is [false] while the property is undefined; [_originalIndex]
    is [None] while it is undefined; [linkedWidgets] is empty while it is
    undefined. *)
Record Widget : Type := mkWidget {
  name : string;
  type : value;
  computeSize : value;
  serializeValue : value;
  origType : value;
  origComputeSize : value;
  origSerializeValue : value;
  _hidden : bool;
  _originalIndex : option nat;
  linkedWidgets : list nat
}.

Record Node : Type := mkNode {
  widgets : list nat;
  objects : nat -> Widget
}.

(** [array.indexOf(x)], with [None] for [-1]. *)
Fixpoint indexOf (l : list nat) (x : nat) : option nat :=
  match l with
  | [] => None
  | y :: l' => if decide (y = x) then Some 0%nat else S <$> indexOf l' x
  end.

(** [array.splice(index, 0, x)] for [index] within the array. *)
Definition insertAt (index : nat) (x : nat) (l : list nat) : list nat :=
  take index l ++ x :: drop index l.

(** "Store original properties only once". *)
Definition remember (o : Widget) : Widget :=
  if truthy (origType o) then o else
  mkWidget (name o) (type o) (computeSize o) (serializeValue o)
    (type o) (computeSize o) (serializeValue o)
    (_hidden o) (_originalIndex o) (linkedWidgets o).

(** "Restore original properties". *)
Definition restore (o : Widget) : Widget :=
  if truthy (origType o) then
    mkWidget (name o) (origType o) (origComputeSize o)
      (if truthy (origSerializeValue o) then origSerializeValue o
       else serializeValue o)
      (origType o) (origComputeSize o) (origSerializeValue o)
      (_hidden o) (_originalIndex o) (linkedWidgets o)
  else o.

Definition set_hidden (h : bool) (i : option nat) (o : Widget) : Widget :=
  mkWidget (name o) (type o) (computeSize o) (serializeValue o)
    (origType o) (origComputeSize o) (origSerializeValue o)
    h i (linkedWidgets o).

(** An assignment to properties of the object behind the reference [w]. *)
Definition update (w : nat) (o : Widget) (objs : nat -> Widget)
  : nat -> Widget :=
  fun x => if decide (x = w) then o else objs x.

(** [ws.forEach(w => f(node, w))] *)
Definition each {W : Type} (f : W -> Node -> outcome Node Node) (ws : list W)
  (node : Node) : outcome Node Node :=
  foldl (fun r w => node ← r; f w node) (Done node) ws.

(** [hideWidget(node, widget)]; [None] is a widget that was not found.
    The calls on linked widgets nest; [fuel] bounds the depth of that
    nesting.  Console output is not recorded. *)
Fixpoint hideWidget (fuel : nat) (widget : option nat) (node : Node)
  : outcome Node Node :=
  match fuel with
  | O => OutOfFuel
  | S fuel' =>
      match widget with
      | None => Done node
      | Some w =>
          let o := objects node w in
          if _hidden o then Done node else
          match indexOf (widgets node) w with
          | None => Done node
          | Some index =>
              let o := set_hidden true (Some index) (remember o) in
              let node := mkNode (delete index (widgets node))
                            (update w o (objects node)) in
              each (fun l => hideWidget fuel' (Some l)) (linkedWidgets o) node
          end
      end
  end.

(** [showWidget(node, widget)].  [Math.min] of an undefined
    [_originalIndex] is [NaN], which [splice] reads as [0]. *)
Fixpoint showWidget (fuel : nat) (widget : option nat) (node : Node)
  : outcome Node Node :=
  match fuel with
  | O => OutOfFuel
  | S fuel' =>
      match widget with
      | None => Done node
      | Some w =>
          let o := objects node w in
          if negb (_hidden o) then Done node else
          let o := restore o in
          let insertIndex :=
            match _originalIndex o with
            | Some i => i `min` length (widgets node)
            | None => 0
            end%nat in
          let node := mkNode (insertAt insertIndex w (widgets node))
                        (update w (set_hidden false (_originalIndex o) o)
                           (objects node)) in
          each (fun l => showWidget fuel' (Some l)) (linkedWidgets o) node
      end
  end.

(** [node.widgets?.find(w => w.name === n)] *)
Definition find (node : Node) (n : string) : option nat :=
  snd <$> list_find (fun w => name (objects node w) = n) (widgets node).

(** The parameter widgets of the Transform Mesh node, in the order
    [updateWidgetVisibility] hides them. *)
Definition parameters : list string :=
  ["translate_x"; "translate_y"; "translate_z";
   "rotate_x"; "rotate_y"; "rotate_z";
   "scale_uniform"; "scale_x"; "scale_y"; "scale_z";
   "mirror_axis";
   "center_x"; "center_y"; "center_z";
   "matrix_string"].

(** The parameters [updateWidgetVisibility] shows for an operation, in the
    order it shows them. *)
Definition selected (selectedOperation : value) : list string :=
  if is_str selectedOperation "translate" then
    ["translate_x"; "translate_y"; "translate_z"]
  else if is_str selectedOperation "rotate" then
    ["rotate_x"; "rotate_y"; "rotate_z"]
  else if is_str selectedOperation "scale" then
    ["scale_uniform"; "scale_x"; "scale_y"; "scale_z"]
  else if is_str selectedOperation "mirror" then
    ["mirror_axis"]
  else if is_str selectedOperation "center" then
    ["center_x"; "center_y"; "center_z"]
  else if is_str selectedOperation "align_to_axes" then
    []
  else if is_str selectedOperation "apply_matrix" then
    ["matrix_string"]
  else [].

(** The closure [updateWidgetVisibility] of [setupTransformNode];
    [captured] gives the widget the closure holds for each parameter name
    ([None] when [find] found none).  Redrawing the canvas
    ([updateNodeSize]) is not recorded. *)
Definition updateWidgetVisibility (fuel : nat) (captured : string -> option nat)
  (selectedOperation : value) (node : Node) : outcome Node Node :=
  node ← each (hideWidget fuel) (captured <$> parameters) node;
  each (showWidget fuel) (captured <$> selected selectedOperation) node.

(** A widget the scripts manage on their own terms: it has no linked
    widgets, and it is listed by the node exactly while it is not marked
    hidden. *)
Definition tracked (node : Node) (w : nat) : Prop :=
  linkedWidgets (objects node w) = [] ∧
  (w ∈ widgets node ↔ _hidden (objects node w) = false).

End Widgets.

(** ** Handle names of the image cropping widget *)

Module Cropping.

Import Stdlib.Strings.Ascii.

(** [AXES.indexOf(l) - 1] for [AXES = ['-', '=', '+']]. *)
Definition axisOf (l : Ascii.ascii) : Z :=
  if Ascii.eqb l "-"%char then -1
  else if Ascii.eqb l "="%char then 0
  else if Ascii.eqb l "+"%char then 1
  else -2.

(** The product of two numbers either of which may be [undefined] (a
    name shorter than three characters) or [NaN]: [None] is [NaN]. *)
Definition times (a b : option Z) : option Z :=
  match a, b with
  | Some x, Some y => Some (x * y)
  | _, _ => None
  end.

(** [x !== 0] *)
Definition nonzero (x : option Z) : bool :=
  match x with
  | Some z => negb (Z.eqb z 0)
  | None => true
  end.

(** [handleTypeFromName(name)] of the image cropping widget. *)
Definition handleTypeFromName (name : string) : string :=
  let axes := axisOf <$> String.list_ascii_of_string name in
  let i := axes !! 0%nat in
  let j := axes !! 1%nat in
  let k := axes !! 2%nat in
  if nonzero (times (times i j) k) then "corners"
  else if nonzero (times i j) || nonzero (times j k) || nonzero (times k i)
  then "edges"
  else "faces".

(** How many of the characters are ['=']. *)
Definition centred (l : list Ascii.ascii) : nat :=
  length (filter (fun c => c = "="%char) l).

End Cropping.

(** ** Further sample inputs *)

Module Cases.

Import Js Vtk Dual Sample.

(** Collaborators that put every camera they position at [rotated]. *)
Definition X1 : Externals :=
  mkExternals (fun u => u) (fun _ => Some rotated) (fun _ _ => rotated) false.

(** The sample DualViewer with [mesh1.obj] in viewport A and [mesh2.obj]
    in viewport B. *)
Definition bothLoaded : DualViewer :=
  set_viewportB
    (Some {| id := "B";
             camera := mkCamera defaultPose [SyncCameraFrom SlotB];
             scene := [2%nat];
             actors := [2%nat];
             polyData := Some dataset2;
             filename := Str "mesh2.obj" |})
    loaded.

(** The messages [{type: "screenshot"}],
    [{type: "loadMesh", viewport: "B", url: "mesh2.obj"}] and
    [{type: "loadMesh"}]. *)
Definition shot : gmap string value := {[ "type" := Str "screenshot" ]}.

Definition loadB : gmap string value :=
  list_to_map [("type", Str "loadMesh"); ("viewport", Str "B");
               ("url", Str "mesh2.obj")].

Definition loadNoUrl : gmap string value := {[ "type" := Str "loadMesh" ]}.

(** The message [{type: "setLayout", layout: {toString: 1}}]. *)
Definition oddLayout : gmap string value :=
  list_to_map [("type", Str "setLayout");
               ("layout", Obj [("toString", Num 1)])].

(** The options [{range: [0, 1]}]. *)
Definition unitRange : value := Obj [("range", Arr [Num 0; Num 1])].

(** The sample StandardViewer holding [mesh1.obj]. *)
Definition standardLoaded : Standard.StandardViewer :=
  Standard.mkStandardViewer
    (Base.set_polyDatas [dataset1] (Base.set_actors [1%nat] base))
    Null (Str "erdc_rainbow_bright") [].

(** Bounds for the examples: actor [1] fills the unit cube, every other
    actor the cube from [-1] to [3]. *)
Definition boxes (a : actor) : Bounds.Box :=
  match a with
  | 1%nat => Bounds.mkBox (Bounds.Fin 0) (Bounds.Fin 1) (Bounds.Fin 0)
               (Bounds.Fin 1) (Bounds.Fin 0) (Bounds.Fin 1)
  | _ => Bounds.mkBox (Bounds.Fin (-1)) (Bounds.Fin 3) (Bounds.Fin (-1))
           (Bounds.Fin 3) (Bounds.Fin (-1)) (Bounds.Fin 3)
  end.

(** A deployment under [/dev/sd-comfyui]: the page that loads the scripts,
    and the viewer page inside its frame. *)
Definition parent : PathUtils.Env :=
  PathUtils.mkEnv (Some "/dev/sd-comfyui") (Some "ComfyUI-GeometryPack")
    "/dev/sd-comfyui/".

Definition page : PathUtils.Env :=
  PathUtils.mkEnv None None
    "/dev/sd-comfyui/extensions/ComfyUI-GeometryPack/viewer_vtk.html".

(** A Transform Mesh node as it is created: the operation selector
    followed by the fifteen parameter widgets, none hidden, none linked. *)
Definition transformNode : Widgets.Node :=
  Widgets.mkNode (seq 0 16)
    (fun w =>
       Widgets.mkWidget (nth w ("operation" :: Widgets.parameters) "")
         (Str "number") Undefined Undefined Undefined Undefined Undefined
         false None []).

(** Two widgets linked to each other. *)
Definition linkedNode : Widgets.Node :=
  Widgets.mkNode [0%nat; 1%nat]
    (fun w =>
       Widgets.mkWidget "w" (Str "number") Undefined Undefined Undefined
         Undefined Undefined false None
         (match w with 0%nat => [1%nat] | _ => [0%nat] end)).

(** The same two widgets, both hidden from index [0]; no other widget is
    hidden. *)
Definition hiddenPair : Widgets.Node :=
  Widgets.mkNode []
    (fun w =>
       Widgets.mkWidget "w" (Str "number") Undefined Undefined Undefined
         Undefined Undefined (bool_decide (w < 2)%nat) (Some 0%nat)
         (match w with 0%nat => [1%nat] | _ => [0%nat] end)).

End Cases.

(** * Properties *)

(** ** The synchronized range *)

Section FieldRange.

Import Vtk FieldVisualization.

Lemma foldl_union_spans (rs : list range) (r : range) :
  spans (r :: rs) (foldl union r rs).
Proof.
  revert r. induction rs as [|x rs IH]; intros r.
  - repeat split; simpl; try apply list_elem_of_singleton; try done;
      intros ? ->%list_elem_of_singleton; lia.
  - simpl. destruct (IH (union r x)) as [[Hin Hle] [Hin' Hge]].
    simpl in Hin, Hle, Hin', Hge.
    assert (∀ y, y ∈ rs.*1 → (foldl union (union r x) rs).1 ≤ y) as Hle'.
    { intros y Hy. apply Hle. by right. }
    assert (∀ y, y ∈ rs.*2 → y ≤ (foldl union (union r x) rs).2) as Hge'.
    { intros y Hy. apply Hge. by right. }
    pose proof (Hle _ (list_elem_of_here _ _)) as Hlo.
    pose proof (Hge _ (list_elem_of_here _ _)) as Hhi.
    repeat split; simpl.
    + apply elem_of_cons in Hin as [->|Hin].
      * destruct (Z.min_spec r.1 x.1) as [[_ ->]|[_ ->]];
          rewrite !elem_of_cons; auto.
      * rewrite !elem_of_cons; auto.
    + intros y Hy.
      apply elem_of_cons in Hy as [->|Hy]; [lia|].
      apply elem_of_cons in Hy as [->|Hy]; [lia|auto].
    + apply elem_of_cons in Hin' as [->|Hin'].
      * destruct (Z.max_spec r.2 x.2) as [[_ ->]|[_ ->]];
          rewrite !elem_of_cons; auto.
      * rewrite !elem_of_cons; auto.
    + intros y Hy.
      apply elem_of_cons in Hy as [->|Hy]; [lia|].
      apply elem_of_cons in Hy as [->|Hy]; [lia|auto].
Qed.

Lemma spans_unique (rs rs' : list range) (r r' : range) :
  rs ≡ₚ rs' → spans rs r → spans rs' r' → r = r'.
Proof.
  intros Hp [[Hin Hle] [Hin' Hge]] [[Kin Kle] [Kin' Kge]].
  assert (r.1 = r'.1) as H1.
  { apply Z.le_antisymm.
    - apply Hle. by rewrite Hp.
    - apply Kle. by rewrite <- Hp. }
  assert (r.2 = r'.2) as H2.
  { apply Z.le_antisymm.
    - apply Kge. by rewrite <- Hp.
    - apply Hge. by rewrite Hp. }
  destruct r, r'; simpl in *; congruence.
Qed.

Lemma calculateSynchronizedRange_perm (l l' : list PolyData) (f : string) :
  l ≡ₚ l' →
  calculateSynchronizedRange l f = calculateSynchronizedRange l' f.
Proof.
  intros Hp. unfold calculateSynchronizedRange.
  assert (nativeRanges l f ≡ₚ nativeRanges l' f) as Hn.
  { unfold nativeRanges. by rewrite Hp. }
  destruct (nativeRanges l f) as [|r rs] eqn:E;
    destruct (nativeRanges l' f) as [|r' rs'] eqn:E'.
  - done.
  - by apply Permutation_nil_cons in Hn.
  - symmetry in Hn. by apply Permutation_nil_cons in Hn.
  - f_equal. eapply spans_unique; [exact Hn|apply foldl_union_spans..].
Qed.

Lemma nativeRanges_lacking (l : list PolyData) (f : string) :
  Forall (fun d => ranges d !! f = None) l → nativeRanges l f = [].
Proof.
  induction 1 as [|d l Hd _ IH]; [done|].
  unfold nativeRanges in *. cbn [omap list_omap]. by rewrite Hd.
Qed.

(** C3: [calculateSynchronizedRange] does not depend on the order of its
    dataset list; for two datasets whose attribute has the ranges [a0, a1]
    and [b0, b1] it returns [min a0 b0, max a1 b1]; and when exactly one
    dataset of the list has the attribute it returns that dataset's own
    range unchanged. *)
Theorem calculateSynchronizedRange_union
  (l l' before after : list PolyData) (d1 d2 : PolyData) (f : string)
  (a0 a1 b0 b1 : Z) :
  l ≡ₚ l' →
  ranges d1 !! f = Some (a0, a1) →
  ranges d2 !! f = Some (b0, b1) →
  Forall (fun d => ranges d !! f = None) (before ++ after) →
  calculateSynchronizedRange l f = calculateSynchronizedRange l' f ∧
  calculateSynchronizedRange [d1; d2] f = inr (Z.min a0 b0, Z.max a1 b1) ∧
  calculateSynchronizedRange [d2; d1] f = inr (Z.min a0 b0, Z.max a1 b1) ∧
  calculateSynchronizedRange (before ++ d1 :: after) f = inr (a0, a1).
Proof.
  intros Hp H1 H2 Hnone. split; [by apply calculateSynchronizedRange_perm|].
  assert (calculateSynchronizedRange [d1; d2] f
          = inr (Z.min a0 b0, Z.max a1 b1)) as H12.
  { unfold calculateSynchronizedRange, nativeRanges. cbn [omap list_omap].
    by rewrite H1, H2. }
  split; [exact H12|]. split.
  - rewrite <- H12. apply calculateSynchronizedRange_perm. apply perm_swap.
  - apply Forall_app in Hnone as [Hb Ha].
    unfold calculateSynchronizedRange.
    assert (nativeRanges (before ++ d1 :: after) f = [(a0, a1)]) as ->; [|done].
    unfold nativeRanges. rewrite omap_app. cbn [omap list_omap]. rewrite H1.
    fold (nativeRanges before f). fold (nativeRanges after f).
    by rewrite !nativeRanges_lacking.
Qed.

End FieldRange.

(** ** Camera synchronization *)

Section CameraSync.

Import Js Vtk Dual.

Variable X : Externals.

(** The sample DualViewers are the ones construction and [initialize]
    give. *)
Lemma viewer_initialized : initialize true (new ∅) = Done Sample.viewer.
Proof. vm_compute. reflexivity. Qed.

Lemma unsynced_initialized :
  initialize true (new {[ "syncCameras" := Bool false ]})
  = Done Sample.unsynced.
Proof. vm_compute. reflexivity. Qed.

Lemma bind_done {St A B : Type} (a : A) (k : A → outcome St B) :
  (Done a ≫= k) = k a.
Proof. reflexivity. Qed.

(** With the reentrancy guard set, a subscribed closure returns at once. *)
Lemma onModified_guarded (notify : notifier) (cb : callback) (v : DualViewer) :
  _isUpdatingCamera v = true → onModified X notify cb v = Done v.
Proof.
  intros Hg. destruct cb as [source]. unfold onModified, syncCamera.
  rewrite Hg. by destruct (truthy (syncCameras v)).
Qed.

Lemma run_callbacks_cons (notify : notifier) (cb : callback)
  (cbs : list callback) (v : DualViewer) :
  run_callbacks X notify (cb :: cbs) v
  = onModified X notify cb v ≫= run_callbacks X notify cbs.
Proof.
  unfold run_callbacks. simpl.
  destruct (onModified X notify cb v) as [v'| e v'|]; simpl; [done|..];
    induction cbs; simpl; auto.
Qed.

Lemma run_callbacks_guarded (notify : notifier) (cbs : list callback)
  (v : DualViewer) :
  _isUpdatingCamera v = true → run_callbacks X notify cbs v = Done v.
Proof.
  intros Hg. induction cbs as [|cb cbs IH]; [done|].
  by rewrite run_callbacks_cons, onModified_guarded.
Qed.

Lemma modified_quiet (fuel : nat) : quiet (modified X (S fuel)).
Proof.
  intros s v Hg [vp Hvp]. simpl. rewrite Hvp. by apply run_callbacks_guarded.
Qed.

(** Under the guard a setter stores its value and nothing else happens,
    whether or not it notifies. *)
Lemma camera_set_guarded (notify : notifier) (s : slot) (upd : Pose → Pose)
  (v : DualViewer) (vp : Viewport) :
  quiet notify →
  _isUpdatingCamera v = true → viewport_of s v = Some vp →
  camera_set X notify s upd v
  = Done (record (CameraSet s (upd (pose (camera vp))))
            (set_viewport s (set_pose (upd (pose (camera vp))) vp) v)).
Proof.
  intros Hq Hg Hvp. unfold camera_set. rewrite Hvp.
  destruct (eager_notify X || _); [|done].
  apply Hq.
  - by destruct v, s.
  - destruct v, s; simpl; eauto.
Qed.

Lemma pose_eta (p : Pose) :
  mkPose (position p) (focalPoint p) (viewUp p) (parallelScale p) = p.
Proof. by destruct p. Qed.

(** How the observations see through the assignments. *)
Lemma viewport_of_record (s : slot) (e : effect) (v : DualViewer) :
  viewport_of s (record e v) = viewport_of s v.
Proof. by destruct s. Qed.

Lemma viewport_of_set_guard (s : slot) (g : bool) (v : DualViewer) :
  viewport_of s (set_isUpdatingCamera g v) = viewport_of s v.
Proof. by destruct s. Qed.

Lemma viewport_of_set_same (s : slot) (vp : Viewport) (v : DualViewer) :
  viewport_of s (set_viewport s vp v) = Some vp.
Proof. by destruct s. Qed.

Lemma viewport_of_set_other (s : slot) (vp : Viewport) (v : DualViewer) :
  viewport_of s (set_viewport (other s) vp v) = viewport_of s v.
Proof. by destruct s. Qed.

Lemma viewport_of_other_set (s : slot) (vp : Viewport) (v : DualViewer) :
  viewport_of (other s) (set_viewport s vp v) = viewport_of (other s) v.
Proof. by destruct s. Qed.

Lemma guard_record (e : effect) (v : DualViewer) :
  _isUpdatingCamera (record e v) = _isUpdatingCamera v.
Proof. done. Qed.

Lemma guard_set_viewport (s : slot) (vp : Viewport) (v : DualViewer) :
  _isUpdatingCamera (set_viewport s vp v) = _isUpdatingCamera v.
Proof. by destruct s. Qed.

Lemma guard_set_guard (g : bool) (v : DualViewer) :
  _isUpdatingCamera (set_isUpdatingCamera g v) = g.
Proof. done. Qed.

Lemma log_record (e : effect) (v : DualViewer) :
  log (record e v) = log v ++ [e].
Proof. done. Qed.

Lemma log_set_viewport (s : slot) (vp : Viewport) (v : DualViewer) :
  log (set_viewport s vp v) = log v.
Proof. by destruct s. Qed.

Lemma log_set_guard (g : bool) (v : DualViewer) :
  log (set_isUpdatingCamera g v) = log v.
Proof. done. Qed.

Lemma frame_record (e : effect) (v : DualViewer) :
  frame (record e v) = frame v.
Proof. done. Qed.

Lemma frame_set_guard (g : bool) (v : DualViewer) :
  frame (set_isUpdatingCamera g v) = frame v.
Proof. done. Qed.

Lemma frame_over_pose (s : slot) (p : Pose) (vp : Viewport) (v : DualViewer) :
  frame (set_viewport s (set_pose p vp) v) = frame (set_viewport s vp v).
Proof. by destruct s. Qed.

Lemma frame_over_record (s : slot) (vp : Viewport) (e : effect)
  (v : DualViewer) :
  frame (set_viewport s vp (record e v)) = frame (set_viewport s vp v).
Proof. by destruct s. Qed.

Lemma frame_over_guard (s : slot) (vp : Viewport) (g : bool)
  (v : DualViewer) :
  frame (set_viewport s vp (set_isUpdatingCamera g v))
  = frame (set_viewport s vp v).
Proof. by destruct s. Qed.

Lemma frame_over_viewport (s : slot) (vp vp' : Viewport) (v : DualViewer) :
  frame (set_viewport s vp (set_viewport s vp' v))
  = frame (set_viewport s vp v).
Proof. by destruct s. Qed.

Lemma frame_set_viewport_id (s : slot) (vp : Viewport) (v : DualViewer) :
  viewport_of s v = Some vp → frame (set_viewport s vp v) = frame v.
Proof.
  intros H. destruct v, s; simpl in H; subst; reflexivity.
Qed.

Lemma set_pose_set_pose (p q : Pose) (vp : Viewport) :
  set_pose p (set_pose q vp) = set_pose p vp.
Proof. done. Qed.

Lemma pose_set_pose (p : Pose) (vp : Viewport) :
  pose (camera (set_pose p vp)) = p.
Proof. done. Qed.

Create Rewrite HintDb dual.
#[local] Hint Rewrite viewport_of_record viewport_of_set_guard viewport_of_set_same
  viewport_of_set_other viewport_of_other_set guard_record
  guard_set_viewport guard_set_guard log_record log_set_viewport
  log_set_guard frame_record frame_set_guard frame_over_pose
  frame_over_record frame_over_guard frame_over_viewport set_pose_set_pose
  pose_set_pose : dual.

Lemma camera_get_some {T : Type} (s : slot) (get : Pose → T)
  (v : DualViewer) (vp : Viewport) :
  viewport_of s v = Some vp →
  camera_get s get v = Done (get (pose (camera vp))).
Proof. intros H. unfold camera_get. by rewrite H. Qed.

(** One step of [syncCamera]: read a component of the source pose, store
    it in the target camera. *)
Lemma copy_step {T : Type} (notify : notifier) (src : slot)
  (get : Pose → T) (put : Pose → T → Pose) (v : DualViewer)
  (vs vt : Viewport) (k : DualViewer → call) :
  quiet notify →
  _isUpdatingCamera v = true →
  viewport_of src v = Some vs →
  viewport_of (other src) v = Some vt →
  (x ← camera_get src get v;
   v' ← camera_set X notify (other src) (fun p => put p x) v;
   k v')
  = k (record (CameraSet (other src)
                 (put (pose (camera vt)) (get (pose (camera vs)))))
         (set_viewport (other src)
            (set_pose (put (pose (camera vt)) (get (pose (camera vs)))) vt)
            v)).
Proof.
  intros Hq Hg Hs Ht.
  rewrite (camera_get_some src get v vs Hs), bind_done.
  by rewrite (camera_set_guarded notify (other src) _ v vt Hq Hg Ht), bind_done.
Qed.

(** One run of [syncCamera] past the guard: four setter calls on the
    target camera, one render of the target, the guard cleared again. *)
Lemma syncCamera_copies (notify : notifier) (src : slot) (v : DualViewer)
  (vs vt : Viewport) :
  quiet notify →
  _isUpdatingCamera v = false →
  viewport_of src v = Some vs →
  viewport_of (other src) v = Some vt →
  ∃ v',
    syncCamera X notify src (other src) v = Done v' ∧
    viewport_of src v' = Some vs ∧
    viewport_of (other src) v' = Some (set_pose (pose (camera vs)) vt) ∧
    log v' = log v ++
      [CameraSet (other src)
         (set_position (pose (camera vt)) (position (pose (camera vs))));
       CameraSet (other src)
         (set_focalPoint
            (set_position (pose (camera vt)) (position (pose (camera vs))))
            (focalPoint (pose (camera vs))));
       CameraSet (other src)
         (mkPose (position (pose (camera vs))) (focalPoint (pose (camera vs)))
            (viewUp (pose (camera vs))) (parallelScale (pose (camera vt))));
       CameraSet (other src) (pose (camera vs));
       Render (other src)] ∧
    _isUpdatingCamera v' = false ∧
    frame v' = frame v.
Proof.
  intros Hq Hg Hs Ht. unfold syncCamera. rewrite Hg.
  erewrite (copy_step notify src position set_position);
    [|done|by autorewrite with dual..].
  erewrite (copy_step notify src focalPoint set_focalPoint);
    [|done|by autorewrite with dual..].
  erewrite (copy_step notify src viewUp set_viewUp);
    [|done|by autorewrite with dual..].
  erewrite (copy_step notify src parallelScale set_parallelScale);
    [|done|by autorewrite with dual..].
  eexists. split; [reflexivity|].
  autorewrite with dual.
  unfold set_parallelScale, set_viewUp, set_focalPoint, set_position.
  cbn [position focalPoint viewUp parallelScale].
  rewrite pose_eta, <- !app_assoc.
  repeat split; [done..|].
  by apply frame_set_viewport_id.
Qed.

Lemma frame_ready (v v' : DualViewer) :
  frame v' = frame v → ready v → ready v'.
Proof.
  intros Hf Hr s. specialize (Hr s).
  destruct v as [? ? va vb ? ? ? ? ? ? ? ? ? ? ?].
  destruct v' as [? ? va' vb' ? ? ? ? ? ? ? ? ? ? ?].
  injection Hf as _ _ Ha Hb _ _ _ _ _ _ _ _ _.
  destruct s; simpl in *.
  - destruct va, va'; simpl in *; by eauto || by destruct Hr.
  - destruct vb, vb'; simpl in *; by eauto || by destruct Hr.
Qed.

(** Whatever closures are subscribed, running them changes poses, the log
    and nothing else, and returns with the guard as it found it. *)
Lemma run_callbacks_frame (notify : notifier) (cbs : list callback)
  (v : DualViewer) :
  quiet notify → ready v →
  ∃ v', run_callbacks X notify cbs v = Done v' ∧
        frame v' = frame v ∧ _isUpdatingCamera v' = _isUpdatingCamera v.
Proof.
  intros Hq. revert v. induction cbs as [|[src] cbs IH]; intros v Hr.
  - by exists v.
  - rewrite run_callbacks_cons. unfold onModified.
    destruct (truthy (syncCameras v)); [|by apply IH].
    destruct (_isUpdatingCamera v) eqn:Hg.
    + unfold syncCamera. rewrite Hg. rewrite bind_done. rewrite <- Hg. by apply IH.
    + destruct (Hr src) as [vs Hs]. destruct (Hr (other src)) as [vt Ht].
      destruct (syncCamera_copies notify src v vs vt Hq Hg Hs Ht)
        as (v1 & -> & _ & _ & _ & Hg1 & Hf1).
      rewrite bind_done.
      destruct (IH v1 (frame_ready _ _ Hf1 Hr)) as (v2 & -> & Hf2 & Hg2).
      exists v2. split; [done|]. split; congruence.
Qed.

Lemma modified_frame (fuel : nat) (s : slot) (v : DualViewer) :
  ready v →
  ∃ v', modified X (S (S fuel)) s v = Done v' ∧
        frame v' = frame v ∧ _isUpdatingCamera v' = _isUpdatingCamera v.
Proof.
  intros Hr. destruct (Hr s) as [vp Hvp].
  change (modified X (S (S fuel)) s v)
    with (match viewport_of s v with
          | None => Raised TypeError v
          | Some vp =>
              run_callbacks X (modified X (S fuel)) (observers (camera vp)) v
          end).
  rewrite Hvp. apply run_callbacks_frame; [apply modified_quiet|done].
Qed.

Lemma ready_set_viewport (s : slot) (vp : Viewport) (v : DualViewer) :
  ready v → ready (set_viewport s vp v).
Proof.
  intros Hr t. specialize (Hr t). destruct s, t; simpl in *; eauto.
Qed.

(** A pose change from outside always returns, whatever is subscribed, and
    touches poses and the log only. *)
Lemma poseChange_frame (fuel : nat) (s : slot) (p : Pose) (v : DualViewer) :
  ready v →
  ∃ v', poseChange X (S (S fuel)) s p v = Done v' ∧
        frame v' = frame v ∧ _isUpdatingCamera v' = _isUpdatingCamera v.
Proof.
  intros Hr. destruct (Hr s) as [vp Hvp]. unfold poseChange. rewrite Hvp.
  destruct (modified_frame fuel s (set_viewport s (set_pose p vp) v))
    as (v' & Hv' & Hf & Hg); [by apply ready_set_viewport|].
  exists v'. split; [done|]. split.
  - rewrite Hf. autorewrite with dual. by apply frame_set_viewport_id.
  - rewrite Hg. by autorewrite with dual.
Qed.

(** With sync switched off no closure does anything. *)
Lemma run_callbacks_unsynced (notify : notifier) (cbs : list callback)
  (v : DualViewer) :
  truthy (syncCameras v) = false → run_callbacks X notify cbs v = Done v.
Proof.
  intros Hs. induction cbs as [|[src] cbs IH]; [done|].
  rewrite run_callbacks_cons. unfold onModified. by rewrite Hs.
Qed.

Lemma syncCameras_set_viewport (s : slot) (vp : Viewport) (v : DualViewer) :
  syncCameras (set_viewport s vp v) = syncCameras v.
Proof. by destruct s. Qed.

Lemma poseChange_unsynced (fuel : nat) (s : slot) (p : Pose)
  (v : DualViewer) (vp : Viewport) :
  truthy (syncCameras v) = false → viewport_of s v = Some vp →
  poseChange X (S fuel) s p v = Done (set_viewport s (set_pose p vp) v).
Proof.
  intros Hs Hvp. unfold poseChange. rewrite Hvp.
  change (modified X (S fuel) s ?w)
    with (match viewport_of s w with
          | None => Raised TypeError w
          | Some vp' =>
              run_callbacks X (modified X fuel) (observers (camera vp')) w
          end).
  rewrite viewport_of_set_same. apply run_callbacks_unsynced.
  by rewrite syncCameras_set_viewport.
Qed.

(** The propagation of one pose change between wired cameras. *)
Lemma poseChange_synced (fuel : nat) (s : slot) (p : Pose) (v : DualViewer)
  (vs vt : Viewport) :
  wired v → truthy (syncCameras v) = true → _isUpdatingCamera v = false →
  viewport_of s v = Some vs → viewport_of (other s) v = Some vt →
  ∃ v',
    poseChange X (S (S fuel)) s p v = Done v' ∧
    viewport_of s v' = Some (set_pose p vs) ∧
    viewport_of (other s) v' = Some (set_pose p vt) ∧
    log v' = log v ++
      [CameraSet (other s) (set_position (pose (camera vt)) (position p));
       CameraSet (other s)
         (set_focalPoint (set_position (pose (camera vt)) (position p))
            (focalPoint p));
       CameraSet (other s)
         (mkPose (position p) (focalPoint p) (viewUp p)
            (parallelScale (pose (camera vt))));
       CameraSet (other s) p;
       Render (other s)] ∧
    _isUpdatingCamera v' = false ∧
    frame v' = frame v.
Proof.
  intros Hw Hs Hg Hvs Hvt. unfold poseChange. rewrite Hvs.
  change (modified X (S (S fuel)) s ?w)
    with (match viewport_of s w with
          | None => Raised TypeError w
          | Some vp' =>
              run_callbacks X (modified X (S fuel)) (observers (camera vp')) w
          end).
  rewrite viewport_of_set_same.
  assert (observers (camera (set_pose p vs)) = [SyncCameraFrom s]) as ->.
  { specialize (Hw s). rewrite Hvs in Hw. simpl in Hw. by injection Hw. }
  rewrite run_callbacks_cons. unfold onModified.
  rewrite syncCameras_set_viewport, Hs.
  destruct (syncCamera_copies (modified X (S fuel)) s
              (set_viewport s (set_pose p vs) v) (set_pose p vs) vt)
    as (v' & -> & H1 & H2 & H3 & H4 & H5);
    [apply modified_quiet|by autorewrite with dual..|].
  exists v'. split; [done|]. autorewrite with dual in *.
  repeat split; try done.
  rewrite H5. by apply frame_set_viewport_id.
Qed.

Lemma poseChanges_cons (fuel : nat) (s : slot) (p : Pose) (ps : list Pose)
  (v : DualViewer) :
  poseChanges X fuel s (p :: ps) v
  = poseChange X fuel s p v ≫= poseChanges X fuel s ps.
Proof.
  unfold poseChanges. simpl.
  destruct (poseChange X fuel s p v) as [v'|e v'|]; simpl; [done|..];
    induction ps; simpl; auto.
Qed.

Lemma poseChanges_unsynced (fuel : nat) (s : slot) (ps : list Pose)
  (v : DualViewer) :
  truthy (syncCameras v) = false → is_Some (viewport_of s v) →
  ∃ v', poseChanges X (S fuel) s ps v = Done v' ∧
        viewport_of (other s) v' = viewport_of (other s) v ∧
        syncCameras v' = syncCameras v ∧
        log v' = log v.
Proof.
  revert v. induction ps as [|p ps IH]; intros v Hs [vp Hvp].
  - by exists v.
  - rewrite poseChanges_cons, (poseChange_unsynced fuel s p v vp Hs Hvp).
    rewrite bind_done.
    destruct (IH (set_viewport s (set_pose p vp) v)) as (v' & -> & H1 & H2 & H3).
    + by rewrite syncCameras_set_viewport.
    + rewrite viewport_of_set_same. eauto.
    + exists v'. autorewrite with dual in *.
      rewrite syncCameras_set_viewport in H2. done.
Qed.

(** [initialize] on a viewer constructed with camera sync on leaves both
    viewports in place, each camera with its own closure, the guard
    clear. *)
Lemma initialize_wires (cfg : gmap string value) :
  truthy (prop (cfg ∪ DUAL_CONFIG) "syncCameras") = true →
  ∃ v, initialize true (new cfg) = Done v ∧
       wired v ∧ ready v ∧ _isUpdatingCamera v = false ∧
       truthy (syncCameras v) = true.
Proof.
  intros H. unfold initialize, new. simpl. rewrite H. simpl.
  eexists. split; [reflexivity|]. simpl.
  repeat split; try done; intros []; simpl; eauto.
Qed.

(** Being wired is a matter of the frame: pose changes keep it. *)
Lemma frame_wired (v v' : DualViewer) :
  frame v' = frame v → wired v → wired v'.
Proof.
  intros Hf Hw s. specialize (Hw s).
  destruct v as [? ? va vb ? ? ? ? ? ? ? ? ? ? ?].
  destruct v' as [? ? va' vb' ? ? ? ? ? ? ? ? ? ? ?].
  injection Hf as _ _ Ha Hb _ _ _ _ _ _ _ _ _.
  destruct s; simpl in *.
  - destruct va as [[? []]|], va' as [[? []]|]; unfold set_pose in *;
      simpl in *; congruence.
  - destruct vb as [[? []]|], vb' as [[? []]|]; unfold set_pose in *;
      simpl in *; congruence.
Qed.

Lemma frame_syncCameras (v v' : DualViewer) :
  frame v' = frame v → syncCameras v' = syncCameras v.
Proof. intros Hf. destruct v, v'. by injection Hf. Qed.

Lemma session_snoc (fuel : nat) (changes : list (slot * Pose))
  (c : slot * Pose) (v : DualViewer) :
  session X fuel (changes ++ [c]) v
  = session X fuel changes v ≫= poseChange X fuel c.1 c.2.
Proof. unfold session. by rewrite foldl_app. Qed.

(** Between two pose changes the guard is clear and the two cameras agree:
    however many changes are made, on whichever camera, each one is
    propagated once and the session goes on. *)
Lemma session_stays_synced (fuel : nat) (changes : list (slot * Pose))
  (v : DualViewer) :
  wired v → ready v → truthy (syncCameras v) = true →
  _isUpdatingCamera v = false →
  ∃ v',
    session X (S (S fuel)) changes v = Done v' ∧
    wired v' ∧ ready v' ∧ truthy (syncCameras v') = true ∧
    _isUpdatingCamera v' = false ∧
    (∀ s p, last changes = Some (s, p) →
            poseOf SlotA v' = Some p ∧ poseOf SlotB v' = Some p).
Proof.
  intros Hw Hr Hs Hg.
  induction changes as [|[s p] changes IH] using rev_ind.
  - exists v. by repeat split.
  - destruct IH as (v1 & H1 & Hw1 & Hr1 & Hs1 & Hg1 & _).
    rewrite session_snoc, H1, bind_done. simpl.
    destruct (Hr1 s) as [vs Hvs]. destruct (Hr1 (other s)) as [vt Hvt].
    destruct (poseChange_synced fuel s p v1 vs vt Hw1 Hs1 Hg1 Hvs Hvt)
      as (v' & H' & Ha & Hb & _ & Hg' & Hf').
    exists v'. split; [done|].
    split; [by apply (frame_wired v1)|].
    split; [by apply (frame_ready v1)|].
    split; [by rewrite (frame_syncCameras v1)|].
    split; [done|].
    intros s' p'. rewrite last_snoc. intros [= <- <-].
    unfold poseOf. destruct s; simpl in Ha, Hb; simpl; by rewrite Ha, Hb.
Qed.

(** C2: with camera sync enabled on both viewports, a pose change on the
    camera of viewport A returns (two levels of nested notification are
    enough), copies the pose onto the camera of viewport B exactly once
    (four setter calls and one render, all on B) and triggers no change on
    A; while the guard [_isUpdatingCamera] is set every subscribed closure
    returns at once, whatever it is notified by, so that propagation never
    cycles, and the guard is clear again afterwards. *)
Theorem camera_sync_never_cycles (fuel : nat) (p : Pose) (v : DualViewer)
  (a b : Viewport) :
  wired v → truthy (syncCameras v) = true → _isUpdatingCamera v = false →
  viewportA v = Some a → viewportB v = Some b →
  (∀ notify cb w,
     _isUpdatingCamera w = true → onModified X notify cb w = Done w) ∧
  ∃ v',
    poseChange X (S (S fuel)) SlotA p v = Done v' ∧
    viewportA v' = Some (set_pose p a) ∧
    viewportB v' = Some (set_pose p b) ∧
    log v' = log v ++
      [CameraSet SlotB (set_position (pose (camera b)) (position p));
       CameraSet SlotB
         (set_focalPoint (set_position (pose (camera b)) (position p))
            (focalPoint p));
       CameraSet SlotB
         (mkPose (position p) (focalPoint p) (viewUp p)
            (parallelScale (pose (camera b))));
       CameraSet SlotB p;
       Render SlotB] ∧
    _isUpdatingCamera v' = false.
Proof.
  intros Hw Hs Hg Ha Hb. split.
  - intros notify cb w. apply onModified_guarded.
  - destruct (poseChange_synced fuel SlotA p v a b Hw Hs Hg Ha Hb)
      as (v' & H0 & H1 & H2 & H3 & H4 & _).
    exists v'. by repeat split.
Qed.

(** C7: after [setCameraSync(false)], every pose change on the camera of
    viewport A returns and leaves viewport B, its camera pose included,
    exactly as it was; nothing is rendered or logged, and the flag stays
    off until it is set again. *)
Theorem sync_off_stops_propagation (fuel : nat) (ps : list Pose)
  (v : DualViewer) :
  is_Some (viewportA v) →
  ∃ v0 v',
    setCameraSync (Bool false) v = Done v0 ∧
    poseChanges X (S fuel) SlotA ps v0 = Done v' ∧
    viewportB v' = viewportB v ∧
    poseOf SlotB v' = poseOf SlotB v ∧
    syncCameras v' = Bool false ∧
    log v' = log v0.
Proof.
  intros Ha.
  set (v0 := record (ConsoleLog "[DualViewer] Camera sync")
               (set_syncCameras (Bool false) v)).
  destruct (poseChanges_unsynced fuel SlotA ps v0)
    as (v' & H0 & H1 & H2 & H3); [done|done|].
  exists v0, v'. simpl in H1. unfold poseOf. simpl.
  split; [reflexivity|]. repeat split; try done. by rewrite H1.
Qed.

(** C9, as the code has it: on a viewer that has not been destroyed, whose
    camera sync is enabled and whose cameras carry the synchronization
    closures [initialize] subscribes when the viewer is constructed with
    [syncCameras] on, a pose change on the camera of either viewport is
    copied onto the camera of the other one whatever the two viewports
    hold, a dataset or none; the dataset slots are not consulted and stay
    as they are. *)
Theorem sync_ignores_loaded_state (fuel : nat) (s : slot) (p : Pose)
  (v : DualViewer) (vs vt : Viewport) :
  live v →
  wired v → truthy (syncCameras v) = true → _isUpdatingCamera v = false →
  viewport_of s v = Some vs → viewport_of (other s) v = Some vt →
  ∃ v',
    poseChange X (S (S fuel)) s p v = Done v' ∧
    poseOf s v' = Some p ∧
    poseOf (other s) v' = Some p ∧
    dataset <$> viewport_of s v' = Some (dataset vs) ∧
    dataset <$> viewport_of (other s) v' = Some (dataset vt).
Proof.
  intros _ Hw Hs Hg Hvs Hvt.
  destruct (poseChange_synced fuel s p v vs vt Hw Hs Hg Hvs Hvt)
    as (v' & H0 & H1 & H2 & _).
  exists v'. unfold poseOf. rewrite H1, H2. by repeat split.
Qed.

(** Without subscribers a pose change stays where it is made. *)
Lemma poseChange_unobserved (fuel : nat) (s : slot) (p : Pose)
  (v : DualViewer) (vp : Viewport) :
  viewport_of s v = Some vp → observers (camera vp) = [] →
  poseChange X (S fuel) s p v = Done (set_viewport s (set_pose p vp) v).
Proof.
  intros Hvp Ho. unfold poseChange. rewrite Hvp.
  change (modified X (S fuel) s ?w)
    with (match viewport_of s w with
          | None => Raised TypeError w
          | Some vp' =>
              run_callbacks X (modified X fuel) (observers (camera vp')) w
          end).
  rewrite viewport_of_set_same. simpl observers. by rewrite Ho.
Qed.

(** [setCameraView] moves the camera of viewport A and, with the flag on,
    leaves viewport B to the subscribed closures: where none is subscribed
    the camera of B stays behind. *)
Lemma setCameraView_leaves_B_behind (fuel : nat) (direction : value)
  (v : DualViewer) (a b : Viewport) :
  viewportA v = Some a → viewportB v = Some b →
  observers (camera a) = [] → truthy (syncCameras v) = true →
  actors a ++ actors b ≠ [] →
  ∃ v',
    setCameraView X (S fuel) direction v = Done v' ∧
    poseOf SlotA v' = Some (viewPose X direction (actors a ++ actors b)) ∧
    poseOf SlotB v' = Some (pose (camera b)).
Proof.
  intros Ha Hb Ho Hs Hne. unfold setCameraView. rewrite Ha, Hb.
  destruct (actors a ++ actors b) as [|x l] eqn:E; [done|].
  rewrite (poseChange_unobserved fuel SlotA _ v a Ha Ho), bind_done.
  rewrite syncCameras_set_viewport, Hs. simpl negb. cbv iota.
  rewrite bind_done. eexists. split; [reflexivity|].
  unfold poseOf, render. autorewrite with dual.
  split; [done|]. simpl viewport_of. by rewrite Hb.
Qed.

(** C8, at the failing input: a viewer constructed with
    [syncCameras: false] subscribes nothing in [initialize], so that after
    [setCameraSync(true)] the flag is on and a pose change on the camera of
    viewport A still leaves the camera of viewport B at its old pose; the
    same steps on a viewer constructed with the default configuration do
    bring B to the pose of A. *)
Theorem setCameraSync_does_not_subscribe (fuel : nat) (p : Pose) :
  (∃ v2 v3,
     initialize true (new {[ "syncCameras" := Bool false ]})
       = Done Sample.unsynced ∧
     setCameraSync (Bool true) Sample.unsynced = Done v2 ∧
     poseChange X (S (S fuel)) SlotA p v2 = Done v3 ∧
     truthy (syncCameras v3) = true ∧
     poseOf SlotA v3 = Some p ∧
     poseOf SlotB v3 = Some defaultPose) ∧
  (∃ v1 v2 v3,
     initialize true (new ∅) = Done Sample.viewer ∧
     setCameraSync (Bool false) Sample.viewer = Done v1 ∧
     setCameraSync (Bool true) v1 = Done v2 ∧
     poseChange X (S (S fuel)) SlotA p v2 = Done v3 ∧
     poseOf SlotA v3 = Some p ∧
     poseOf SlotB v3 = Some p).
Proof.
  split.
  - eexists _, _. split; [apply unsynced_initialized|].
    split; [reflexivity|]. split.
    + by apply (poseChange_unobserved (S fuel) SlotA p _
                  (_createViewport "A")).
    + done.
  - set (v1 := record (ConsoleLog "[DualViewer] Camera sync")
                 (set_syncCameras (Bool false) Sample.viewer)).
    set (v2 := record (ConsoleLog "[DualViewer] Camera sync")
                 (set_syncCameras (Bool true) v1)).
    edestruct (poseChange_synced fuel SlotA p v2)
      as (v3 & H0 & H1 & H2 & _);
      [by intros []|reflexivity..|].
    exists v1, v2, v3. split; [apply viewer_initialized|].
    split; [reflexivity|]. split; [reflexivity|]. split; [exact H0|].
    change (other SlotA) with SlotB in H2.
    unfold poseOf. by rewrite H1, H2.
Qed.

End CameraSync.

(** ** Loading *)

Section Loading.

Import Js Vtk Dual.

Variable X : Externals.

Lemma elem_of_foldl_removeActor (l sc : list actor) (a : actor) :
  a ∈ foldl removeActor sc l ↔ a ∈ sc ∧ a ∉ l.
Proof.
  revert sc. induction l as [|x l IH]; intros sc; simpl.
  - split; [intros H; split; [done|apply not_elem_of_nil]|by intros [H _]].
  - rewrite IH. unfold removeActor. rewrite list_elem_of_filter, not_elem_of_cons.
    tauto.
Qed.

(** After [detach] none of the actors the viewport listed is attached. *)
Lemma detach_detaches (vp : Viewport) (a : actor) :
  a ∈ actors vp → a ∉ scene (detach vp).
Proof.
  intros Ha. unfold detach. simpl. rewrite elem_of_foldl_removeActor. tauto.
Qed.

Lemma frame_dataset (s : slot) (v v' : DualViewer) :
  frame v' = frame v →
  dataset <$> viewport_of s v' = dataset <$> viewport_of s v.
Proof.
  intros Hf.
  destruct v as [? ? va vb ? ? ? ? ? ? ? ? ? ? ?].
  destruct v' as [? ? va' vb' ? ? ? ? ? ? ? ? ? ? ?].
  injection Hf as _ _ Ha Hb _ _ _ _ _ _ _ _ _.
  destruct s; simpl.
  - destruct va as [[]|], va' as [[]|]; unfold dataset, set_pose in *; simpl in *;
      congruence.
  - destruct vb as [[]|], vb' as [[]|]; unfold dataset, set_pose in *; simpl in *;
      congruence.
Qed.

Lemma frame_inflight (v v' : DualViewer) :
  frame v' = frame v → inflight v' = inflight v ∧ issued v' = issued v.
Proof.
  intros Hf. destruct v, v'. by injection Hf.
Qed.

Lemma configure_frame (s : slot) (r : Loader.Result) (v : DualViewer) :
  frame (configure s r v) = frame v ∧
  (∀ t, viewport_of t (configure s r v) = viewport_of t v).
Proof.
  unfold configure.
  destruct (Loader.hasTexture r && _); [by split; [|intros []]|].
  destruct (Loader.hasVertexColors r); [|by split; [|intros []]].
  destruct (truthy _); by split; [|intros []].
Qed.

(** [_positionCameraForViewport] returns and touches poses and the log
    only. *)
Lemma positionCamera_frame (fuel : nat) (s : slot) (v : DualViewer) :
  ready v →
  ∃ v', _positionCameraForViewport X (S (S fuel)) s v = Done v' ∧
        frame v' = frame v.
Proof.
  intros Hr. unfold _positionCameraForViewport.
  destruct (Hr s) as [vp ->].
  destruct (actors vp); [by exists v|].
  destruct (initialPose X _); [|by exists v].
  destruct (poseChange_frame X fuel s p v Hr) as (v' & ? & ? & _). eauto.
Qed.

(** What the call part of [loadMesh] does to an existing viewport. *)
Lemma loadMesh_issues (viewport url : value) (v : DualViewer) (vp : Viewport) :
  viewport_of (select viewport) v = Some vp →
  loadMesh viewport url v
  = Done (set_issued (S (issued v))
            (set_inflight
               (<[issued v := mkSuspended (select viewport) viewport url]>
                  (inflight v))
               (set_viewport (select viewport) (detach vp) v))).
Proof.
  intros H. unfold loadMesh. rewrite H. by destruct (select viewport).
Qed.

Lemma loadMesh_rejects (k : nat) (e : error) (v : DualViewer) (c : Suspended) :
  inflight v !! k = Some c →
  loadMesh_rejected k e v
  = if printable (viewport c)
    then Raised e (record (SendError (viewport c) e)
                     (record (ConsoleError (viewport c) e)
                        (set_inflight (delete k (inflight v)) v)))
    else Raised TypeError (set_inflight (delete k (inflight v)) v).
Proof. intros H. unfold loadMesh_rejected. by rewrite H. Qed.

Lemma ready_record (e : effect) (v : DualViewer) : ready v → ready (record e v).
Proof. intros Hr t. specialize (Hr t). by destruct t. Qed.

Lemma ready_set_inflight (m : gmap nat Suspended) (v : DualViewer) :
  ready v → ready (set_inflight m v).
Proof. intros Hr t. specialize (Hr t). by destruct t. Qed.

Lemma ready_set_issued (n : nat) (v : DualViewer) :
  ready v → ready (set_issued n v).
Proof. intros Hr t. specialize (Hr t). by destruct t. Qed.

(** What the continuation of [loadMesh] does when the load number [k]
    completes. *)
Lemma loadMesh_resolves (fuel k : nat) (r : Loader.Result) (v : DualViewer)
  (c : Suspended) :
  ready v → inflight v !! k = Some c →
  ∃ v',
    loadMesh_resolved X (S (S fuel)) k r v = Done v' ∧
    dataset <$> viewport_of (target c) v'
      = Some (Loader.actors r, Loader.polyData r, extractFilename X (url c)) ∧
    dataset <$> viewport_of (other (target c)) v'
      = dataset <$> viewport_of (other (target c)) v ∧
    inflight v' = delete k (inflight v) ∧
    issued v' = issued v ∧
    ready v'.
Proof.
  intros Hr Hk. unfold loadMesh_resolved. rewrite Hk.
  destruct (Hr (target c)) as [vp Hvp].
  set (v0 := set_inflight (delete k (inflight v)) v).
  assert (viewport_of (target c) v0 = Some vp) as -> by (by destruct (target c)).
  set (vp1 := set_scene _ _).
  set (v1 := configure (target c) r (set_viewport (target c) vp1 v0)).
  assert (ready (set_viewport (target c) vp1 v0)) as Hr0.
  { by apply ready_set_viewport, ready_set_inflight. }
  assert (ready v1) as Hr1.
  { intros t. unfold v1. rewrite (proj2 (configure_frame _ _ _)). apply Hr0. }
  destruct (positionCamera_frame fuel (target c) v1 Hr1) as (v2 & -> & Hf2).
  rewrite bind_done. simpl try_catch. eexists. split; [reflexivity|].
  assert (frame v2 = frame (set_viewport (target c) vp1 v0)) as Hf.
  { rewrite Hf2. apply configure_frame. }
  destruct (frame_inflight _ _ Hf) as [Hi Hn].
  repeat split.
  - rewrite !viewport_of_record, (frame_dataset _ _ _ Hf).
    by rewrite viewport_of_set_same.
  - rewrite !viewport_of_record, (frame_dataset _ _ _ Hf).
    rewrite viewport_of_other_set. by destruct (target c).
  - simpl. rewrite Hi. by destruct (target c).
  - simpl. rewrite Hn. by destruct (target c).
  - by apply ready_record, ready_record, (frame_ready _ _ Hf).
Qed.

(** The call part of [loadMesh] on a viewer with both viewports. *)
Lemma loadMesh_suspends (viewport url : value) (v : DualViewer) :
  ready v →
  ∃ v' vp,
    loadMesh viewport url v = Done v' ∧
    viewport_of (select viewport) v = Some vp ∧
    viewport_of (select viewport) v' = Some (detach vp) ∧
    viewport_of (other (select viewport)) v'
      = viewport_of (other (select viewport)) v ∧
    inflight v'
      = <[issued v := mkSuspended (select viewport) viewport url]> (inflight v) ∧
    issued v' = S (issued v) ∧
    log v' = log v ∧
    ready v'.
Proof.
  intros Hr. destruct (Hr (select viewport)) as [vp Hvp].
  exists (set_issued (S (issued v))
            (set_inflight
               (<[issued v := mkSuspended (select viewport) viewport url]>
                  (inflight v))
               (set_viewport (select viewport) (detach vp) v))), vp.
  split; [by apply loadMesh_issues|]. split; [done|].
  repeat split; try (by destruct (select viewport)).
  by apply ready_set_issued, ready_set_inflight, ready_set_viewport.
Qed.

(** Two loads into one viewport that complete in the reverse of the order
    they were issued in: the viewport ends with the dataset of the load
    issued first. *)
Lemma out_of_order_completion (fuel : nat) (viewport u1 u2 : value)
  (r1 r2 : Loader.Result) (v : DualViewer) :
  ready v →
  ∃ v1 v2 v3 v4,
    loadMesh viewport u1 v = Done v1 ∧
    loadMesh viewport u2 v1 = Done v2 ∧
    loadMesh_resolved X (S (S fuel)) (S (issued v)) r2 v2 = Done v3 ∧
    loadMesh_resolved X (S (S fuel)) (issued v) r1 v3 = Done v4 ∧
    dataset <$> viewport_of (select viewport) v3
      = Some (Loader.actors r2, Loader.polyData r2, extractFilename X u2) ∧
    dataset <$> viewport_of (select viewport) v4
      = Some (Loader.actors r1, Loader.polyData r1, extractFilename X u1).
Proof.
  intros Hr.
  destruct (loadMesh_suspends viewport u1 v Hr)
    as (v1 & vp & H1 & _ & _ & _ & Hi1 & Hn1 & _ & Hr1).
  destruct (loadMesh_suspends viewport u2 v1 Hr1)
    as (v2 & vp' & H2 & _ & _ & _ & Hi2 & Hn2 & _ & Hr2).
  rewrite Hn1 in Hi2.
  destruct (loadMesh_resolves fuel (S (issued v)) r2 v2
              (mkSuspended (select viewport) viewport u2) Hr2)
    as (v3 & H3 & Hd3 & _ & Hi3 & _ & Hr3).
  { rewrite Hi2. apply lookup_insert_eq. }
  destruct (loadMesh_resolves fuel (issued v) r1 v3
              (mkSuspended (select viewport) viewport u1) Hr3)
    as (v4 & H4 & Hd4 & _).
  { rewrite Hi3, Hi2, Hi1.
    rewrite lookup_delete_ne, lookup_insert_ne by lia.
    apply lookup_insert_eq. }
  exists v1, v2, v3, v4. by repeat split.
Qed.

End Loading.

Section BaseLoading.

Import Js Vtk.

Variable extractFilename : value → value.
Variable validBounds : list actor → bool.

Lemma base_attach (l sc : list actor) (v : Base.BaseViewer) :
  Base.renderer v = Some sc →
  Base.attach l v
  = Done (match l with
          | [] => v
          | _ => Base.set_renderer (Some (foldl addActor sc l)) v
          end).
Proof. intros H. unfold Base.attach. rewrite H. by destruct l. Qed.

Lemma base_removed (l : list actor) (v : Base.BaseViewer) :
  foldl (fun w a => Base.record (Base.ActorRemoved a) w) v l
  = Base.set_log (Base.log v ++ (Base.ActorRemoved <$> l)) v.
Proof.
  revert v. induction l as [|a l IH]; intros v; simpl.
  - destruct v. unfold Base.set_log. simpl. by rewrite app_nil_r.
  - rewrite IH. destruct v. unfold Base.record, Base.set_log. simpl.
    by rewrite <- app_assoc.
Qed.

Lemma base_clearScene (sc : list actor) (v : Base.BaseViewer) :
  Base.renderer v = Some sc →
  ∃ v', Base.clearScene v = Done v' ∧
        Base.actors v' = [] ∧ Base.polyDatas v' = [] ∧
        Base.currentFilename v' = Base.currentFilename v ∧
        Base.renderer v' = Some (foldl removeActor sc (Base.actors v)) ∧
        Base.inflight v' = Base.inflight v ∧
        Base.issued v' = Base.issued v ∧
        Base.loadingOverlay v' = Base.loadingOverlay v ∧
        Base.log v' = Base.log v ++ (Base.ActorRemoved <$> Base.actors v).
Proof.
  intros H. unfold Base.clearScene. rewrite H.
  destruct (Base.actors v) as [|a l] eqn:E.
  - eexists. split; [reflexivity|]. simpl. by rewrite H, app_nil_r.
  - eexists. split; [reflexivity|]. rewrite base_removed. by simpl.
Qed.

Lemma base_showLoading (b : bool) (v : Base.BaseViewer) :
  Base.actors (Base.showLoading b v) = Base.actors v ∧
  Base.polyDatas (Base.showLoading b v) = Base.polyDatas v ∧
  Base.currentFilename (Base.showLoading b v) = Base.currentFilename v ∧
  Base.renderer (Base.showLoading b v) = Base.renderer v ∧
  Base.inflight (Base.showLoading b v) = Base.inflight v ∧
  Base.issued (Base.showLoading b v) = Base.issued v.
Proof. unfold Base.showLoading. by destruct (Base.loadingOverlay v). Qed.

(** The call part of [BaseViewer.loadMesh] on a viewer with a renderer. *)
Lemma base_loadMesh_issues (url : value) (sc : list actor)
  (v : Base.BaseViewer) :
  Base.renderer v = Some sc →
  ∃ v', Base.loadMesh url v = Done v' ∧
        Base.actors v' = [] ∧ Base.polyDatas v' = [] ∧
        Base.currentFilename v' = Base.currentFilename v ∧
        Base.renderer v' = Some (foldl removeActor sc (Base.actors v)) ∧
        Base.inflight v' = <[Base.issued v := url]> (Base.inflight v) ∧
        Base.issued v' = S (Base.issued v).
Proof.
  intros H. unfold Base.loadMesh.
  destruct (base_showLoading true v) as (Ha & Hp & Hf & Hr & Hi & Hn).
  destruct (base_clearScene sc (Base.showLoading true v))
    as (v1 & -> & H1 & H2 & H3 & H4 & H5 & H6 & _); [congruence|].
  rewrite bind_done. eexists. split; [reflexivity|]. simpl.
  rewrite H1, H2, H3, H4, H5, H6, Ha, Hf, Hi, Hn. done.
Qed.

Lemma content_record (e : Base.effect) (v : Base.BaseViewer) :
  Base.content (Base.record e v) = Base.content v.
Proof. done. Qed.

Lemma content_showLoading (b : bool) (v : Base.BaseViewer) :
  Base.content (Base.showLoading b v) = Base.content v.
Proof. unfold Base.showLoading. by destruct (Base.loadingOverlay v). Qed.

Lemma content_updateInfoOverlay (v : Base.BaseViewer) :
  Base.content (Base._updateInfoOverlay v) = Base.content v.
Proof. unfold Base._updateInfoOverlay. by destruct (Base.infoOverlay v). Qed.

Lemma content_setupCameraForMesh (v : Base.BaseViewer) :
  Base.content (Base._setupCameraForMesh validBounds v) = Base.content v.
Proof.
  unfold Base._setupCameraForMesh.
  destruct (Base.actors v); [done|]. by destruct (validBounds _).
Qed.

Lemma content_configureLoadedActors (r : Loader.Result)
  (v : Base.BaseViewer) :
  Base.content (Base._configureLoadedActors r v) = Base.content v.
Proof.
  unfold Base._configureLoadedActors.
  destruct (_ && _ && _); [done|].
  destruct (Loader.hasVertexColors r); [|done].
  by destruct (Base.enabled "showEdges" v).
Qed.

(** The continuation of [BaseViewer.loadMesh] when the load number [k]
    completes. *)
Lemma base_loadMesh_resolves (k : nat) (r : Loader.Result) (url : value)
  (sc : list actor) (v : Base.BaseViewer) :
  Base.renderer v = Some sc → Base.inflight v !! k = Some url →
  ∃ v', Base.loadMesh_resolved extractFilename validBounds k r v = Done v' ∧
        Base.actors v' = Loader.actors r ∧
        Base.polyDatas v' = option_list (Loader.polyData r) ∧
        Base.currentFilename v' = extractFilename url ∧
        Base.inflight v' = delete k (Base.inflight v).
Proof.
  intros Hr Hk. unfold Base.loadMesh_resolved. rewrite Hk.
  erewrite base_attach by exact Hr. rewrite bind_done.
  eexists. split; [reflexivity|].
  set (v1 := match Loader.actors r with [] => _ | _ => _ end).
  assert (Base.content v1
          = (Loader.actors r, option_list (Loader.polyData r),
             extractFilename url, delete k (Base.inflight v))) as H1.
  { unfold v1. by destruct (Loader.actors r). }
  set (v2 := Base.showLoading false _).
  assert (Base.content v2 = Base.content v1) as H2.
  { unfold v2.
    by rewrite content_showLoading, content_updateInfoOverlay,
      content_setupCameraForMesh, content_configureLoadedActors. }
  assert (Base.content (Base.record Base.Render
            (Base.record (Base.SendMeshLoaded (Base.currentFilename v2)
               (Loader.format r) (length (Loader.actors r))
               (Loader.hasTexture r) (Loader.hasVertexColors r)) v2))
          = Base.content v1) as H3.
  { by rewrite !content_record. }
  rewrite H1 in H3. unfold Base.content in H3.
  injection H3 as E1 E2 E3 E4.
  split; [exact E1|]. split; [exact E2|]. split; [exact E3|exact E4].
Qed.

Lemma base_loadMesh_rejects (k : nat) (e : error) (url : value)
  (v : Base.BaseViewer) :
  Base.inflight v !! k = Some url →
  ∃ v', Base.loadMesh_rejected k e v = Raised e v' ∧
        Base.actors v' = Base.actors v ∧
        Base.polyDatas v' = Base.polyDatas v ∧
        Base.currentFilename v' = Base.currentFilename v ∧
        Base.renderer v' = Base.renderer v ∧
        Base.inflight v' = delete k (Base.inflight v) ∧
        Base.log v' = Base.log v ++
          [Base.ConsoleError e] ++
          match Base.loadingOverlay v with
          | Some _ => [Base.ShowLoading false]
          | None => []
          end ++ [Base.SendError e].
Proof.
  intros Hk. unfold Base.loadMesh_rejected, Base.loadMesh_catch. rewrite Hk.
  eexists. split; [reflexivity|]. unfold Base.showLoading. simpl.
  destruct (Base.loadingOverlay v); simpl; repeat split;
    by rewrite <- ?app_assoc.
Qed.

End BaseLoading.

(** ** Loads that fail, loads that overtake each other *)

Section LoadClaims.

Import Js Vtk Dual.

Variable X : Externals.
Variable baseExtractFilename : value → value.
Variable validBounds : list actor → bool.

(** C1, as the code has it: loads carry no sequence number, so the viewport
    reflects the load that completed last.  Whichever pending load
    completes, and whatever was issued before or after it, its continuation
    returns and leaves the actors, the dataset and the filename of its own
    result in the viewport it was issued for; the other viewport keeps its
    dataset slot.  The same holds for the single viewport of a BaseViewer. *)
Theorem last_completed_load_wins (fuel k j : nat) (r : Loader.Result)
  (v : DualViewer) (c : Suspended) (w : Base.BaseViewer) (u : value)
  (sc : list actor) :
  ready v → inflight v !! k = Some c →
  Base.renderer w = Some sc → Base.inflight w !! j = Some u →
  (∃ v',
     loadMesh_resolved X (S (S fuel)) k r v = Done v' ∧
     dataset <$> viewport_of (target c) v'
       = Some (Loader.actors r, Loader.polyData r, extractFilename X (url c)) ∧
     dataset <$> viewport_of (other (target c)) v'
       = dataset <$> viewport_of (other (target c)) v ∧
     inflight v' = delete k (inflight v)) ∧
  (∃ w',
     Base.loadMesh_resolved baseExtractFilename validBounds j r w = Done w' ∧
     Base.actors w' = Loader.actors r ∧
     Base.polyDatas w' = option_list (Loader.polyData r) ∧
     Base.currentFilename w' = baseExtractFilename u ∧
     Base.inflight w' = delete j (Base.inflight w)).
Proof.
  intros Hr Hk Hw Hj. split.
  - destruct (loadMesh_resolves X fuel k r v c Hr Hk)
      as (v' & H0 & H1 & H2 & H3 & _).
    by exists v'.
  - by apply (base_loadMesh_resolves _ _ j r u sc).
Qed.

(** C4, as the code has it: a load that fails leaves the viewport as the
    call left it when the load was started.  The actor list is empty and
    every actor it held is detached from the renderer, so old and new actors
    never mix; the filename still names the previous dataset; the other
    viewport is untouched.  When the viewport identifier can be converted
    to a string, the failure is logged, notified to the parent frame
    exactly once and rethrown; when it cannot, building the log text
    throws first, so that nothing is logged or notified and the promise
    rejects with that [TypeError] instead.  Either way the viewer goes on
    accepting loads.  For a BaseViewer the actor list and the dataset list
    are empty and the filename is the previous one. *)
Theorem failed_load_keeps_filename (viewport url u : value) (e : error)
  (v : DualViewer) (vp : Viewport) (w : Base.BaseViewer) (sc : list actor) :
  viewport_of (select viewport) v = Some vp →
  Base.renderer w = Some sc →
  (∃ v1 v2,
     loadMesh viewport url v = Done v1 ∧
     loadMesh_rejected (issued v) e v1
     = Raised (if printable viewport then e else TypeError) v2 ∧
     viewport_of (select viewport) v2 = Some (detach vp) ∧
     actors (detach vp) = [] ∧
     (∀ a, a ∈ actors vp → a ∉ scene (detach vp)) ∧
     filename (detach vp) = filename vp ∧
     viewport_of (other (select viewport)) v2
       = viewport_of (other (select viewport)) v ∧
     log v2
     = log v ++ (if printable viewport
                 then [ConsoleError viewport e; SendError viewport e]
                 else []) ∧
     isInitialized v2 = isInitialized v ∧
     ∀ viewport' url',
       is_Some (viewport_of (select viewport') v) →
       ∃ v3, loadMesh viewport' url' v2 = Done v3) ∧
  (∃ w1 w2,
     Base.loadMesh u w = Done w1 ∧
     Base.loadMesh_rejected (Base.issued w) e w1 = Raised e w2 ∧
     Base.actors w2 = [] ∧
     Base.polyDatas w2 = [] ∧
     Base.currentFilename w2 = Base.currentFilename w ∧
     Base.renderer w2 = Some (foldl removeActor sc (Base.actors w))).
Proof.
  intros Hvp Hw. split.
  - destruct (printable viewport) eqn:Ep.
    + eexists. eexists. split; [by apply loadMesh_issues|].
      split.
      { rewrite (loadMesh_rejects _ e _
                   (mkSuspended (select viewport) viewport url)).
        - cbn [Dual.viewport]. by rewrite Ep.
        - simpl. destruct (select viewport); simpl; apply lookup_insert_eq. }
      simpl. repeat split.
      * by destruct (select viewport).
      * apply detach_detaches.
      * by destruct (select viewport).
      * destruct (select viewport); simpl; by rewrite <- app_assoc.
      * by destruct (select viewport).
      * intros viewport' url' [vp' Hvp'].
        destruct (decide (select viewport' = select viewport)) as [Heq|Hne].
        -- eexists. apply (loadMesh_issues _ _ _ (detach vp)).
           rewrite Heq. by destruct (select viewport).
        -- eexists. apply (loadMesh_issues _ _ _ vp').
           destruct (select viewport), (select viewport'); done.
    + eexists. eexists. split; [by apply loadMesh_issues|].
      split.
      { rewrite (loadMesh_rejects _ e _
                   (mkSuspended (select viewport) viewport url)).
        - cbn [Dual.viewport]. by rewrite Ep.
        - simpl. destruct (select viewport); simpl; apply lookup_insert_eq. }
      simpl. repeat split.
      * by destruct (select viewport).
      * apply detach_detaches.
      * by destruct (select viewport).
      * destruct (select viewport); simpl; by rewrite app_nil_r.
      * by destruct (select viewport).
      * intros viewport' url' [vp' Hvp'].
        destruct (decide (select viewport' = select viewport)) as [Heq|Hne].
        -- eexists. apply (loadMesh_issues _ _ _ (detach vp)).
           rewrite Heq. by destruct (select viewport).
        -- eexists. apply (loadMesh_issues _ _ _ vp').
           destruct (select viewport), (select viewport'); done.
  - destruct (base_loadMesh_issues u sc w Hw)
      as (w1 & H0 & H1 & H2 & H3 & H4 & H5 & H6).
    destruct (base_loadMesh_rejects (Base.issued w) e u w1)
      as (w2 & K0 & K1 & K2 & K3 & K4 & _).
    { rewrite H5. apply lookup_insert_eq. }
    exists w1, w2. repeat split; congruence.
Qed.

End LoadClaims.

(** ** Messages, viewport identifiers, teardown *)

Section Dispatch.

Import Js Vtk Dual.

Variable baseExtractFilename : value → value.
Variable validBounds : list actor → bool.

Lemma is_str_ne (v : value) (lit : string) : v ≠ Str lit → is_str v lit = false.
Proof.
  intros H. destruct v; try done. simpl. apply String.eqb_neq. congruence.
Qed.

Lemma is_str_unrecognized (types : list string) (data : gmap string value)
  (lit : string) :
  unrecognized types data → lit ∈ types → is_str (prop data "type") lit = false.
Proof. intros H Hin. by apply is_str_ne, H. Qed.

(** C6: a message whose [type] is missing or is none of the strings the
    listener has a case for is ignored: the callback returns without
    raising and the viewer, its log of notifications included, is what it
    was.  This holds for the callback of a DualViewer and for the two
    listeners of a StandardViewer. *)
Theorem malformed_message_ignored (data data' : gmap string value)
  (v : DualViewer) (w : Standard.StandardViewer) :
  unrecognized Dual.messageTypes data →
  unrecognized Standard.messageTypes data' →
  Dual.onMessage data v = Done v ∧
  Standard.onMessage data' w = Done w.
Proof.
  intros H H'. split.
  - unfold onMessage.
    rewrite !(is_str_unrecognized Dual.messageTypes data) by
      (done || (unfold Dual.messageTypes; rewrite !elem_of_cons; tauto)).
    done.
  - unfold Standard.onMessage, Standard.onFieldMessage.
    rewrite !(is_str_unrecognized Standard.messageTypes data') by
      (done || (unfold Standard.messageTypes; rewrite !elem_of_cons; tauto)).
    simpl. by destruct (negb _).
Qed.

(** C10: every identifier other than the string ['A'] selects viewport B:
    [getViewport] returns [viewportB], and [loadMesh] does what it does for
    ['B'].  Where viewport B exists the call is not rejected: it detaches
    the actors of viewport B and files its pending load for B, leaving
    viewport A alone.  The only rejection is the one ['B'] itself meets on
    a viewer that has no viewport B yet. *)
Theorem unknown_viewport_is_B (ident url : value) (v : DualViewer) :
  ident ≠ Str "A" →
  select ident = SlotB ∧
  getViewport ident v = viewportB v ∧
  loadMesh ident url v
  = match viewportB v with
    | Some b =>
        Done (set_issued (S (issued v))
                (set_inflight
                   (<[issued v := mkSuspended SlotB ident url]> (inflight v))
                   (set_viewportB (Some (detach b)) v)))
    | None => loadMesh_catch ident TypeError v
    end.
Proof.
  intros Hne.
  assert (select ident = SlotB) as Hs.
  { unfold select. by rewrite is_str_ne. }
  split; [done|]. split; [unfold getViewport; by rewrite Hs|].
  unfold loadMesh. rewrite Hs. simpl viewport_of.
  by destruct (viewportB v).
Qed.

Lemma dual_removed (s : slot) (l : list actor) (v : DualViewer) :
  foldl (fun w a => record (ActorRemoved s a) w) v l
  = set_log (log v ++ (ActorRemoved s <$> l)) v.
Proof.
  revert v. induction l as [|a l IH]; intros v; simpl.
  - destruct v. unfold set_log. simpl. by rewrite app_nil_r.
  - rewrite IH. destruct v. unfold record, set_log. simpl.
    by rewrite <- app_assoc.
Qed.

Lemma destroyViewport_spec (s : slot) (v : DualViewer) :
  log (destroyViewport s v) = log v ++ viewportReleases s v ∧
  viewport_of s (destroyViewport s v)
    = (fun vp => set_scene (foldl removeActor (scene vp) (actors vp)) vp)
        <$> viewport_of s v ∧
  viewport_of (other s) (destroyViewport s v) = viewport_of (other s) v ∧
  _messageCleanup (destroyViewport s v) = _messageCleanup v ∧
  _resizeObserverA (destroyViewport s v) = _resizeObserverA v ∧
  _resizeObserverB (destroyViewport s v) = _resizeObserverB v.
Proof.
  unfold destroyViewport, viewportReleases.
  destruct (viewport_of s v) as [vp|] eqn:E.
  - rewrite dual_removed.
    destruct s; simpl; rewrite <- !app_assoc; repeat split; done.
  - rewrite E, app_nil_r. by destruct s.
Qed.

Lemma viewportReleases_ext (s : slot) (v v' : DualViewer) :
  actors <$> viewport_of s v' = actors <$> viewport_of s v →
  viewportReleases s v' = viewportReleases s v.
Proof.
  unfold viewportReleases.
  destruct (viewport_of s v), (viewport_of s v'); simpl; congruence.
Qed.

Lemma destroy_spec (v : DualViewer) :
  log (destroy v) = log v ++ releases v ∧
  (∀ s, viewport_of s (destroy v) = torn <$> viewport_of s v) ∧
  _messageCleanup (destroy v) = _messageCleanup v ∧
  _resizeObserverA (destroy v) = _resizeObserverA v ∧
  _resizeObserverB (destroy v) = _resizeObserverB v.
Proof.
  unfold destroy, releases.
  set (v1 := if _messageCleanup v then record MessageCleanup v else v).
  set (v2 := if _resizeObserverA v1 then record (ResizeDisconnect SlotA) v1 else v1).
  set (v3 := if _resizeObserverB v2 then record (ResizeDisconnect SlotB) v2 else v2).
  assert (log v3 = log v ++
            (if _messageCleanup v then [MessageCleanup] else []) ++
            (if _resizeObserverA v then [ResizeDisconnect SlotA] else []) ++
            (if _resizeObserverB v then [ResizeDisconnect SlotB] else []) ∧
          (∀ s, viewport_of s v3 = viewport_of s v) ∧
          _messageCleanup v3 = _messageCleanup v ∧
          _resizeObserverA v3 = _resizeObserverA v ∧
          _resizeObserverB v3 = _resizeObserverB v) as (L3 & V3 & M3 & A3 & B3).
  { unfold v3, v2, v1.
    destruct (_messageCleanup v) eqn:E1; simpl;
      destruct (_resizeObserverA v) eqn:E2; simpl;
      destruct (_resizeObserverB v) eqn:E3; simpl;
      rewrite ?app_nil_r, <- ?app_assoc; repeat split; try done;
      by intros []. }
  destruct (destroyViewport_spec SlotA v3) as (LA & VA & VA' & MA & AA & BA).
  destruct (destroyViewport_spec SlotB (destroyViewport SlotA v3))
    as (LB & VB & VB' & MB & AB & BB).
  simpl other in *.
  assert (viewportReleases SlotA v3 = viewportReleases SlotA v) as RA.
  { apply viewportReleases_ext. by rewrite V3. }
  assert (viewportReleases SlotB (destroyViewport SlotA v3)
          = viewportReleases SlotB v) as RB.
  { apply viewportReleases_ext. by rewrite VA', V3. }
  repeat split.
  - rewrite log_record, LB, LA, L3, RA, RB. by rewrite <- !app_assoc.
  - intros []; rewrite viewport_of_record.
    + by rewrite VB', VA, V3.
    + by rewrite VB, VA', V3.
  - simpl. congruence.
  - simpl. congruence.
  - simpl. congruence.
Qed.

(** [destroy] leaves a viewer that is not [live], as soon as there is a
    viewport whose render window it deletes. *)
Lemma destroy_not_live (v : DualViewer) (s : slot) :
  is_Some (viewport_of s v) → ¬ live (destroy v).
Proof.
  intros [vp Hvp] Hl. unfold live in Hl.
  rewrite (proj1 (destroy_spec v)) in Hl.
  assert (existsb deletion (viewportReleases s v) = true) as Hs.
  { unfold viewportReleases. rewrite Hvp. rewrite existsb_app.
    cbn [existsb deletion]. by rewrite !orb_true_r. }
  unfold releases in Hl. rewrite !existsb_app in Hl.
  destruct s; rewrite Hs in Hl; rewrite ?orb_true_r in Hl;
    cbn [orb] in Hl; rewrite ?orb_true_r in Hl; discriminate Hl.
Qed.

Lemma releases_destroy (v : DualViewer) : releases (destroy v) = releases v.
Proof.
  destruct (destroy_spec v) as (_ & V & M & A & B).
  unfold releases. rewrite M, A, B.
  rewrite (viewportReleases_ext SlotA v (destroy v)),
    (viewportReleases_ext SlotB v (destroy v)); [done|..];
    rewrite V; by destruct (viewport_of _ v).
Qed.

Lemma base_clearScene_eq (sc : list actor) (v : Base.BaseViewer) :
  Base.renderer v = Some sc →
  Base.clearScene v
  = Done (Base.set_polyDatas []
            (Base.set_actors []
               (Base.set_renderer (Some (foldl removeActor sc (Base.actors v)))
                  (Base.set_log
                     (Base.log v ++ (Base.ActorRemoved <$> Base.actors v)) v)))).
Proof.
  intros H. unfold Base.clearScene. rewrite H.
  destruct (Base.actors v) as [|a l] eqn:E.
  - destruct v. simpl in *. subst.
    unfold Base.set_polyDatas, Base.set_actors, Base.set_renderer,
      Base.set_log. simpl. by rewrite app_nil_r.
  - by rewrite base_removed.
Qed.

Lemma core_record (e : Base.effect) (v : Base.BaseViewer) :
  Base.core (Base.record e v) = Base.core v.
Proof. done. Qed.

Lemma core_when (b : bool) (e : Base.effect) (v : Base.BaseViewer) :
  Base.core (if b then Base.record e v else v) = Base.core v.
Proof. by destruct b. Qed.

Lemma core_removeOverlay (name : string) (o : option bool)
  (v : Base.BaseViewer) :
  Base.core (Base.removeOverlay name o v) = Base.core v.
Proof. by destruct o as [[]|]. Qed.

Lemma core_set_loadingOverlay (o : option bool) (v : Base.BaseViewer) :
  Base.core (Base.set_loadingOverlay o v) = Base.core v.
Proof. done. Qed.

Lemma core_set_infoOverlay (o : option bool) (v : Base.BaseViewer) :
  Base.core (Base.set_infoOverlay o v) = Base.core v.
Proof. done. Qed.

Lemma core_cleared (sc : list actor) (lg : list Base.effect)
  (v : Base.BaseViewer) :
  Base.core (Base.set_polyDatas []
               (Base.set_actors []
                  (Base.set_renderer (Some sc) (Base.set_log lg v))))
  = (Some sc, Base.renderWindow v, Base.openGLRenderWindow v,
     Base.interactor v, []).
Proof. done. Qed.

Lemma base_destroy_spec (sc : list actor) (w : Base.BaseViewer) :
  Base.renderer w = Some sc →
  ∃ w1,
    Base.destroy w = Done w1 ∧
    Base.core w1
    = (Some (foldl removeActor sc (Base.actors w)), Base.renderWindow w,
       Base.openGLRenderWindow w, Base.interactor w, []).
Proof.
  intros Hw. unfold Base.destroy.
  set (w0 := if Base.axisIndicator _ then _ else _).
  assert (Base.core w0 = Base.core w) as H0.
  { unfold w0. by rewrite !core_when. }
  assert (Base.renderer w0 = Some sc) as R0.
  { injection H0 as -> _ _ _ _. done. }
  rewrite (base_clearScene_eq sc w0 R0), bind_done.
  eexists. split; [reflexivity|].
  rewrite core_record, core_set_infoOverlay, core_removeOverlay,
    core_set_loadingOverlay, core_removeOverlay, !core_when, core_cleared.
  unfold Base.core in H0. injection H0 as _ H1 H2 H3 H4.
  by rewrite H1, H2, H3, H4.
Qed.

(** C5, as the code has it: [destroy] has no step of its own that can fail
    (every field it dereferences is tested first, also after a failed
    initialization), clears none of its references and resets none of its
    flags.  The viewport objects stay referenced with their actor lists, and
    a second call makes exactly the release calls of the first one again,
    on the same objects.  A BaseViewer empties its actor list, so its
    second call has no actor to detach, but keeps its renderer and windows
    referenced as well. *)
Theorem destroy_keeps_references (v : DualViewer) (w : Base.BaseViewer)
  (sc : list actor) :
  Base.renderer w = Some sc →
  (log (destroy v) = log v ++ releases v ∧
   log (destroy (destroy v)) = log v ++ releases v ++ releases v ∧
   (∀ s, viewport_of s (destroy v) = torn <$> viewport_of s v) ∧
   (∀ s, actors <$> viewport_of s (destroy v) = actors <$> viewport_of s v)) ∧
  (∃ w1 w2,
     Base.destroy w = Done w1 ∧ Base.destroy w1 = Done w2 ∧
     Base.core w1
     = (Some (foldl removeActor sc (Base.actors w)), Base.renderWindow w,
        Base.openGLRenderWindow w, Base.interactor w, [])).
Proof.
  intros Hw. split.
  - destruct (destroy_spec v) as (L & V & _).
    destruct (destroy_spec (destroy v)) as (L' & _).
    repeat split; try done.
    + by rewrite L', L, releases_destroy, <- app_assoc.
    + intros s. rewrite V. by destruct (viewport_of s v).
  - destruct (base_destroy_spec sc w Hw) as (w1 & H1 & C1).
    destruct (base_destroy_spec (foldl removeActor sc (Base.actors w)) w1)
      as (w2 & H2 & _).
    { by injection C1. }
    by exists w1, w2.
Qed.

End Dispatch.

(** ** The properties at the sample inputs *)

Section Examples.

Import Js Vtk Dual Sample.

(** The sample viewers are the ones construction and [initialize] give. *)
Lemma base_initialized : Base.initialize true (Base.new ∅) = Done base.
Proof. vm_compute. reflexivity. Qed.

Lemma loading_reached :
  loadMesh (Str "A") (Str "mesh1.obj") viewer = Done loading.
Proof. vm_compute. reflexivity. Qed.

Lemma loaded_reached :
  loadMesh_resolved X0 2 0 mesh1 loading = Done loaded.
Proof. vm_compute. reflexivity. Qed.

Lemma baseLoading_reached :
  Base.loadMesh (Str "mesh1.obj") base = Done baseLoading.
Proof. vm_compute. reflexivity. Qed.

(** C1 at the sample viewers: the pending load of [mesh1.obj] completes. *)
Lemma last_completed_load_wins_witness :
  (ready loading ∧
   inflight loading !! 0%nat = Some (mkSuspended SlotA (Str "A") (Str "mesh1.obj")) ∧
   Base.renderer baseLoading = Some [] ∧
   Base.inflight baseLoading !! 0%nat = Some (Str "mesh1.obj")) ∧
  (∃ v', loadMesh_resolved X0 2 0 mesh1 loading = Done v' ∧
         dataset <$> viewportA v'
         = Some ([1%nat], Some dataset1, Str "mesh1.obj")) ∧
  (∃ w', Base.loadMesh_resolved (fun u => u) (fun _ => false) 0 mesh1
           baseLoading = Done w' ∧
         Base.currentFilename w' = Str "mesh1.obj").
Proof.
  assert (ready loading) as H1 by (intros []; simpl; eauto).
  assert (inflight loading !! 0%nat
          = Some (mkSuspended SlotA (Str "A") (Str "mesh1.obj"))) as H2
    by reflexivity.
  assert (Base.renderer baseLoading = Some []) as H3 by reflexivity.
  assert (Base.inflight baseLoading !! 0%nat = Some (Str "mesh1.obj")) as H4
    by reflexivity.
  split; [done|].
  destruct (last_completed_load_wins X0 (fun u => u) (fun _ => false)
              0 0 0 mesh1 loading _ baseLoading _ [] H1 H2 H3 H4)
    as [(v' & Hv & Hd & _) (w' & Hw & _ & _ & Hf & _)].
  split; [by exists v'|by exists w'].
Defined.

(** C1 as stated fails: [mesh1.obj] then [mesh2.obj] are issued for
    viewport A, the second load completes first, and the viewport ends
    with the actors, dataset and filename of [mesh1.obj]. *)
Lemma later_load_is_overwritten :
  ∃ v v',
    (v1 ← loadMesh (Str "A") (Str "mesh1.obj") viewer;
     v2 ← loadMesh (Str "A") (Str "mesh2.obj") v1;
     loadMesh_resolved X0 2 1 mesh2 v2) = Done v ∧
    dataset <$> viewportA v = Some ([2%nat], Some dataset2, Str "mesh2.obj") ∧
    loadMesh_resolved X0 2 0 mesh1 v = Done v' ∧
    dataset <$> viewportA v' = Some ([1%nat], Some dataset1, Str "mesh1.obj") ∧
    dataset <$> viewportA v' ≠ Some ([2%nat], Some dataset2, Str "mesh2.obj").
Proof.
  eexists. eexists. split; [vm_compute; reflexivity|].
  split; [vm_compute; reflexivity|].
  split; [vm_compute; reflexivity|].
  split; [vm_compute; reflexivity|].
  vm_compute. discriminate.
Qed.

(** C2 at the sample viewer. *)
Lemma camera_sync_never_cycles_witness :
  (wired viewer ∧ truthy (syncCameras viewer) = true ∧
   _isUpdatingCamera viewer = false) ∧
  ∃ v', poseChange X0 2 SlotA rotated viewer = Done v' ∧
        poseOf SlotA v' = Some rotated ∧
        poseOf SlotB v' = Some rotated ∧
        _isUpdatingCamera v' = false.
Proof.
  assert (wired viewer) as H1 by (intros []; reflexivity).
  assert (truthy (syncCameras viewer) = true) as H2 by reflexivity.
  assert (_isUpdatingCamera viewer = false) as H3 by reflexivity.
  split; [done|].
  destruct (camera_sync_never_cycles X0 0 rotated viewer _ _ H1 H2 H3
              eq_refl eq_refl) as [_ (v' & Hv & Ha & Hb & _ & Hg)].
  exists v'. unfold poseOf. simpl. rewrite Ha, Hb. done.
Defined.

(** C3 at the sample datasets: the ranges [0, 10] and [5, 20] give
    [0, 20] in either order, and a lone [0, 10] is returned as it is. *)
Lemma calculateSynchronizedRange_union_witness :
  FieldVisualization.calculateSynchronizedRange [dataset1; dataset2]
    "point:height" = inr (0, 20) ∧
  FieldVisualization.calculateSynchronizedRange [dataset2; dataset1]
    "point:height" = inr (0, 20) ∧
  FieldVisualization.calculateSynchronizedRange [plain; dataset1; plain]
    "point:height" = inr (0, 10).
Proof.
  assert ([dataset1; dataset2] ≡ₚ [dataset2; dataset1]) as H1
    by apply perm_swap.
  assert (ranges dataset1 !! "point:height" = Some (0, 10)) as H2
    by reflexivity.
  assert (ranges dataset2 !! "point:height" = Some (5, 20)) as H3
    by reflexivity.
  assert (Forall (fun d => ranges d !! "point:height" = None)
            ([plain] ++ [plain])) as H4
    by (repeat constructor).
  destruct (calculateSynchronizedRange_union
              [dataset1; dataset2] [dataset2; dataset1] [plain] [plain]
              dataset1 dataset2 "point:height" 0 10 5 20 H1 H2 H3 H4)
    as (_ & K1 & K2 & K3).
  repeat split; assumption.
Defined.

(** C4 at the sample viewers: a second load into viewport A fails. *)
Lemma failed_load_keeps_filename_witness :
  (viewport_of (select (Str "A")) loaded
   = Some {| id := "A";
             camera := mkCamera defaultPose [SyncCameraFrom SlotA];
             scene := [1%nat];
             actors := [1%nat];
             polyData := Some dataset1;
             filename := Str "mesh1.obj" |} ∧
   Base.renderer base = Some []) ∧
  ∃ v1 v2,
    loadMesh (Str "A") (Str "mesh2.obj") loaded = Done v1 ∧
    loadMesh_rejected 1 (LoadError "404") v1 = Raised (LoadError "404") v2 ∧
    log v2 = log loaded ++
      [ConsoleError (Str "A") (LoadError "404");
       SendError (Str "A") (LoadError "404")].
Proof.
  assert (viewport_of (select (Str "A")) loaded
          = Some {| id := "A";
                    camera := mkCamera defaultPose [SyncCameraFrom SlotA];
                    scene := [1%nat];
                    actors := [1%nat];
                    polyData := Some dataset1;
                    filename := Str "mesh1.obj" |}) as H1 by reflexivity.
  assert (Base.renderer base = Some []) as H2 by reflexivity.
  split; [done|].
  destruct (failed_load_keeps_filename (Str "A") (Str "mesh2.obj")
              (Str "mesh2.obj") (LoadError "404") loaded _ base [] H1 H2)
    as [(v1 & v2 & K1 & K2 & _ & _ & _ & _ & _ & K3 & _) _].
  by exists v1, v2.
Defined.

(** C4 as stated fails: after the failed load viewport A has no actor
    left, yet still holds the dataset and the filename of [mesh1.obj]; it
    is neither what it was before nor cleared. *)
Lemma failed_load_leaves_stale_dataset :
  ∃ v2 vp vp2,
    viewportA loaded = Some vp ∧
    (v1 ← loadMesh (Str "A") (Str "mesh2.obj") loaded;
     loadMesh_rejected 1 (LoadError "404") v1) = Raised (LoadError "404") v2 ∧
    viewportA v2 = Some vp2 ∧
    dataset vp2 = ([], Some dataset1, Str "mesh1.obj") ∧
    dataset vp2 ≠ dataset vp ∧
    ¬ cleared vp2.
Proof.
  eexists. eexists. eexists.
  split; [reflexivity|]. split; [vm_compute; reflexivity|].
  split; [reflexivity|]. split; [vm_compute; reflexivity|].
  split; vm_compute; discriminate.
Qed.

(** C5 at the sample viewers. *)
Lemma destroy_keeps_references_witness :
  Base.renderer base = Some [] ∧
  log (destroy (destroy viewer)) = log viewer ++ releases viewer ++ releases viewer ∧
  ∃ w1 w2, Base.destroy base = Done w1 ∧ Base.destroy w1 = Done w2.
Proof.
  assert (Base.renderer base = Some []) as H1 by reflexivity.
  split; [done|].
  destruct (destroy_keeps_references viewer base [] H1)
    as [(_ & K & _) (w1 & w2 & K1 & K2 & _)].
  split; [exact K|by exists w1, w2].
Defined.

(** C5 as stated fails: after [destroy] the viewer still references both
    viewport objects. *)
Lemma destroy_leaves_viewports :
  ¬ released (destroy viewer) ∧
  is_Some (viewportA (destroy viewer)) ∧
  is_Some (viewportB (destroy viewer)).
Proof.
  split; [intros [H _]; vm_compute in H; discriminate|].
  split; vm_compute; eauto.
Qed.

(** C6 at the message [{foo: "bar"}]. *)
Lemma malformed_message_ignored_witness :
  (unrecognized Dual.messageTypes fooBar ∧
   unrecognized Standard.messageTypes fooBar) ∧
  Dual.onMessage fooBar viewer = Done viewer ∧
  Standard.onMessage fooBar standard = Done standard.
Proof.
  assert (∀ types, unrecognized types fooBar) as H.
  { intros types t _. vm_compute. discriminate. }
  split; [by split|].
  apply (malformed_message_ignored fooBar fooBar viewer standard); apply H.
Defined.

(** C7 at the sample viewer: sync is switched off, then A is rotated. *)
Lemma sync_off_stops_propagation_witness :
  is_Some (viewportA viewer) ∧
  ∃ v0 v', setCameraSync (Bool false) viewer = Done v0 ∧
           poseChanges X0 1 SlotA [rotated] v0 = Done v' ∧
           poseOf SlotB v' = Some defaultPose.
Proof.
  assert (is_Some (viewportA viewer)) as H by (simpl; eauto).
  split; [done|].
  destruct (sync_off_stops_propagation X0 0 [rotated] viewer H)
    as (v0 & v' & K0 & K1 & _ & K2 & _).
  by exists v0, v'.
Defined.

(** C9 at the sample viewer, which has no dataset loaded. *)
Lemma sync_ignores_loaded_state_witness :
  (live viewer ∧ wired viewer ∧ truthy (syncCameras viewer) = true ∧
   _isUpdatingCamera viewer = false ∧
   polyData <$> viewportA viewer = Some None) ∧
  ∃ v', poseChange X0 2 SlotB rotated viewer = Done v' ∧
        poseOf SlotA v' = Some rotated.
Proof.
  assert (live viewer) as H0 by reflexivity.
  assert (wired viewer) as H1 by (intros []; reflexivity).
  assert (truthy (syncCameras viewer) = true) as H2 by reflexivity.
  assert (_isUpdatingCamera viewer = false) as H3 by reflexivity.
  split; [done|].
  destruct (sync_ignores_loaded_state X0 0 SlotB rotated viewer _ _ H0 H1 H2
              H3 eq_refl eq_refl)
    as (v' & K1 & _ & K2 & _).
  by exists v'.
Defined.

(** C9 as stated fails: no dataset is loaded in either viewport, and a
    pose change on the camera of A still moves the camera of B. *)
Lemma sync_without_datasets :
  ∃ v',
    polyData <$> viewportA viewer = Some None ∧
    polyData <$> viewportB viewer = Some None ∧
    truthy (syncCameras viewer) = true ∧
    poseChange X0 2 SlotA rotated viewer = Done v' ∧
    poseOf SlotB viewer = Some defaultPose ∧
    poseOf SlotB v' = Some rotated ∧
    poseOf SlotB v' ≠ poseOf SlotB viewer.
Proof.
  eexists.
  split; [reflexivity|]. split; [reflexivity|]. split; [reflexivity|].
  split; [vm_compute; reflexivity|]. split; [reflexivity|].
  split; [vm_compute; reflexivity|].
  vm_compute. discriminate.
Qed.

(** C10 at the identifiers ['C'] and [undefined]. *)
Lemma unknown_viewport_is_B_witness :
  (Str "C" ≠ Str "A" ∧ Undefined ≠ Str "A") ∧
  getViewport (Str "C") viewer = viewportB viewer ∧
  getViewport Undefined viewer = viewportB viewer ∧
  ∃ v', loadMesh Undefined (Str "mesh1.obj") viewer = Done v' ∧
        viewportA v' = viewportA viewer ∧
        inflight v' !! 0%nat
        = Some (mkSuspended SlotB Undefined (Str "mesh1.obj")).
Proof.
  assert (Str "C" ≠ Str "A") as H1 by discriminate.
  assert (Undefined ≠ Str "A") as H2 by discriminate.
  split; [done|].
  destruct (unknown_viewport_is_B (Str "C") (Str "mesh1.obj") viewer H1)
    as (_ & K1 & _).
  destruct (unknown_viewport_is_B Undefined (Str "mesh1.obj") viewer H2)
    as (_ & K2 & K3).
  split; [exact K1|]. split; [exact K2|].
  eexists. split; [exact K3|]. split; reflexivity.
Defined.

End Examples.

(** * Further properties of the code *)

(** ** Life cycle of a DualViewer *)

Section Lifecycle.

Import Js Vtk Dual.

(** X1: [initialize] runs once.  On a freshly constructed DualViewer it
    creates both viewports and subscribes to each camera exactly one
    synchronization closure when [syncCameras] is on, and none when it is
    off; every later call returns at once and leaves the viewer as it is.
    When the rendering library is missing the call fails before any
    viewport exists, and a later call starts from scratch as the first one
    would have. *)
Theorem initialize_runs_once (cfg : gmap string value) :
  (∃ v,
     initialize true (new cfg) = Done v ∧
     ready v ∧
     (∀ s, observers ∘ camera <$> viewport_of s v
           = Some (if truthy (prop (cfg ∪ DUAL_CONFIG) "syncCameras")
                   then [SyncCameraFrom s] else [])) ∧
     (∀ window_vtk, initialize window_vtk v = Done v)) ∧
  (∃ v0,
     initialize false (new cfg) = Raised VtkNotLoaded v0 ∧
     released v0 ∧ isInitialized v0 = false ∧
     initialize true v0 = initialize true (new cfg)).
Proof.
  split.
  - unfold initialize, new. cbn [isInitialized set_vtk vtk negb syncCameras
      set_viewportA set_viewportB config viewportA viewportB layout syncFields
      _isUpdatingCamera _messageCleanup _resizeObserverA _resizeObserverB
      inflight issued log].
    destruct (truthy (prop (cfg ∪ DUAL_CONFIG) "syncCameras")) eqn:E.
    + eexists. split; [reflexivity|]. split; [|split].
      * intros []; eexists; reflexivity.
      * intros []; reflexivity.
      * reflexivity.
    + eexists. split; [reflexivity|]. split; [|split].
      * intros []; eexists; reflexivity.
      * intros []; reflexivity.
      * reflexivity.
  - eexists. split; [reflexivity|]. repeat split.
Qed.

End Lifecycle.

(** ** Messages to a DualViewer *)

Section Messages.

Import Js Vtk Dual.

Lemma forget_loadMesh (viewport url : value) (v : DualViewer) :
  ∃ v', forget (loadMesh viewport url v) = Done v'.
Proof.
  unfold loadMesh, try_catch, loadMesh_catch.
  destruct (viewport_of (select viewport) v); [eexists; reflexivity|].
  destruct (printable viewport); eexists; reflexivity.
Qed.

(** X3: which messages make the callback of a DualViewer throw.  The
    promises of [loadMesh] and [captureScreenshot] are not awaited, so
    their rejection (a viewer without viewports) never reaches the
    listener: the load messages, [screenshot] and every unrecognized
    message return.  [setLayout] and [setCameraSync] return when their
    payload can be converted to a string; when it cannot, the field has
    already been assigned and building the log text throws a [TypeError]
    that escapes the callback with nothing logged.  Every message other
    than these two and [setField] returns. *)
Theorem onMessage_exceptions (data : gmap string value) (v : DualViewer) :
  (prop data "type" = Str "setLayout" →
   onMessage data v
   = if printable (prop data "layout")
     then Done (record (ConsoleLog "[DualViewer] Layout set")
                  (set_layout (prop data "layout") v))
     else Raised TypeError (set_layout (prop data "layout") v)) ∧
  (prop data "type" = Str "setCameraSync" →
   onMessage data v
   = if printable (prop data "enabled")
     then Done (record (ConsoleLog "[DualViewer] Camera sync")
                  (set_syncCameras (prop data "enabled") v))
     else Raised TypeError (set_syncCameras (prop data "enabled") v)) ∧
  (prop data "type" ≠ Str "setField" →
   prop data "type" ≠ Str "setLayout" →
   prop data "type" ≠ Str "setCameraSync" →
   ∃ v', onMessage data v = Done v').
Proof.
  split; [|split].
  - intros E. unfold onMessage. rewrite E. reflexivity.
  - intros E. unfold onMessage. rewrite E. reflexivity.
  - intros Ht Hl Hc. unfold onMessage.
    rewrite (is_str_ne _ "setField" Ht), (is_str_ne _ "setLayout" Hl),
      (is_str_ne _ "setCameraSync" Hc).
    repeat match goal with
           | |- context [if ?b then _ else _] => destruct b
           end;
      try apply forget_loadMesh; try (eexists; reflexivity).
    unfold captureScreenshot.
    destruct (viewportA v), (viewportB v); eexists; reflexivity.
Qed.

(** What a load request for [ident] leaves behind on a viewer with both
    viewports. *)
Lemma load_request_files (ident url : value) (v : DualViewer) :
  ready v →
  ∃ v',
    forget (loadMesh ident url v) = Done v' ∧
    inflight v' !! issued v = Some (mkSuspended (select ident) ident url) ∧
    viewport_of (select ident) v' = detach <$> viewport_of (select ident) v.
Proof.
  intros Hr. destruct (Hr (select ident)) as [w Hw].
  rewrite (loadMesh_issues ident url v w Hw), Hw. eexists.
  split; [reflexivity|]. split.
  - cbn [inflight set_issued set_inflight]. apply lookup_insert_eq.
  - destruct (select ident); reflexivity.
Qed.

(** X4: where a load message goes.  [loadMeshA] and [loadMeshB] load into
    viewport A and B whatever else the message holds.  [loadMesh] loads
    into A when its [viewport] is missing, falsy or ['A'], and into B for
    every other value.  In each case the pending load is filed with the
    message's [url] and the actors of the target viewport are detached at
    once. *)
Theorem load_message_routing (data : gmap string value) (v : DualViewer) :
  ready v →
  (prop data "type" = Str "loadMeshA" →
   ∃ v', onMessage data v = Done v' ∧
         inflight v' !! issued v
         = Some (mkSuspended SlotA (Str "A") (prop data "url")) ∧
         viewportA v' = detach <$> viewportA v) ∧
  (prop data "type" = Str "loadMeshB" →
   ∃ v', onMessage data v = Done v' ∧
         inflight v' !! issued v
         = Some (mkSuspended SlotB (Str "B") (prop data "url")) ∧
         viewportB v' = detach <$> viewportB v) ∧
  (prop data "type" = Str "loadMesh" →
   ∃ v', onMessage data v = Done v' ∧
         inflight v' !! issued v
         = Some (mkSuspended
                   (if truthy (prop data "viewport")
                       && negb (is_str (prop data "viewport") "A")
                    then SlotB else SlotA)
                   (if truthy (prop data "viewport")
                    then prop data "viewport" else Str "A")
                   (prop data "url")) ∧
         viewport_of (if truthy (prop data "viewport")
                         && negb (is_str (prop data "viewport") "A")
                      then SlotB else SlotA) v'
         = detach <$> viewport_of
                        (if truthy (prop data "viewport")
                            && negb (is_str (prop data "viewport") "A")
                         then SlotB else SlotA) v).
Proof.
  intros Hr.
  repeat split; intros Ht; unfold onMessage; rewrite Ht;
    cbn [is_str String.eqb Ascii.eqb Bool.eqb].
  - apply (load_request_files (Str "A") _ v Hr).
  - apply (load_request_files (Str "B") _ v Hr).
  - destruct (truthy (prop data "viewport")) eqn:E.
    + destruct (load_request_files (prop data "viewport") (prop data "url") v Hr)
        as (v' & H1 & H2 & H3).
      exists v'. unfold select in *. simpl.
      destruct (is_str (prop data "viewport") "A"); auto.
    + apply (load_request_files (Str "A") _ v Hr).
Qed.

(** X5: only BaseViewer and StandardViewer check that a load message has
    a [url].  They ignore a [loadMesh] message whose [url] is missing or
    falsy; a DualViewer starts the load all the same, detaching the actors
    of the target viewport and filing a load of that falsy [url]. *)
Theorem load_message_without_url (data : gmap string value)
  (v : DualViewer) (w : Base.BaseViewer) (s : Standard.StandardViewer) :
  ready v →
  prop data "type" = Str "loadMesh" →
  truthy (prop data "url") = false →
  truthy (prop data "viewport") = false →
  Base.onMessage data w = Done w ∧
  Standard.onMessage data s = Done s ∧
  ∃ v', Dual.onMessage data v = Done v' ∧
        inflight v' !! issued v
        = Some (mkSuspended SlotA (Str "A") (prop data "url")) ∧
        viewportA v' = detach <$> viewportA v.
Proof.
  intros Hr Ht Hu Hv. split; [|split].
  - unfold Base.onMessage. rewrite Ht, Hu. reflexivity.
  - unfold Standard.onMessage, Standard.onFieldMessage. rewrite Ht, Hu.
    reflexivity.
  - unfold Dual.onMessage. rewrite Ht, Hv.
    cbn [is_str String.eqb Ascii.eqb Bool.eqb].
    apply (load_request_files (Str "A") _ v Hr).
Qed.

End Messages.

(** ** Field visualization on both viewports *)

Section Fields.

Import Js Vtk Dual DualView.

Lemma applyTo_applied (s : slot) (f range : value) (v : DualViewer) :
  is_Some (viewport_of s v) →
  applyTo s f range v = Done (set_log (log v ++ applied s f range v) v).
Proof.
  intros [vp Hvp]. unfold applyTo, applied. rewrite Hvp.
  destruct v. simpl.
  destruct (polyData vp), (actors vp); simpl; rewrite ?app_nil_r; reflexivity.
Qed.

Lemma applied_set_log (s : slot) (f range : value) (l : list effect)
  (v : DualViewer) :
  applied s f range (set_log l v) = applied s f range v.
Proof. by destruct s. Qed.

Lemma apply_both (f range : value) (v : DualViewer) :
  ready v →
  (v ← applyTo SlotA f range v; v ← applyTo SlotB f range v; Done (render v))
  = Done (set_log (log v ++ applied SlotA f range v ++ applied SlotB f range v
                   ++ [Render SlotA; Render SlotB]) v).
Proof.
  intros Hr. rewrite (applyTo_applied SlotA), bind_done by apply Hr.
  rewrite (applyTo_applied SlotB), bind_done by apply (Hr SlotB).
  rewrite applied_set_log. unfold render, record. cbn [log set_log].
  rewrite <- !app_assoc. reflexivity.
Qed.

(** X6: with an explicit range, or with field sync off, [applyField]
    computes nothing.  On a viewer with fields enabled and both viewports
    in place that has not been destroyed, it makes these calls and no
    other, whatever the field name: one on the field visualization, with
    the very range it was given, for every viewport that holds a dataset
    and an actor, then a render of both viewports.  (The calls on the
    field visualization are recorded, not interpreted: its class is not
    among the sources.)  Options that are [null] make the call throw a
    [TypeError] before anything is applied or rendered. *)
Theorem applyField_explicit_range (fieldName options : value)
  (v : DualViewer) :
  truthy (prop (config v) "enableFields") = true →
  ready v → live v →
  (∀ given,
     givenRange options = Some given →
     truthy given = true ∨ truthy (syncFields v) = false →
     applyField fieldName options v
     = Done (set_log (log v ++ applied SlotA fieldName given v
                      ++ applied SlotB fieldName given v
                      ++ [Render SlotA; Render SlotB]) v)) ∧
  (options = Null → applyField fieldName options v = Raised TypeError v).
Proof.
  intros He Hr _. split.
  - intros given Hg Hcase. unfold applyField. rewrite He. cbn [negb].
    unfold givenRange in Hg. rewrite Hg.
    assert (fieldRange fieldName given v = Done given) as ->.
    { unfold fieldRange. destruct Hcase as [-> | ->].
      - by rewrite andb_false_r.
      - reflexivity. }
    rewrite bind_done. by apply apply_both.
  - intros ->. unfold applyField. by rewrite He.
Qed.

(** X7: with field sync on and no range given, [applyField] hands both
    viewports the one synchronized range of the datasets that are loaded.
    When no loaded dataset has the field, the error of the range
    computation escapes before anything is applied or rendered: the viewer
    is left exactly as it was. *)
Theorem applyField_synchronized (f : string) (options given : value)
  (v : DualViewer) (a b : Viewport) :
  truthy (prop (config v) "enableFields") = true →
  viewportA v = Some a → viewportB v = Some b →
  givenRange options = Some given →
  truthy given = false → truthy (syncFields v) = true →
  omap polyData [a; b] ≠ [] →
  applyField (Str f) options v
  = match FieldVisualization.calculateSynchronizedRange
            (omap polyData [a; b]) f with
    | inr (lo, hi) =>
        Done (set_log (log v
                       ++ applied SlotA (Str f) (Arr [Num lo; Num hi]) v
                       ++ applied SlotB (Str f) (Arr [Num lo; Num hi]) v
                       ++ [Render SlotA; Render SlotB]) v)
    | inl e => Raised e v
    end.
Proof.
  intros He Ha Hb Hg Hgiven Hsync Hdata. unfold applyField. rewrite He.
  cbn [negb]. unfold givenRange in Hg. rewrite Hg.
  unfold fieldRange. rewrite Hsync, Hgiven, Ha, Hb. cbn [negb andb].
  destruct (omap polyData [a; b]) as [|d ds] eqn:E; [done|].
  destruct (FieldVisualization.calculateSynchronizedRange (d :: ds) f)
    as [e|[lo hi]]; [reflexivity|].
  rewrite bind_done. apply apply_both. intros []; simpl; eauto.
Qed.

End Fields.

(** ** Camera views and the camera after a load *)

Section Views.

Import Js Vtk Dual.

Variable X : Externals.

Lemma poseOf_render (s : slot) (v : DualViewer) :
  poseOf s (render v) = poseOf s v.
Proof. by destruct s. Qed.

(** X8: on a viewer whose cameras are wired for synchronization, or whose
    synchronization is off, [setCameraView] leaves both cameras at the
    view pose computed from the actors of both viewports together, and
    touches no dataset. *)
Theorem setCameraView_moves_both (fuel : nat) (direction : value)
  (v : DualViewer) (a b : Viewport) :
  viewportA v = Some a → viewportB v = Some b →
  actors a ++ actors b ≠ [] →
  _isUpdatingCamera v = false →
  wired v ∨ truthy (syncCameras v) = false →
  ∃ v',
    setCameraView X (S (S fuel)) direction v = Done v' ∧
    poseOf SlotA v' = Some (viewPose X direction (actors a ++ actors b)) ∧
    poseOf SlotB v' = Some (viewPose X direction (actors a ++ actors b)) ∧
    (∀ s, dataset <$> viewport_of s v' = dataset <$> viewport_of s v).
Proof.
  intros Ha Hb Hne Hg Hcase. unfold setCameraView. rewrite Ha, Hb.
  destruct (actors a ++ actors b) as [|x l] eqn:E; [done|].
  set (p := viewPose X direction (x :: l)).
  destruct (truthy (syncCameras v)) eqn:Es.
  - destruct Hcase as [Hw|]; [|done].
    destruct (poseChange_synced X fuel SlotA p v a b Hw Es Hg Ha Hb)
      as (v1 & -> & HA & HB & _ & _ & Hf).
    rewrite bind_done, (frame_syncCameras _ _ Hf), Es. cbn [negb].
    rewrite bind_done. eexists. split; [reflexivity|].
    rewrite !poseOf_render. unfold poseOf. cbn [other] in HB.
    rewrite HA, HB. repeat split.
    intros s. unfold render. rewrite !viewport_of_record.
    apply (frame_dataset _ _ _ Hf).
  - rewrite (poseChange_unsynced X (S fuel) SlotA p v a Es Ha), bind_done.
    cbn [syncCameras set_viewport set_viewportA]. rewrite Es. cbn [negb].
    rewrite (poseChange_unsynced X (S fuel) SlotB p _ b); [|exact Es|exact Hb].
    rewrite bind_done. eexists. split; [reflexivity|].
    split; [reflexivity|]. split; [reflexivity|].
    intros []; cbn [viewport_of render record set_log viewportA viewportB
                    set_viewport set_viewportA set_viewportB];
      rewrite ?Ha, ?Hb; reflexivity.
Qed.

Lemma configure_flags (s : slot) (r : Loader.Result) (v : DualViewer) :
  _isUpdatingCamera (configure s r v) = _isUpdatingCamera v ∧
  syncCameras (configure s r v) = syncCameras v.
Proof.
  unfold configure.
  destruct (_ && _); [done|]. destruct (Loader.hasVertexColors r); [|done].
  by destruct (truthy _).
Qed.

(** X11: a completed load positions the cameras.  On a viewer that has
    not been destroyed, when the loader returns actors with valid bounds,
    the camera of the target viewport is put at the initial pose for
    those actors.  With synchronization on and the synchronization
    closures subscribed to the cameras (as [initialize] leaves a viewer
    constructed with [syncCameras] on) the other camera follows to the
    same pose; with synchronization off it stays where it was. *)
Theorem load_positions_cameras (fuel k : nat) (r : Loader.Result)
  (v : DualViewer) (c : Suspended) (p : Pose) :
  ready v → live v → inflight v !! k = Some c →
  _isUpdatingCamera v = false →
  Loader.actors r ≠ [] →
  initialPose X (Loader.actors r) = Some p →
  wired v ∨ truthy (syncCameras v) = false →
  ∃ v',
    loadMesh_resolved X (S (S fuel)) k r v = Done v' ∧
    poseOf (target c) v' = Some p ∧
    poseOf (other (target c)) v'
    = (if truthy (syncCameras v) then Some p
       else poseOf (other (target c)) v).
Proof.
  intros Hr _ Hk Hg Hne Hp Hcase. unfold loadMesh_resolved. rewrite Hk.
  destruct (Hr (target c)) as [vp Hvp].
  destruct (Hr (other (target c))) as [vt Hvt].
  set (v0 := set_inflight (delete k (inflight v)) v).
  assert (viewport_of (target c) v0 = Some vp) as -> by (by destruct (target c)).
  set (vp1 := set_scene _ _).
  set (w := set_viewport (target c) vp1 v0).
  set (v1 := configure (target c) r w).
  assert (viewport_of (target c) v1 = Some vp1) as H1.
  { unfold v1. rewrite (proj2 (configure_frame _ _ _)).
    apply viewport_of_set_same. }
  assert (viewport_of (other (target c)) v1 = Some vt) as H1'.
  { unfold v1. rewrite (proj2 (configure_frame _ _ _)).
    unfold w. rewrite viewport_of_other_set. rewrite <- Hvt.
    by destruct (target c). }
  assert (syncCameras v1 = syncCameras v) as Hs1.
  { unfold v1. rewrite (proj2 (configure_flags _ _ _)). by destruct (target c). }
  assert (_isUpdatingCamera v1 = false) as Hg1.
  { unfold v1. rewrite (proj1 (configure_flags _ _ _)). rewrite <- Hg.
    by destruct (target c). }
  unfold _positionCameraForViewport. rewrite H1.
  assert (actors vp1 = Loader.actors r) as -> by reflexivity.
  destruct (Loader.actors r) as [|x l] eqn:E; [done|]. rewrite Hp.
  destruct (truthy (syncCameras v)) eqn:Es.
  - destruct Hcase as [Hw|]; [|done].
    assert (wired v1) as Hw1.
    { apply (frame_wired w); [apply configure_frame|].
      intros s. specialize (Hw s). unfold w.
      destruct (decide (s = target c)) as [->|Hn].
      - rewrite viewport_of_set_same. rewrite Hvp in Hw. exact Hw.
      - assert (s = other (target c)) as -> by (by destruct s, (target c)).
        rewrite viewport_of_other_set. rewrite <- Hw. by destruct (target c). }
    rewrite <- Hs1 in Es.
    destruct (poseChange_synced X fuel (target c) p v1 vp1 vt Hw1 Es Hg1 H1 H1')
      as (v2 & -> & HA & HB & _).
    rewrite bind_done. simpl try_catch. eexists. split; [reflexivity|].
    unfold poseOf. rewrite !viewport_of_record, HA, HB. done.
  - rewrite <- Hs1 in Es.
    rewrite (poseChange_unsynced X (S fuel) (target c) p v1 vp1 Es H1).
    rewrite bind_done. simpl try_catch. eexists. split; [reflexivity|].
    unfold poseOf.
    rewrite !viewport_of_record, viewport_of_set_same, viewport_of_other_set.
    rewrite H1'. split; [done|]. by rewrite Hvt.
Qed.

End Views.

(** ** Actors attached to a renderer *)

Section Scenes.

Import Js Vtk Dual DualView.

Variable X : Externals.

Lemma elem_of_foldl_addActor (l sc : list actor) (a : actor) :
  a ∈ foldl addActor sc l ↔ a ∈ sc ∨ a ∈ l.
Proof.
  revert sc. induction l as [|x l IH]; intros sc; simpl.
  - rewrite elem_of_nil. tauto.
  - rewrite IH, elem_of_cons. unfold addActor. case_bool_decide as Hx.
    + split; [tauto|]. intros [?|[->|?]]; auto.
    + rewrite elem_of_app, list_elem_of_singleton. tauto.
Qed.

Lemma frame_viewport (s : slot) (v v' : DualViewer) :
  frame v' = frame v →
  set_pose defaultPose <$> viewport_of s v'
  = set_pose defaultPose <$> viewport_of s v.
Proof.
  intros Hf. unfold frame in Hf.
  injection Hf as _ _ Ha Hb _ _ _ _ _ _ _ _ _. by destruct s.
Qed.

Lemma frame_scene (s : slot) (v v' : DualViewer) :
  frame v' = frame v →
  scene <$> viewport_of s v' = scene <$> viewport_of s v.
Proof.
  intros Hf. pose proof (frame_viewport s _ _ Hf) as H.
  destruct (viewport_of s v'), (viewport_of s v); simpl in *; try done.
  unfold set_pose in H. congruence.
Qed.

(** The renderer and the actor list of the viewport a completed load was
    issued for. *)
Lemma loadMesh_resolves_scene (fuel k : nat) (r : Loader.Result)
  (v : DualViewer) (c : Suspended) (vp : Viewport) :
  ready v → inflight v !! k = Some c →
  viewport_of (target c) v = Some vp →
  ∃ v' vp',
    loadMesh_resolved X (S (S fuel)) k r v = Done v' ∧
    viewport_of (target c) v' = Some vp' ∧
    scene vp' = foldl addActor (scene vp) (Loader.actors r) ∧
    actors vp' = Loader.actors r ∧
    inflight v' = delete k (inflight v) ∧
    ready v'.
Proof.
  intros Hr Hk Hvp.
  destruct (loadMesh_resolves X fuel k r v c Hr Hk)
    as (v' & Hrun & Hd & _ & Hi & _ & Hr').
  destruct (Hr' (target c)) as [vp' Hvp']. exists v', vp'.
  rewrite Hvp' in Hd. injection Hd as Ha _ _.
  repeat split; try done.
  revert Hrun. unfold loadMesh_resolved. rewrite Hk.
  set (v0 := set_inflight (delete k (inflight v)) v).
  assert (viewport_of (target c) v0 = Some vp) as -> by (by destruct (target c)).
  set (vp1 := set_scene _ _).
  set (v1 := configure (target c) r (set_viewport (target c) vp1 v0)).
  assert (ready v1) as Hr1.
  { intros t. unfold v1. rewrite (proj2 (configure_frame _ _ _)).
    by apply ready_set_viewport, ready_set_inflight. }
  destruct (positionCamera_frame X fuel (target c) v1 Hr1) as (v2 & -> & Hf2).
  rewrite bind_done. simpl try_catch. intros [= <-].
  assert (frame v2 = frame (set_viewport (target c) vp1 v0)) as Hf.
  { rewrite Hf2. apply configure_frame. }
  pose proof (frame_scene (target c) _ _ Hf) as Hs.
  rewrite !viewport_of_record in Hvp'. rewrite Hvp' in Hs.
  rewrite viewport_of_set_same in Hs. by injection Hs as ->.
Qed.

(** X9: a load that completes before the next one starts keeps renderer
    and actor list in step.  If every actor attached to the target
    viewport's renderer is listed by the viewport, then after [loadMesh]
    and its completion the renderer shows exactly the actors of the
    result, and the viewport lists exactly those. *)
Theorem load_keeps_scene_consistent (fuel : nat) (viewport url : value)
  (r : Loader.Result) (v : DualViewer) (vp : Viewport) :
  ready v → viewport_of (select viewport) v = Some vp →
  (∀ x, x ∈ scene vp → x ∈ actors vp) →
  ∃ v1 v2 vp2,
    loadMesh viewport url v = Done v1 ∧
    loadMesh_resolved X (S (S fuel)) (issued v) r v1 = Done v2 ∧
    viewport_of (select viewport) v2 = Some vp2 ∧
    actors vp2 = Loader.actors r ∧
    consistent vp2.
Proof.
  intros Hr Hvp Hsub.
  destruct (loadMesh_suspends viewport url v Hr)
    as (v1 & vp0 & H1 & Hvp0 & Hvp1 & _ & Hi1 & _ & _ & Hr1).
  rewrite Hvp in Hvp0. injection Hvp0 as <-.
  assert (inflight v1 !! issued v
          = Some (mkSuspended (select viewport) viewport url)) as Hk.
  { rewrite Hi1. apply lookup_insert_eq. }
  destruct (loadMesh_resolves_scene fuel (issued v) r v1 _ (detach vp) Hr1 Hk Hvp1)
    as (v2 & vp2 & H2 & Hvp2 & Hs & Ha & _ & _).
  exists v1, v2, vp2. repeat split; try done.
  - rewrite Hs, Ha, elem_of_foldl_addActor. intros [Hx|Hx]; [|done].
    unfold detach in Hx. cbn [scene set_actors set_scene] in Hx.
    apply elem_of_foldl_removeActor in Hx as [Hx Hn]. by apply Hsub in Hx.
  - rewrite Hs, Ha, elem_of_foldl_addActor. auto.
Qed.

(** X10: a load that is overtaken leaves actors behind.  When two loads
    are issued for one viewport and the second completes first, the actors
    of the second result stay attached to the renderer although the
    viewport no longer lists them; neither the next [loadMesh] nor
    [destroy] detaches them, since both walk the viewport's own list. *)
Theorem overtaken_load_orphans_actors (fuel : nat) (viewport u1 u2 u3 : value)
  (r1 r2 : Loader.Result) (v : DualViewer) :
  ready v →
  ∃ v1 v2 v3 v4 v5 vp4 vp5 vp6,
    loadMesh viewport u1 v = Done v1 ∧
    loadMesh viewport u2 v1 = Done v2 ∧
    loadMesh_resolved X (S (S fuel)) (S (issued v)) r2 v2 = Done v3 ∧
    loadMesh_resolved X (S (S fuel)) (issued v) r1 v3 = Done v4 ∧
    viewport_of (select viewport) v4 = Some vp4 ∧
    actors vp4 = Loader.actors r1 ∧
    loadMesh viewport u3 v4 = Done v5 ∧
    viewport_of (select viewport) v5 = Some vp5 ∧
    viewport_of (select viewport) (destroy v4) = Some vp6 ∧
    ∀ x, x ∈ Loader.actors r2 → x ∉ Loader.actors r1 →
         x ∈ scene vp4 ∧ (x ∉ actors vp4) ∧ x ∈ scene vp5 ∧ x ∈ scene vp6.
Proof.
  intros Hr.
  destruct (loadMesh_suspends viewport u1 v Hr)
    as (v1 & vp & H1 & Hvp & Hvp1 & _ & Hi1 & Hn1 & _ & Hr1).
  destruct (loadMesh_suspends viewport u2 v1 Hr1)
    as (v2 & vp1' & H2 & Hvp1' & Hvp2 & _ & Hi2 & Hn2 & _ & Hr2).
  rewrite Hn1 in Hi2.
  assert (inflight v2 !! S (issued v)
          = Some (mkSuspended (select viewport) viewport u2)) as Hk2.
  { rewrite Hi2. apply lookup_insert_eq. }
  destruct (loadMesh_resolves_scene fuel _ r2 v2 _ _ Hr2 Hk2 Hvp2)
    as (v3 & vp3 & H3 & Hvp3 & Hs3 & Ha3 & Hi3 & Hr3).
  assert (inflight v3 !! issued v
          = Some (mkSuspended (select viewport) viewport u1)) as Hk1.
  { rewrite Hi3, Hi2, Hi1, lookup_delete_ne, lookup_insert_ne by lia.
    apply lookup_insert_eq. }
  destruct (loadMesh_resolves_scene fuel _ r1 v3 _ _ Hr3 Hk1 Hvp3)
    as (v4 & vp4 & H4 & Hvp4 & Hs4 & Ha4 & _ & Hr4).
  destruct (loadMesh_suspends viewport u3 v4 Hr4)
    as (v5 & vp4' & H5 & Hvp4' & Hvp5 & _).
  cbn [target] in *. rewrite Hvp4 in Hvp4'. injection Hvp4' as <-.
  exists v1, v2, v3, v4, v5, vp4, (detach vp4), (torn vp4).
  split; [done|]. split; [done|]. split; [done|]. split; [done|].
  split; [done|]. split; [done|]. split; [done|]. split; [done|].
  split.
  { rewrite (proj1 (proj2 (destroy_spec v4))), Hvp4. reflexivity. }
  intros x Hx2 Hx1. repeat split.
  - rewrite Hs4, Hs3, !elem_of_foldl_addActor. auto.
  - by rewrite Ha4.
  - unfold detach. cbn [scene set_actors set_scene].
    rewrite elem_of_foldl_removeActor, Hs4, Hs3, Ha4, !elem_of_foldl_addActor.
    auto.
  - unfold torn. cbn [scene set_scene].
    rewrite elem_of_foldl_removeActor, Hs4, Hs3, Ha4, !elem_of_foldl_addActor.
    auto.
Qed.

End Scenes.

(** ** Teardown of a BaseViewer *)

Section BaseTeardown.

Import Js Vtk BaseView.

Lemma base_when (b : bool) (e : Base.effect) (w : Base.BaseViewer) :
  (if b then Base.record e w else w)
  = Base.set_log (Base.log w ++ if b then [e] else []) w.
Proof. destruct w, b; simpl; rewrite ?app_nil_r; reflexivity. Qed.

Lemma base_removeOverlay (name : string) (o : option bool)
  (w : Base.BaseViewer) :
  Base.removeOverlay name o w
  = Base.set_log (Base.log w ++ match o with
                                | Some true => [Base.RemoveOverlay name]
                                | _ => []
                                end) w.
Proof.
  destruct w, o as [[]|]; simpl; rewrite ?app_nil_r; reflexivity.
Qed.

Ltac base_norm H :=
  cbn [Base.config Base.vtk Base.renderWindow Base.renderer Base.interactor
       Base.openGLRenderWindow Base.screenshotCapture Base.axisIndicator
       Base.fieldVisualization Base.textureManager Base.actors Base.polyDatas
       Base.currentFilename Base.isInitialized Base.loadingOverlay
       Base.infoOverlay Base._messageCleanup Base._resizeObserver
       Base.inflight Base.issued Base.log Base.set_log Base.set_polyDatas
       Base.set_actors Base.set_renderer] in H.

Lemma base_destroy_log (sc : list actor) (w : Base.BaseViewer) :
  Base.renderer w = Some sc →
  ∃ w1,
    Base.destroy w = Done w1 ∧
    Base.log w1 = Base.log w ++ (handleReleases w).1
                  ++ (Base.ActorRemoved <$> Base.actors w)
                  ++ (handleReleases w).2 ++ overlayRemovals w
                  ++ [Base.ConsoleLog "[BaseViewer] Destroyed"] ∧
    handleReleases w1 = handleReleases w ∧
    Base.actors w1 = [] ∧
    overlayRemovals w1 = [] ∧
    Base.renderer w1 = Some (foldl removeActor sc (Base.actors w)).
Proof.
  intros Hsc. unfold Base.destroy.
  set (a1 := if Base._messageCleanup w then _ else w).
  assert (a1 = Base.set_log
                 (Base.log w ++ if Base._messageCleanup w
                                 then [Base.MessageCleanup] else [])
                 w)
    as E1 by apply base_when. clearbody a1. unfold Base.set_log in E1.
  set (a2 := if Base._resizeObserver a1 then _ else a1).
  assert (a2 = Base.set_log
                 (Base.log a1 ++ if Base._resizeObserver a1
                                 then [Base.ResizeDisconnect] else [])
                 a1)
    as E2 by apply base_when. clearbody a2. subst a1. base_norm E2.
  set (a3 := if Base.axisIndicator a2 then _ else a2).
  assert (a3 = Base.set_log
                 (Base.log a2 ++ if Base.axisIndicator a2
                                 then [Base.AxisIndicatorDestroy] else [])
                 a2)
    as E3 by apply base_when. clearbody a3. subst a2. base_norm E3.
  assert (Base.renderer a3 = Some sc) as R3 by (by subst a3).
  rewrite (base_clearScene_eq sc a3 R3), bind_done.
  set (c := Base.set_polyDatas _ _).
  assert (c = Base.set_polyDatas []
            (Base.set_actors []
               (Base.set_renderer (Some (foldl removeActor sc (Base.actors a3)))
                  (Base.set_log
                     (Base.log a3 ++ (Base.ActorRemoved <$> Base.actors a3)) a3))))
    as Ec by reflexivity.
  clearbody c. subst a3. base_norm Ec.
  set (a5 := if Base.interactor c then _ else c).
  assert (a5 = Base.set_log
                 (Base.log c ++ if Base.interactor c
                                 then [Base.UnbindEvents] else [])
                 c)
    as E5 by apply base_when. clearbody a5. subst c. base_norm E5.
  set (a6 := if Base.openGLRenderWindow a5 then _ else a5).
  assert (a6 = Base.set_log
                 (Base.log a5 ++ if Base.openGLRenderWindow a5
                                 then [Base.DeleteOpenGLRenderWindow] else [])
                 a5)
    as E6 by apply base_when. clearbody a6. subst a5. base_norm E6.
  set (a7 := if Base.renderWindow a6 then _ else a6).
  assert (a7 = Base.set_log
                 (Base.log a6 ++ if Base.renderWindow a6
                                 then [Base.DeleteRenderWindow] else [])
                 a6)
    as E7 by apply base_when. clearbody a7. subst a6. base_norm E7.
  rewrite !base_removeOverlay.
  eexists. split; [reflexivity|].
  subst a7.
  unfold handleReleases, overlayRemovals, Base.record.
  cbn [Base.log Base.set_log Base.set_polyDatas Base.set_actors
       Base.set_renderer Base.set_loadingOverlay Base.set_infoOverlay
       Base._messageCleanup Base._resizeObserver Base.axisIndicator
       Base.interactor Base.openGLRenderWindow Base.renderWindow
       Base.loadingOverlay Base.infoOverlay Base.actors Base.renderer
       Base.detached fst snd].
  repeat split.
  - rewrite <- !app_assoc. reflexivity.
  - by destruct (Base.loadingOverlay w), (Base.infoOverlay w).
Qed.

(** [destroy] on a viewer with a render window leaves a viewer that is not
    [live]. *)
Lemma base_destroy_not_live (sc : list actor) (w w1 : Base.BaseViewer) :
  Base.renderer w = Some sc → Base.renderWindow w = true →
  Base.destroy w = Done w1 → ¬ live w1.
Proof.
  intros Hsc Hw Hd [_ Hl].
  destruct (base_destroy_log sc w Hsc) as (w' & Hd' & Hlog & _).
  rewrite Hd in Hd'. injection Hd' as <-.
  rewrite Hlog in Hl. unfold handleReleases in Hl. rewrite Hw in Hl.
  cbn [fst snd] in Hl. rewrite !existsb_app in Hl.
  cbn [existsb deletion] in Hl.
  rewrite ?orb_true_r in Hl. discriminate Hl.
Qed.

(** X12: a second [destroy] touches neither the scene nor the document.
    The first call detaches every listed actor and takes the overlay
    elements that still have a parent out of the document; a second call
    repeats only the calls on observers and library handles, with no actor
    detached and no overlay removed again. *)
Theorem base_destroy_again_spares_scene_and_document (sc : list actor)
  (w : Base.BaseViewer) :
  Base.renderer w = Some sc →
  ∃ w1 w2,
    Base.destroy w = Done w1 ∧
    Base.destroy w1 = Done w2 ∧
    Base.log w1 = Base.log w ++ (handleReleases w).1
                  ++ (Base.ActorRemoved <$> Base.actors w)
                  ++ (handleReleases w).2 ++ overlayRemovals w
                  ++ [Base.ConsoleLog "[BaseViewer] Destroyed"] ∧
    Base.log w2 = Base.log w1 ++ (handleReleases w).1 ++ (handleReleases w).2
                  ++ [Base.ConsoleLog "[BaseViewer] Destroyed"].
Proof.
  intros Hsc.
  destruct (base_destroy_log sc w Hsc) as (w1 & H1 & Hl1 & Hh & Ha & Ho & Hr).
  destruct (base_destroy_log _ w1 Hr) as (w2 & H2 & Hl2 & _).
  exists w1, w2. repeat split; try done.
  rewrite Hl2, Hh, Ha, Ho. reflexivity.
Qed.

(** X2: [destroy] before [initialize], or after an [initialize] that
    failed for want of the rendering library, makes no release call at
    all and raises nothing, for a DualViewer and for a BaseViewer alike:
    it only logs that the viewer was destroyed. *)
Theorem destroy_before_initialize (cfg : gmap string value) :
  Dual.log (Dual.destroy (Dual.new cfg))
  = [Dual.ConsoleLog "[DualViewer] Destroyed"] ∧
  (∃ v0, Dual.initialize false (Dual.new cfg) = Raised VtkNotLoaded v0 ∧
         Dual.log (Dual.destroy v0)
         = [Dual.ConsoleLog "[DualViewer] Destroyed"]) ∧
  (∃ w, Base.destroy (Base.new cfg) = Done w ∧
        Base.log w = [Base.ConsoleLog "[BaseViewer] Destroyed"]) ∧
  (∃ w0 w, Base.initialize false (Base.new cfg) = Raised VtkNotLoaded w0 ∧
           Base.destroy w0 = Done w ∧
           Base.log w = [Base.ConsoleLog "[BaseViewer] Destroyed"]).
Proof.
  split; [reflexivity|]. split; [eexists; split; reflexivity|].
  split; [eexists; split; reflexivity|].
  eexists _, _. repeat split.
Qed.

End BaseTeardown.

(** ** One load of a BaseViewer, from call to completion *)

Section BaseCycle.

Import Js Vtk BaseView.

Variable extractFilename : value → value.
Variable validBounds : list actor → bool.

Lemma quietly_refl (v : Base.BaseViewer) : quietly v v.
Proof. exists []. split; [constructor|]. unfold trace. by rewrite app_nil_r. Qed.

Lemma quietly_record (e : Base.effect) (v : Base.BaseViewer) :
  internal e = true → quietly v (Base.record e v).
Proof. intros He. exists [e]. split; [by repeat constructor|done]. Qed.

Lemma quietly_trans (v1 v2 v3 : Base.BaseViewer) :
  quietly v1 v2 → quietly v2 v3 → quietly v1 v3.
Proof.
  intros (m1 & F1 & E1) (m2 & F2 & E2). exists (m1 ++ m2).
  split; [by apply Forall_app|].
  unfold trace in *. injection E1 as E1 E1' E1''. rewrite E2.
  by rewrite E1, E1', E1'', app_assoc.
Qed.

Lemma quietly_configureLoadedActors (r : Loader.Result) (v : Base.BaseViewer) :
  quietly v (Base._configureLoadedActors r v).
Proof.
  unfold Base._configureLoadedActors.
  destruct (_ && _ && _); [by apply quietly_record|].
  destruct (Loader.hasVertexColors r); [|by apply quietly_record].
  destruct (Base.enabled "showEdges" v);
    [by apply quietly_record|apply quietly_refl].
Qed.

Lemma quietly_setupCameraForMesh (v : Base.BaseViewer) :
  quietly v (Base._setupCameraForMesh validBounds v).
Proof.
  unfold Base._setupCameraForMesh.
  destruct (Base.actors v); [apply quietly_refl|].
  destruct (validBounds _); [by apply quietly_record|apply quietly_refl].
Qed.

Lemma quietly_updateInfoOverlay (v : Base.BaseViewer) :
  quietly v (Base._updateInfoOverlay v).
Proof.
  unfold Base._updateInfoOverlay.
  destruct (Base.infoOverlay v); [by apply quietly_record|apply quietly_refl].
Qed.

Lemma inflight_configureLoadedActors (r : Loader.Result)
  (v : Base.BaseViewer) :
  Base.inflight (Base._configureLoadedActors r v) = Base.inflight v.
Proof.
  unfold Base._configureLoadedActors.
  destruct (_ && _ && _); [done|].
  destruct (Loader.hasVertexColors r); [|done].
  by destruct (Base.enabled "showEdges" v).
Qed.

Lemma inflight_setupCameraForMesh (v : Base.BaseViewer) :
  Base.inflight (Base._setupCameraForMesh validBounds v) = Base.inflight v.
Proof.
  unfold Base._setupCameraForMesh.
  destruct (Base.actors v); [done|]. by destruct (validBounds _).
Qed.

Lemma inflight_updateInfoOverlay (v : Base.BaseViewer) :
  Base.inflight (Base._updateInfoOverlay v) = Base.inflight v.
Proof. unfold Base._updateInfoOverlay. by destruct (Base.infoOverlay v). Qed.

(** X13: how a load of a BaseViewer that has a loading overlay and a
    renderer reports.  The call shows the overlay, detaches the actors and
    files the load.  When a pending load resolves on a viewer whose render
    window exists and has not been deleted (the viewer is initialized and
    not destroyed), the overlay is hidden, then one [meshLoaded]
    notification with the filename taken from the URL of that load is
    sent, then the scene is rendered; before that only calls on the
    rendering library and the info overlay are made.  When a pending load
    rejects, the error is logged, the overlay is hidden and one error
    notification is sent.  Either completion takes the load off the
    pending ones, so that it reports once. *)
Theorem base_load_completion_notifies_once (url u : value) (o : bool)
  (sc : list actor) (k : nat) (w : Base.BaseViewer) :
  Base.loadingOverlay w = Some o → Base.renderer w = Some sc →
  (∃ w1,
     Base.loadMesh url w = Done w1 ∧
     Base.log w1 = Base.log w ++ [Base.ShowLoading true]
                   ++ (Base.ActorRemoved <$> Base.actors w) ∧
     Base.inflight w1 = <[Base.issued w := url]> (Base.inflight w) ∧
     Base.loadingOverlay w1 = Some o ∧
     (live w → live w1)) ∧
  (Base.inflight w !! k = Some u → live w →
   ∀ r, ∃ w2 mid,
     Base.loadMesh_resolved extractFilename validBounds k r w = Done w2 ∧
     Forall (fun e => internal e = true) mid ∧
     Base.log w2 = Base.log w ++ mid ++
       [Base.ShowLoading false;
        Base.SendMeshLoaded (extractFilename u) (Loader.format r)
          (length (Loader.actors r)) (Loader.hasTexture r)
          (Loader.hasVertexColors r);
        Base.Render] ∧
     Base.inflight w2 = delete k (Base.inflight w)) ∧
  (Base.inflight w !! k = Some u →
   ∀ e, ∃ w2,
     Base.loadMesh_rejected k e w = Raised e w2 ∧
     Base.log w2 = Base.log w ++
       [Base.ConsoleError e; Base.ShowLoading false; Base.SendError e] ∧
     Base.inflight w2 = delete k (Base.inflight w)).
Proof.
  intros Ho Hsc. split; [|split].
  - unfold Base.loadMesh.
    assert (Base.showLoading true w = Base.record (Base.ShowLoading true) w)
      as ->.
    { unfold Base.showLoading. by rewrite Ho. }
    rewrite (base_clearScene_eq sc) by done. rewrite bind_done.
    eexists. split; [reflexivity|]. split.
    { cbn. by rewrite <- app_assoc. }
    split; [reflexivity|]. split; [exact Ho|].
    intros [Hw Hd]. split; [exact Hw|].
    cbn [Base.log Base.set_issued Base.set_inflight Base.set_polyDatas
         Base.set_actors Base.set_renderer Base.set_log Base.record].
    rewrite !existsb_app, Hd. cbn [existsb deletion orb].
    generalize (Base.actors (Base.record (Base.ShowLoading true) w)).
    intros l. induction l as [|a l IH]; [reflexivity|exact IH].
  - intros Hk _ r. unfold Base.loadMesh_resolved. rewrite Hk.
    set (w0 := Base.set_inflight (delete k (Base.inflight w)) w).
    assert (Base.loadingOverlay w0 = Some o) as Ho0 by exact Ho.
    assert (Base.renderer w0 = Some sc) as Hr0 by exact Hsc.
    assert (Base.log w0 = Base.log w) as Hl0 by reflexivity.
    assert (Base.inflight w0 = delete k (Base.inflight w)) as Hi0
      by reflexivity.
    clearbody w0.
    erewrite base_attach by exact Hr0. rewrite bind_done.
    set (v1 := match Loader.actors r with [] => _ | _ => _ end).
    assert (trace v1 = (Base.log w0, Some o, extractFilename u)
            ∧ Base.inflight v1 = Base.inflight w0) as [T1 I1].
    { unfold v1, trace. destruct (Loader.actors r); cbn; by rewrite Ho0. }
    clearbody v1.
    set (v2 := Base._updateInfoOverlay _).
    assert (quietly v1 v2 ∧ Base.inflight v2 = Base.inflight v1)
      as [(mid & Hmid & T2) I2].
    { split.
      - eapply quietly_trans; [apply quietly_configureLoadedActors|].
        eapply quietly_trans; [apply quietly_setupCameraForMesh|].
        apply quietly_updateInfoOverlay.
      - unfold v2. rewrite inflight_updateInfoOverlay,
          inflight_setupCameraForMesh, inflight_configureLoadedActors.
        reflexivity. }
    clearbody v2. unfold trace in T1, T2.
    injection T1 as L1 O1 F1. rewrite L1, O1, F1 in T2.
    injection T2 as L2 O2 F2.
    exists (Base.record Base.Render
              (Base.record
                 (Base.SendMeshLoaded (extractFilename u) (Loader.format r)
                    (length (Loader.actors r)) (Loader.hasTexture r)
                    (Loader.hasVertexColors r))
                 (Base.record (Base.ShowLoading false) v2))), mid.
    unfold Base.showLoading. rewrite O2.
    cbn [Base.currentFilename Base.record Base.set_log]. rewrite F2.
    split; [reflexivity|]. split; [exact Hmid|].
    cbn [Base.log Base.inflight Base.record Base.set_log].
    rewrite L2, Hl0, I2, I1, Hi0. by rewrite <- !app_assoc.
  - intros Hk e.
    destruct (base_loadMesh_rejects k e u w Hk)
      as (w2 & -> & _ & _ & _ & _ & Hi & Hl).
    exists w2. split; [reflexivity|]. by rewrite Hl, Ho.
Qed.

End BaseCycle.

(** ** Field state of a StandardViewer *)

Section StandardFields.

Import Js Vtk Standard.

Lemma standard_applyField (f c r : value) (v : StandardViewer) :
  Base.fieldVisualization (super v) = true →
  Base.polyDatas (super v) ≠ [] → Base.actors (super v) ≠ [] →
  applyField f c r v
  = mkStandardViewer
      (Base.record
         (Base.FieldApplied f (if truthy c then c else currentColormap v) r)
         (super v))
      f (if truthy c then c else currentColormap v) (availableFields v).
Proof.
  intros Hf Hp Ha. unfold applyField. rewrite Hf.
  destruct (Base.polyDatas (super v)) as [|d ds]; [done|].
  destruct (Base.actors (super v)) as [|a l]; [done|].
  cbn [negb orb length bool_decide decide_rel]. 
  rewrite bool_decide_eq_false_2 by done.
  by destruct (truthy c).
Qed.

(** X14: on a StandardViewer that holds a dataset and an actor,
    [applyField] makes the field current and keeps the colormap it was
    given (the current one when none was given); a later [setColormap]
    applies the current field again with the new colormap and with no
    range, so a range given before is dropped; after [clearField],
    [setColormap] only stores the colormap. *)
Theorem setColormap_reapplies_current_field (f c r : value)
  (v : StandardViewer) :
  Base.fieldVisualization (super v) = true →
  Base.polyDatas (super v) ≠ [] → Base.actors (super v) ≠ [] →
  truthy f = true →
  (currentField (applyField f c r v) = f ∧
   currentColormap (applyField f c r v)
   = (if truthy c then c else currentColormap v) ∧
   Base.log (super (applyField f c r v))
   = Base.log (super v)
     ++ [Base.FieldApplied f (if truthy c then c else currentColormap v) r]) ∧
  (∀ c',
     currentField (setColormap c' (applyField f c r v)) = f ∧
     currentColormap (setColormap c' (applyField f c r v)) = c' ∧
     Base.log (super (setColormap c' (applyField f c r v)))
     = Base.log (super (applyField f c r v))
       ++ [Base.FieldApplied f c' Undefined]) ∧
  (∀ c',
     currentField (setColormap c' (clearField (applyField f c r v))) = Null ∧
     currentColormap (setColormap c' (clearField (applyField f c r v))) = c' ∧
     Base.log (super (setColormap c' (clearField (applyField f c r v))))
     = Base.log (super (applyField f c r v))
       ++ [Base.DisableScalarVisualization]).
Proof.
  intros Hf Hp Ha Ht. rewrite (standard_applyField f c r v Hf Hp Ha).
  split; [done|]. split.
  - intros c'. unfold setColormap.
    cbn [currentField set_currentColormap]. rewrite Ht.
    rewrite standard_applyField; try done.
    cbn [currentField currentColormap super Base.log Base.record Base.set_log].
    by destruct (truthy c').
  - intros c'. unfold clearField.
    cbn [super Base.actors Base.record Base.set_log Base.fieldVisualization].
    destruct (Base.actors (super v)) as [|a l]; [done|]. rewrite Hf.
    done.
Qed.

End StandardFields.

(** ** Combined bounds *)

Section BoundsProps.

Import Vtk Bounds.

Variable getBounds : actor → Box.

Lemma num_leb_refl (a : num) : leb a a = true.
Proof. destruct a; simpl; try done. apply Z.leb_refl. Qed.

Lemma num_leb_trans (a b c : num) :
  leb a b = true → leb b c = true → leb a c = true.
Proof.
  destruct a, b, c; simpl; try done. rewrite !Z.leb_le. lia.
Qed.

Lemma num_leb_total (a b : num) : leb a b = true ∨ leb b a = true.
Proof. destruct a, b; simpl; auto. rewrite !Z.leb_le. lia. Qed.

Lemma num_leb_antisym (a b : num) : leb a b = true → leb b a = true → a = b.
Proof.
  destruct a, b; simpl; try done. rewrite !Z.leb_le. intros. f_equal. lia.
Qed.

Lemma num_min_spec (a b : num) :
  leb (min a b) a = true ∧ leb (min a b) b = true ∧
  (min a b = a ∨ min a b = b).
Proof.
  unfold min. destruct (leb a b) eqn:E.
  - rewrite num_leb_refl. auto.
  - rewrite num_leb_refl. destruct (num_leb_total a b) as [H|H]; [congruence|auto].
Qed.

Lemma num_max_spec (a b : num) :
  leb a (max a b) = true ∧ leb b (max a b) = true ∧
  (max a b = a ∨ max a b = b).
Proof.
  unfold max. destruct (leb a b) eqn:E.
  - rewrite num_leb_refl. auto.
  - rewrite num_leb_refl. destruct (num_leb_total a b) as [H|H]; [congruence|auto].
Qed.

Lemma num_min_absorb (a b : num) : min a b = a ↔ leb a b = true.
Proof.
  unfold min. destruct (leb a b) eqn:E; [done|]. split; [|done].
  intros ->. by rewrite num_leb_refl in E.
Qed.

Lemma num_max_absorb (a b : num) : max a b = a ↔ leb b a = true.
Proof.
  unfold max. destruct (leb a b) eqn:E.
  - split.
    + intros ->. apply num_leb_refl.
    + intros H. by apply num_leb_antisym.
  - split; [|done]. intros _.
    destruct (num_leb_total a b) as [H|H]; [congruence|done].
Qed.

Lemma within_refl (a : Box) : within a a.
Proof. unfold within. by rewrite !num_leb_refl. Qed.

Lemma within_trans (a b c : Box) : within a b → within b c → within a c.
Proof.
  unfold within. intros (?&?&?&?&?&?) (?&?&?&?&?&?).
  repeat split; eapply num_leb_trans; eauto.
Qed.

Lemma within_merge_l (b a : Box) : within b (merge b a).
Proof.
  unfold within, merge. simpl.
  repeat split; try apply num_min_spec; apply num_max_spec.
Qed.

Lemma within_merge_r (b a : Box) : within a (merge b a).
Proof.
  unfold within, merge. simpl.
  repeat split; try apply num_min_spec; apply num_max_spec.
Qed.

Lemma merge_least (b a c : Box) : within b c → within a c → within (merge b a) c.
Proof.
  unfold within, merge. simpl. intros (?&?&?&?&?&?) (?&?&?&?&?&?).
  repeat split;
    match goal with
    | |- leb _ (min ?x ?y) = true => by destruct (num_min_spec x y) as (_&_&[->| ->])
    | |- leb (max ?x ?y) _ = true => by destruct (num_max_spec x y) as (_&_&[->| ->])
    end.
Qed.

Lemma merge_absorb (b a : Box) : merge b a = b ↔ within a b.
Proof.
  unfold within, merge. destruct b, a. simpl. split.
  - intros [= H1 H2 H3 H4 H5 H6].
    rewrite num_min_absorb in H1, H3, H5. rewrite num_max_absorb in H2, H4, H6. done.
  - intros (H1&H2&H3&H4&H5&H6).
    rewrite <- num_min_absorb in H1, H3, H5. rewrite <- num_max_absorb in H2, H4, H6.
    by rewrite H1, H2, H3, H4, H5, H6.
Qed.

Lemma foldl_merge_encloses (l : list actor) (b : Box) :
  within b (foldl (fun b x => merge b (getBounds x)) b l) ∧
  ∀ a, a ∈ l →
       within (getBounds a) (foldl (fun b x => merge b (getBounds x)) b l).
Proof.
  revert b. induction l as [|x l IH]; intros b; simpl.
  - split; [apply within_refl|]. intros a Ha. by apply elem_of_nil in Ha.
  - destruct (IH (merge b (getBounds x))) as [H1 H2]. split.
    + eapply within_trans; [apply within_merge_l|exact H1].
    + intros a [->|Ha]%elem_of_cons; [|by apply H2].
      eapply within_trans; [apply within_merge_r|exact H1].
Qed.

Lemma foldl_merge_least (l : list actor) (b c : Box) :
  within b c → (∀ a, a ∈ l → within (getBounds a) c) →
  within (foldl (fun b x => merge b (getBounds x)) b l) c.
Proof.
  revert b. induction l as [|x l IH]; intros b Hb Hl; simpl; [done|].
  apply IH.
  - apply merge_least; [done|]. apply Hl. by left.
  - intros a Ha. apply Hl. by right.
Qed.

Lemma within_antisym (a b : Box) : within a b → within b a → a = b.
Proof.
  unfold within. destruct a, b. simpl. intros (?&?&?&?&?&?) (?&?&?&?&?&?).
  f_equal; by apply num_leb_antisym.
Qed.

(** X15: the bounds [_setupCameraForMesh] combines are the least box
    around all actors: the box encloses the bounds of every actor, lies
    within every box that does, and does not depend on the order of the
    actors. *)
Theorem combinedBounds_least_enclosing (l : list actor) (b : Box) :
  combinedBounds getBounds l = Some b →
  (∀ a, a ∈ l → within (getBounds a) b) ∧
  (∀ c, (∀ a, a ∈ l → within (getBounds a) c) → within b c) ∧
  (∀ l', l ≡ₚ l' → combinedBounds getBounds l' = Some b).
Proof.
  intros H. destruct l as [|x l]; [done|]. injection H as <-.
  destruct (foldl_merge_encloses l (getBounds x)) as [H1 H2].
  assert (∀ c, (∀ a, a ∈ x :: l → within (getBounds a) c) →
               within (foldl (fun b y => merge b (getBounds y)) (getBounds x) l) c)
    as Hleast.
  { intros c Hc. apply foldl_merge_least.
    - apply Hc. by left.
    - intros a Ha. apply Hc. by right. }
  assert (∀ a, a ∈ x :: l →
               within (getBounds a)
                 (foldl (fun b y => merge b (getBounds y)) (getBounds x) l))
    as Hin.
  { intros a [->|Ha]%elem_of_cons; [exact H1|by apply H2]. }
  split; [exact Hin|]. split; [exact Hleast|].
  intros l' Hp. destruct l' as [|y l'].
  { by apply Permutation_nil_r in Hp. }
  simpl. f_equal.
  destruct (foldl_merge_encloses l' (getBounds y)) as [H1' H2'].
  assert (∀ a, a ∈ y :: l' →
               within (getBounds a)
                 (foldl (fun b z => merge b (getBounds z)) (getBounds y) l'))
    as Hin'.
  { intros a [->|Ha]%elem_of_cons; [exact H1'|by apply H2']. }
  apply within_antisym.
  - apply foldl_merge_least.
    + apply Hin. rewrite Hp. by left.
    + intros a Ha. apply Hin. rewrite Hp. by right.
  - apply Hleast. intros a Ha. apply Hin'. by rewrite <- Hp.
Qed.

(** X16: the glTF loader and BaseViewer combine bounds to the same box.
    Starting the merge from [[Infinity, -Infinity, ...]] over all actors,
    as [loadGLTF] does, gives what starting from the first actor's bounds
    gives, and both have no bounds for an empty list. *)
Theorem gltfBounds_agrees (l : list actor) :
  gltfBounds getBounds l = combinedBounds getBounds l.
Proof.
  destruct l as [|x l]; [done|]. simpl. do 2 f_equal.
  unfold merge. simpl. destruct (getBounds x) as [a b c d e f]. simpl.
  unfold max. simpl. f_equal; unfold min; simpl; by destruct_all num.
Qed.

(** X17: [BaseViewer.setCameraView] frames the first actor only.  The
    bounds it hands to the camera controller are the combined bounds that
    the initial camera was set up for exactly when the bounds of every
    other actor lie within those of the first one. *)
Theorem viewBounds_ignores_other_actors (x : actor) (rest : list actor) :
  viewBounds getBounds (x :: rest) = combinedBounds getBounds (x :: rest) ↔
  ∀ a, a ∈ rest → within (getBounds a) (getBounds x).
Proof.
  simpl. split.
  - intros [= H] a Ha.
    rewrite H. by apply (foldl_merge_encloses rest (getBounds x)).
  - intros H. f_equal.
    induction rest as [|y l IH]; [done|]. simpl.
    assert (merge (getBounds x) (getBounds y) = getBounds x) as ->.
    { apply merge_absorb, H. by left. }
    apply IH. intros a Ha. apply H. by right.
Qed.

End BoundsProps.

(** ** URLs and file names *)

Section Paths.

Import PathUtils GLTF.

Lemma substring_app_l (s t : string) (m k : nat) :
  (m + k ≤ String.length s)%nat →
  String.substring m k (s +:+ t) = String.substring m k s.
Proof.
  revert m k. induction s as [|c s IH]; intros m k H; simpl in *.
  - assert (m = 0 ∧ k = 0)%nat as [-> ->] by lia. by destruct t.
  - destruct m as [|m].
    + destruct k as [|k]; [done|]. simpl. f_equal. apply IH. lia.
    + apply IH. lia.
Qed.

Lemma substring_all (s t : string) :
  String.substring 0 (String.length s) (s +:+ t) = s.
Proof. induction s as [|c s IH]; simpl; [by destruct t|by f_equal]. Qed.

Lemma substring_skip (s t : string) (k : nat) :
  String.substring (String.length s) k (s +:+ t) = String.substring 0 k t.
Proof. induction s as [|c s IH]; simpl; [done|exact IH]. Qed.

Lemma string_length_app (s t : string) :
  String.length (s +:+ t) = (String.length s + String.length t)%nat.
Proof. induction s as [|c s IH]; simpl; [done|by f_equal]. Qed.

(** The first occurrence of a non-empty [p] in [s] is at [n] as soon as [p]
    occurs there and nowhere before. *)
Lemma index_first (p s : string) (n : nat) :
  p ≠ "" →
  String.substring n (String.length p) s = p →
  (∀ m, (m < n)%nat → String.substring m (String.length p) s ≠ p) →
  String.index 0 p s = Some n.
Proof.
  intros Hp Hn Hfirst. destruct (String.index 0 p s) as [m|] eqn:E.
  - f_equal. destruct (Nat.lt_trichotomy m n) as [H|[H|H]]; [|done|].
    + exfalso. apply (Hfirst m H). by apply (String.index_correct1 0).
    + exfalso. apply (String.index_correct2 0 m p s E n); [lia|lia|done].
  - exfalso. apply (String.index_correct3 0 n p s E Hp); [lia|done].
Qed.

Lemma substring_length (s : string) (n k : nat) :
  String.length (String.substring n k s) = (k `min` (String.length s - n))%nat.
Proof.
  revert n k. induction s as [|c s IH]; intros n k; simpl.
  - destruct n, k; simpl; lia.
  - destruct n as [|n]; [destruct k as [|k]|]; simpl; rewrite ?IH; lia.
Qed.

Lemma index_app (p s t : string) (n : nat) :
  p ≠ "" →
  String.index 0 p s = Some n →
  String.index 0 p (s +:+ t) = Some n.
Proof.
  intros Hp Hn. pose proof (String.index_correct1 0 n p s Hn) as Hat.
  assert (n + String.length p ≤ String.length s)%nat as Hlen.
  { pose proof (substring_length s n (String.length p)) as H.
    rewrite Hat in H.
    assert (0 < String.length p)%nat by (destruct p; [done|simpl; lia]).
    lia. }
  apply index_first; [done| |].
  - by rewrite substring_app_l.
  - intros m Hm. rewrite substring_app_l by lia.
    apply (String.index_correct2 0 n p s Hn); lia.
Qed.

Lemma string_app_cons (x : Ascii.ascii) (a b : string) :
  String x a +:+ b = String x (a +:+ b).
Proof. reflexivity. Qed.

Lemma string_app_assoc (a b c : string) : (a +:+ b) +:+ c = a +:+ b +:+ c.
Proof.
  induction a as [|x a IH]; [done|]. rewrite !string_app_cons. by f_equal.
Qed.

Lemma index_at_start (p t : string) : String.index 0 p (p +:+ t) = Some 0%nat.
Proof.
  assert (String.prefix p (p +:+ t) = true) as H.
  { apply String.prefix_correct, substring_all. }
  destruct p as [|c p]; simpl in *.
  - by destruct t.
  - by rewrite H.
Qed.

(** X18: the viewer page recovers the base path of the page that embeds
    it.  If the pathname of the viewer page is the URL [getViewerUrl]
    builds (without cache buster), and the first [/extensions/] in that
    URL is the one [getViewerUrl] appends to the base path (the base path
    followed by [/extensions/] has no earlier occurrence, which rules out
    a base path that contains [/extensions/] or ends in [/extensions]),
    then [getBasePathForHTML] on the viewer page returns the base path
    [getBasePath] had on the embedding page; for an empty base path this
    needs the pathname not to end in a slash. *)
Theorem viewer_page_recovers_base_path (env page : Env)
  (now viewerName : string) :
  pathname page = getViewerUrl env now viewerName false →
  indexOf (getBasePath env +:+ "/extensions/") "/extensions/"
  = Some (String.length (getBasePath env)) →
  getBasePath env ≠ "" ∨ endsWith (pathname page) "/" = false →
  getBasePathForHTML page = getBasePath env.
Proof.
  unfold getViewerUrl. cbv zeta. set (base := getBasePath env).
  set (rest := EXTENSION_FOLDER env +:+ "/" +:+ viewerName).
  intros Hpage Hfirst Hcase. unfold getBasePathForHTML, indexOf in *.
  rewrite Hpage in *.
  rewrite <- (string_app_assoc base "/extensions/" rest).
  rewrite (index_app "/extensions/" _ rest _ ltac:(done) Hfirst).
  destruct base as [|c base'] eqn:E.
  - cbn [String.length]. destruct Hcase as [|Hends]; [done|].
    rewrite <- (string_app_assoc "" "/extensions/" rest) in Hends.
    rewrite Hends. by rewrite andb_false_r.
  - cbn [String.length]. rewrite string_app_assoc.
    apply (substring_all (String c base')).
Qed.

Lemma toLowerCase_app (s t : string) :
  toLowerCase (s +:+ t) = toLowerCase s +:+ toLowerCase t.
Proof.
  induction s as [|c s IH]; [done|].
  rewrite string_app_cons. simpl. by rewrite IH.
Qed.

Lemma toLowerCase_app_inv (s a b : string) :
  toLowerCase s = a +:+ b →
  ∃ s1 s2, s = s1 +:+ s2 ∧ toLowerCase s1 = a ∧ toLowerCase s2 = b.
Proof.
  revert s. induction a as [|x a IH]; intros s H.
  - by exists "", s.
  - rewrite string_app_cons in H. destruct s as [|c s]; [done|].
    simpl in H. injection H as Hc H.
    destruct (IH s H) as (s1 & s2 & -> & H1 & H2).
    exists (String c s1), s2. simpl. by rewrite Hc, H1.
Qed.

Lemma prefix_app (p s : string) :
  String.prefix p s = true → ∃ t, s = p +:+ t.
Proof.
  revert s. induction p as [|x p IH]; intros s H; [by exists s|].
  destruct s as [|c s]; [done|]. simpl in H.
  destruct (Ascii.ascii_dec x c) as [->|]; [|done].
  destruct (IH s H) as [t ->]. by exists t.
Qed.

Lemma index_app_inv (sub s : string) (n : nat) :
  String.index 0 sub s = Some n → ∃ pre post, s = pre +:+ sub +:+ post.
Proof.
  revert n. induction s as [|c s IH]; intros n H.
  - simpl in H. destruct sub; [|done]. by exists "", "".
  - cbn [String.index] in H.
    destruct (String.prefix sub (String c s)) eqn:E.
    + destruct (prefix_app _ _ E) as [t ->]. by exists "", t.
    + destruct (String.index 0 sub s) as [m|]; [|done].
      destruct (IH m eq_refl) as (pre & post & ->).
      by exists (String c pre), post.
Qed.

Lemma includes_true (s sub : string) :
  sub ≠ "" →
  includes s sub = true ↔ ∃ pre post, s = pre +:+ sub +:+ post.
Proof.
  intros Hsub. unfold includes. split.
  - destruct (String.index 0 sub s) as [n|] eqn:E; [|done]. intros _.
    by apply (index_app_inv sub s n).
  - intros (pre & post & ->).
    destruct (String.index 0 sub (pre +:+ sub +:+ post)) as [n|] eqn:E; [done|].
    exfalso.
    apply (String.index_correct3 0 (String.length pre) sub _ E Hsub); [lia|].
    rewrite substring_skip. apply substring_all.
Qed.

(** X19: [canLoadGLTF] is a test on the whole path, not on its extension:
    it accepts a path exactly when [.glb] or [.gltf], in any mix of upper
    and lower case, occurs somewhere in it, so a URL with the file name in
    its query string is accepted and so is [model.glb.txt]. *)
Theorem canLoadGLTF_matches_anywhere (filepath : string) :
  canLoadGLTF filepath = true ↔
  ∃ pre ext post,
    filepath = pre +:+ ext +:+ post ∧
    (toLowerCase ext = ".glb" ∨ toLowerCase ext = ".gltf").
Proof.
  unfold canLoadGLTF. cbv zeta. rewrite orb_true_iff, !includes_true by done.
  split.
  - assert (∀ sub, (∃ pre post, toLowerCase filepath = pre +:+ sub +:+ post) →
                   ∃ pre ext post, filepath = pre +:+ ext +:+ post ∧
                                   toLowerCase ext = sub) as Hback.
    { intros sub (pre & post & H).
      destruct (toLowerCase_app_inv _ _ _ H) as (s1 & s2 & -> & _ & H2).
      destruct (toLowerCase_app_inv _ _ _ H2) as (s3 & s4 & -> & H3 & _).
      by exists s1, s3, s4. }
    intros [H|H]; destruct (Hback _ H) as (pre & ext & post & -> & He);
      eauto 10.
  - intros (pre & ext & post & -> & [He|He]); [left|right];
      rewrite !toLowerCase_app, He; eauto.
Qed.

End Paths.

(** ** Widgets of a node *)

Section WidgetProps.

Import Js Widgets.

Lemma indexOf_Some (l : list nat) (x i : nat) :
  indexOf l x = Some i → l !! i = Some x ∧ x ∉ take i l.
Proof.
  revert i. induction l as [|y l IH]; intros i; simpl; [done|].
  destruct (decide (y = x)) as [->|Hne].
  - intros [= <-]. split; [done|]. simpl. apply not_elem_of_nil.
  - destruct (indexOf l x) as [j|] eqn:E; [|done]. intros [= <-].
    destruct (IH j eq_refl) as [H1 H2]. split; [done|].
    simpl. rewrite not_elem_of_cons. split; [congruence|done].
Qed.

Lemma indexOf_None (l : list nat) (x : nat) :
  indexOf l x = None ↔ x ∉ l.
Proof.
  induction l as [|y l IH]; simpl.
  - split; [intros _; apply not_elem_of_nil|done].
  - rewrite not_elem_of_cons. destruct (decide (y = x)) as [->|Hne].
    + split; [done|]. by intros [? _].
    + destruct (indexOf l x); simpl.
      * split; [done|]. intros [_ H]. by apply IH in H.
      * split; [|done]. intros _. split; [congruence|]. by apply IH.
Qed.

Lemma indexOf_app (pre post : list nat) (x : nat) :
  x ∉ pre → indexOf (pre ++ x :: post) x = Some (length pre).
Proof.
  induction pre as [|y pre IH]; simpl.
  - intros _. by rewrite decide_True.
  - rewrite not_elem_of_cons. intros [Hne Hn].
    rewrite decide_False by congruence. by rewrite IH.
Qed.

Lemma filter_ne_notin (l : list nat) (x : nat) :
  x ∉ l → filter (fun y => y ≠ x) l = l.
Proof.
  induction l as [|y l IH]; [done|]. rewrite not_elem_of_cons.
  intros [Hne Hn]. rewrite filter_cons_True by congruence. by rewrite IH.
Qed.

Lemma delete_filter (l : list nat) (x i : nat) :
  NoDup l → l !! i = Some x → delete i l = filter (fun y => y ≠ x) l.
Proof.
  revert i. induction l as [|y l IH]; intros i Hnd Hi; [done|].
  apply NoDup_cons in Hnd as [Hy Hnd]. destruct i as [|i]; simpl in *.
  - injection Hi as ->. rewrite filter_cons_False by (by intros ?).
    by rewrite filter_ne_notin.
  - assert (y ≠ x) as Hne.
    { intros ->. apply Hy. by eapply list_elem_of_lookup_2. }
    rewrite filter_cons_True by done. f_equal. by apply IH.
Qed.

Lemma each_nil {W : Type} (f : W → Node → outcome Node Node) (n : Node) :
  each f [] n = Done n.
Proof. reflexivity. Qed.

Lemma each_cons {W : Type} (f : W → Node → outcome Node Node) (w : W)
  (ws : list W) (n : Node) :
  each f (w :: ws) n = f w n ≫= each f ws.
Proof.
  unfold each. simpl. destruct (f w n) as [n'| |]; [done|..];
    by induction ws.
Qed.

Lemma linked_remember (o : Widget) :
  linkedWidgets (remember o) = linkedWidgets o.
Proof. unfold remember. by destruct (truthy (origType o)). Qed.

Lemma restore_flags (o : Widget) :
  linkedWidgets (restore o) = linkedWidgets o ∧
  _hidden (restore o) = _hidden o ∧
  _originalIndex (restore o) = _originalIndex o ∧
  name (restore o) = name o.
Proof. unfold restore. by destruct (truthy (origType o)). Qed.

Lemma update_same (w : nat) (o : Widget) (objs : nat → Widget) :
  update w o objs w = o.
Proof. unfold update. by rewrite decide_True. Qed.

Lemma update_other (w x : nat) (o : Widget) (objs : nat → Widget) :
  x ≠ w → update w o objs x = objs x.
Proof. intros H. unfold update. by rewrite decide_False. Qed.

(** One call of [hideWidget] on a widget without linked widgets. *)
Lemma hideWidget_unlinked (fuel w : nat) (n : Node) :
  linkedWidgets (objects n w) = [] →
  hideWidget (S fuel) (Some w) n
  = Done (if _hidden (objects n w) then n else
          match indexOf (widgets n) w with
          | None => n
          | Some index =>
              mkNode (delete index (widgets n))
                (update w (set_hidden true (Some index)
                             (remember (objects n w))) (objects n))
          end).
Proof.
  intros Hl. simpl. destruct (_hidden (objects n w)); [done|].
  destruct (indexOf (widgets n) w); [|done].
  by rewrite linked_remember, Hl.
Qed.

(** One call of [showWidget] on a widget without linked widgets. *)
Lemma showWidget_unlinked (fuel w : nat) (n : Node) :
  linkedWidgets (objects n w) = [] →
  showWidget (S fuel) (Some w) n
  = Done (if _hidden (objects n w) then
            mkNode
              (insertAt
                 match _originalIndex (objects n w) with
                 | Some i => i `min` length (widgets n)
                 | None => 0
                 end%nat w (widgets n))
              (update w
                 (set_hidden false (_originalIndex (objects n w))
                    (restore (objects n w))) (objects n))
          else n).
Proof.
  intros Hl. simpl. destruct (_hidden (objects n w)); [|done]. simpl.
  destruct (restore_flags (objects n w)) as (-> & _ & -> & _).
  by rewrite Hl.
Qed.

Lemma insertAt_delete (l : list nat) (x i : nat) :
  l !! i = Some x →
  insertAt (i `min` length (delete i l)) x (delete i l) = l.
Proof.
  revert i. induction l as [|y l IH]; intros i Hi; [done|].
  destruct i as [|i]; simpl in *.
  - by injection Hi as ->.
  - unfold insertAt in *. simpl. f_equal. by apply IH.
Qed.

Lemma hideWidget_tracked (fuel w : nat) (n : Node) :
  NoDup (widgets n) → tracked n w →
  ∃ n',
    hideWidget (S fuel) (Some w) n = Done n' ∧
    widgets n' = filter (fun x => x ≠ w) (widgets n) ∧
    _hidden (objects n' w) = true ∧
    linkedWidgets (objects n' w) = [] ∧
    (∀ x, x ≠ w → objects n' x = objects n x).
Proof.
  intros Hnd [Hl Hin]. rewrite (hideWidget_unlinked fuel w n Hl).
  eexists. split; [reflexivity|]. destruct (_hidden (objects n w)) eqn:Eh.
  - repeat split; try done. symmetry. apply filter_ne_notin.
    intros Hw. apply Hin in Hw. congruence.
  - destruct (indexOf (widgets n) w) as [i|] eqn:Ei.
    + destruct (indexOf_Some _ _ _ Ei) as [Hi _]. simpl.
      rewrite update_same. repeat split.
      * by apply delete_filter.
      * simpl. by rewrite linked_remember.
      * intros x Hx. by apply update_other.
    + apply indexOf_None in Ei. exfalso. apply Ei. by apply Hin.
Qed.

Lemma insertAt_perm (k w : nat) (l : list nat) : insertAt k w l ≡ₚ w :: l.
Proof.
  unfold insertAt. rewrite <- Permutation_middle. by rewrite take_drop.
Qed.

Lemma insertAt_filter (k w : nat) (l : list nat) :
  filter (fun x => x ≠ w) (insertAt k w l) = filter (fun x => x ≠ w) l.
Proof.
  unfold insertAt. rewrite filter_app, filter_cons_False by (by intros ?).
  by rewrite <- filter_app, take_drop.
Qed.

Lemma showWidget_tracked (fuel w : nat) (n : Node) :
  NoDup (widgets n) → tracked n w →
  ∃ n',
    showWidget (S fuel) (Some w) n = Done n' ∧
    NoDup (widgets n') ∧
    filter (fun x => x ≠ w) (widgets n') = filter (fun x => x ≠ w) (widgets n) ∧
    w ∈ widgets n' ∧
    _hidden (objects n' w) = false ∧
    linkedWidgets (objects n' w) = [] ∧
    (∀ x, x ≠ w → objects n' x = objects n x).
Proof.
  intros Hnd [Hl Hin]. rewrite (showWidget_unlinked fuel w n Hl).
  eexists. split; [reflexivity|]. destruct (_hidden (objects n w)) eqn:Eh.
  - assert (w ∉ widgets n) as Hw.
    { intros Hw. apply Hin in Hw. congruence. }
    simpl. rewrite update_same. repeat split.
    + rewrite insertAt_perm. by apply NoDup_cons.
    + apply insertAt_filter.
    + rewrite insertAt_perm. by left.
    + simpl. by rewrite (proj1 (restore_flags _)).
    + intros x Hx. by apply update_other.
  - repeat split; try done. by apply Hin.
Qed.

Lemma filter_id (P : nat → Prop) `{∀ x, Decision (P x)} (l : list nat) :
  (∀ x, x ∈ l → P x) → filter P l = l.
Proof.
  induction l as [|y l IH]; intros HP; [done|].
  rewrite filter_cons_True by (apply HP; by left).
  f_equal. apply IH. intros x Hx. apply HP. by right.
Qed.

Lemma elem_of_filter_ne (l : list nat) (w x : nat) :
  x ≠ w → x ∈ filter (fun y => y ≠ w) l ↔ x ∈ l.
Proof. intros H. rewrite list_elem_of_filter. tauto. Qed.

Lemma tracked_ext (n n' : Node) (w : nat) :
  objects n' w = objects n w →
  (w ∈ widgets n' ↔ w ∈ widgets n) →
  tracked n w → tracked n' w.
Proof. intros Ho Hw [Hl Hin]. unfold tracked. rewrite Ho, Hw. done. Qed.

(** A run of [hideWidget] calls on tracked widgets. *)
Lemma hideWidget_each (fuel : nat) (ws : list (option nat)) (n : Node) :
  NoDup (widgets n) → (∀ w, Some w ∈ ws → tracked n w) →
  ∃ n',
    each (hideWidget (S fuel)) ws n = Done n' ∧
    widgets n' = filter (fun x => Some x ∉ ws) (widgets n) ∧
    (∀ w, Some w ∈ ws →
          _hidden (objects n' w) = true ∧ linkedWidgets (objects n' w) = []) ∧
    (∀ x, Some x ∉ ws → objects n' x = objects n x).
Proof.
  revert n. induction ws as [|[w|] ws IH]; intros n Hnd Ht.
  - exists n. split; [done|]. split; [|split; [|done]].
    + symmetry. apply filter_id. intros x _. apply not_elem_of_nil.
    + intros w Hw. by apply elem_of_nil in Hw.
  - destruct (hideWidget_tracked fuel w n Hnd) as (n1 & H1 & Hw1 & Hh1 & Hl1 & Ho1).
    { apply Ht. by left. }
    assert (NoDup (widgets n1)) as Hnd1.
    { rewrite Hw1. by apply NoDup_filter. }
    destruct (IH n1 Hnd1) as (n' & H' & Hw' & Hh' & Ho').
    { intros w' Hw'. destruct (decide (w' = w)) as [->|Hne].
      - split; [done|]. rewrite Hw1, Hh1, list_elem_of_filter. split; [tauto|done].
      - apply (tracked_ext n); [by apply Ho1| |apply Ht; by right].
        rewrite Hw1. by apply elem_of_filter_ne. }
    exists n'. rewrite each_cons, H1. split; [exact H'|]. split; [|split].
    + rewrite Hw', Hw1, list_filter_filter. apply list_filter_iff.
      intros x. rewrite not_elem_of_cons. split.
      * intros [? ?]. split; [congruence|done].
      * intros [? ?]. split; [done|congruence].
    + intros w' [[= ->]|Hw'']%elem_of_cons; [|by apply Hh'].
      destruct (decide (Some w ∈ ws)) as [Hin|Hout]; [by apply Hh'|].
      rewrite (Ho' w Hout). done.
    + intros x [Hx1 Hx2]%not_elem_of_cons.
      rewrite (Ho' x Hx2). apply Ho1. congruence.
  - destruct (IH n Hnd) as (n' & H' & Hw' & Hh' & Ho').
    { intros w Hw. apply Ht. by right. }
    exists n'. rewrite each_cons. split; [exact H'|]. split; [|split].
    + rewrite Hw'. apply list_filter_iff. intros x.
      rewrite not_elem_of_cons. split; [by intros ?|tauto].
    + intros w [?|Hw]%elem_of_cons; [done|by apply Hh'].
    + intros x [_ Hx]%not_elem_of_cons. by apply Ho'.
Qed.

(** A run of [showWidget] calls on tracked widgets. *)
Lemma showWidget_each (fuel : nat) (ws : list (option nat)) (n : Node) :
  NoDup (widgets n) → (∀ w, Some w ∈ ws → tracked n w) →
  ∃ n',
    each (showWidget (S fuel)) ws n = Done n' ∧
    NoDup (widgets n') ∧
    filter (fun x => Some x ∉ ws) (widgets n')
    = filter (fun x => Some x ∉ ws) (widgets n) ∧
    (∀ x, x ∈ widgets n' ↔ x ∈ widgets n ∨ Some x ∈ ws).
Proof.
  revert n. induction ws as [|[w|] ws IH]; intros n Hnd Ht.
  - exists n. split; [done|]. split; [done|]. split; [done|].
    intros x. split; [tauto|]. intros [?|H]; [done|]. by apply elem_of_nil in H.
  - destruct (showWidget_tracked fuel w n Hnd)
      as (n1 & H1 & Hnd1 & Hf1 & Hw1 & Hh1 & Hl1 & Ho1).
    { apply Ht. by left. }
    assert (∀ x, x ≠ w → x ∈ widgets n1 ↔ x ∈ widgets n) as Hmem.
    { intros x Hx. rewrite <- (elem_of_filter_ne (widgets n1) w x Hx), Hf1.
      by apply elem_of_filter_ne. }
    destruct (IH n1 Hnd1) as (n' & H' & Hnd' & Hf' & Hm').
    { intros w' Hw'. destruct (decide (w' = w)) as [->|Hne].
      - split; [done|]. by rewrite Hh1.
      - apply (tracked_ext n); [by apply Ho1|by apply Hmem|].
        apply Ht. by right. }
    exists n'. rewrite each_cons, H1. split; [exact H'|].
    split; [exact Hnd'|]. split.
    + transitivity (filter (fun x => x ≠ w)
                      (filter (fun x => Some x ∉ ws) (widgets n'))).
      { rewrite list_filter_filter. apply list_filter_iff. intros x.
        rewrite not_elem_of_cons. split.
        - intros [? ?]. split; [congruence|done].
        - intros [? ?]. split; [congruence|done]. }
      rewrite Hf', !list_filter_filter.
      transitivity (filter (fun x => Some x ∉ ws)
                      (filter (fun x => x ≠ w) (widgets n1))).
      { rewrite list_filter_filter. apply list_filter_iff. tauto. }
      rewrite Hf1, list_filter_filter. apply list_filter_iff. intros x.
      rewrite not_elem_of_cons. split.
      * intros [? ?]. split; [congruence|done].
      * intros [? ?]. split; [done|congruence].
    + intros x. rewrite Hm', elem_of_cons.
      destruct (decide (x = w)) as [->|Hne].
      * split; [auto|]. intros _. by left.
      * rewrite (Hmem x Hne). split.
        -- intros [?|?]; auto.
        -- intros [?|[[= ?]|?]]; auto. done.
  - destruct (IH n Hnd) as (n' & H' & Hnd' & Hf' & Hm').
    { intros w Hw. apply Ht. by right. }
    exists n'. rewrite each_cons. split; [exact H'|].
    split; [exact Hnd'|]. split.
    + assert (∀ l : list nat, filter (fun x => Some x ∉ None :: ws) l
                   = filter (fun x => Some x ∉ ws) l) as Hext.
      { intros l. apply list_filter_iff. intros x.
        rewrite not_elem_of_cons. split; [tauto|by intros ?]. }
      by rewrite !Hext.
    + intros x. rewrite Hm', elem_of_cons. split; [tauto|].
      intros [?|[?|?]]; auto. done.
Qed.

Lemma selected_parameters (op : value) : selected op ⊆ parameters.
Proof.
  unfold selected.
  repeat match goal with
         | |- context [if ?b then _ else _] => destruct b
         end;
    apply (bool_decide_unpack _); vm_compute; reflexivity.
Qed.

(** X20: [updateWidgetVisibility] shows exactly the parameters of the
    selected operation.  On a node that lists no widget twice, and whose
    parameter widgets are unlinked and listed exactly while not marked
    hidden, the call returns with every parameter widget of the selected
    operation listed, every other parameter widget unlisted, no widget
    listed twice, and the widgets that are not parameters in their
    previous order. *)
Theorem updateWidgetVisibility_shows_selected (fuel : nat)
  (captured : string → option nat) (selectedOperation : value) (n : Node) :
  NoDup (widgets n) →
  (∀ nm w, nm ∈ parameters → captured nm = Some w →
           name (objects n w) = nm ∧ tracked n w) →
  ∃ n',
    updateWidgetVisibility (S fuel) captured selectedOperation n = Done n' ∧
    NoDup (widgets n') ∧
    (∀ nm w, nm ∈ parameters → captured nm = Some w →
             (w ∈ widgets n' ↔ nm ∈ selected selectedOperation)) ∧
    filter (fun x => Some x ∉ captured <$> parameters) (widgets n')
    = filter (fun x => Some x ∉ captured <$> parameters) (widgets n).
Proof.
  intros Hnd Hcap. unfold updateWidgetVisibility.
  assert (∀ w, Some w ∈ captured <$> parameters →
               ∃ nm, nm ∈ parameters ∧ captured nm = Some w) as Hpar.
  { intros w (nm & ? & ?)%list_elem_of_fmap. eauto. }
  destruct (hideWidget_each fuel (captured <$> parameters) n Hnd)
    as (n1 & -> & Hw1 & Hh1 & Ho1).
  { intros w (nm & Hnm & Hc)%Hpar. by apply (Hcap nm). }
  rewrite bind_done.
  assert (NoDup (widgets n1)) as Hnd1.
  { rewrite Hw1. by apply NoDup_filter. }
  set (sel := selected selectedOperation).
  assert (∀ w, Some w ∈ captured <$> sel → Some w ∈ captured <$> parameters)
    as Hsub.
  { intros w (nm & ? & Hnm)%list_elem_of_fmap. apply list_elem_of_fmap.
    exists nm. split; [done|]. exact (selected_parameters _ nm Hnm). }
  destruct (showWidget_each fuel (captured <$> sel) n1 Hnd1)
    as (n2 & -> & Hnd2 & Hf2 & Hm2).
  { intros w Hw%Hsub. destruct (Hh1 w Hw) as [Hh Hl]. split; [done|].
    rewrite Hh, Hw1, list_elem_of_filter. split; [tauto|done]. }
  exists n2. split; [done|]. split; [done|]. split.
  - intros nm w Hnm Hc. rewrite Hm2, Hw1, list_elem_of_filter. split.
    + intros [[Hout _]|Hin].
      * exfalso. apply Hout. apply list_elem_of_fmap. eauto.
      * apply list_elem_of_fmap in Hin as (nm' & Hc' & Hnm').
        pose proof (selected_parameters _ nm' Hnm') as Hp'.
        destruct (Hcap nm w Hnm Hc) as [<- _].
        destruct (Hcap nm' w Hp' (eq_sym Hc')) as [<- _]. done.
    + intros Hsel. right. apply list_elem_of_fmap. eauto.
  - transitivity (filter (fun x => Some x ∉ captured <$> parameters)
                    (filter (fun x => Some x ∉ captured <$> sel) (widgets n2))).
    { rewrite list_filter_filter. apply list_filter_iff. intros x.
      split; [|tauto]. intros H. split; [done|]. intros Hx. by apply H, Hsub. }
    rewrite Hf2, list_filter_filter, Hw1, list_filter_filter.
    apply list_filter_iff. intros x. split; [tauto|].
    intros H. repeat split; try done. intros Hx. by apply H, Hsub.
Qed.

(** X22: hiding a listed, unlinked widget and showing it again puts it
    back at the index it had: the node lists the same widgets in the same
    order, the widget is no longer marked hidden, and when nothing had
    been remembered for it before, its type and its size and serialize
    functions are the ones it had. *)
Theorem hide_then_show_restores (fuel w : nat) (n : Node) :
  NoDup (widgets n) → w ∈ widgets n →
  _hidden (objects n w) = false → linkedWidgets (objects n w) = [] →
  ∃ n1 n2,
    hideWidget (S fuel) (Some w) n = Done n1 ∧
    (w ∉ widgets n1) ∧
    showWidget (S fuel) (Some w) n1 = Done n2 ∧
    widgets n2 = widgets n ∧
    _hidden (objects n2 w) = false ∧
    (truthy (origType (objects n w)) = false →
     type (objects n2 w) = type (objects n w) ∧
     computeSize (objects n2 w) = computeSize (objects n w) ∧
     serializeValue (objects n2 w) = serializeValue (objects n w)) ∧
    (∀ x, x ≠ w → objects n2 x = objects n x).
Proof.
  intros Hnd Hw Hh Hl. rewrite (hideWidget_unlinked fuel w n Hl), Hh.
  destruct (indexOf (widgets n) w) as [i|] eqn:Ei.
  2:{ apply indexOf_None in Ei. done. }
  destruct (indexOf_Some _ _ _ Ei) as [Hi _].
  set (o1 := set_hidden true (Some i) (remember (objects n w))).
  set (n1 := mkNode _ _).
  assert (objects n1 w = o1) as Ho1 by apply update_same.
  assert (linkedWidgets (objects n1 w) = []) as Hl1.
  { rewrite Ho1. simpl. by rewrite linked_remember. }
  exists n1. eexists. split; [reflexivity|]. split.
  { unfold n1. simpl. rewrite (delete_filter _ w i Hnd Hi).
    rewrite list_elem_of_filter. tauto. }
  split; [apply (showWidget_unlinked fuel w n1 Hl1)|].
  rewrite Ho1. cbn [_hidden _originalIndex o1 set_hidden objects widgets].
  rewrite update_same.
  split; [by apply insertAt_delete|]. split; [done|].
  split.
  - intros Ho. unfold o1, remember, restore. rewrite Ho.
    simpl. destruct (truthy (type (objects n w))); simpl; [|done].
    by destruct (truthy (serializeValue (objects n w))).
  - intros x Hx. rewrite update_other by done. unfold n1. simpl.
    by rewrite update_other.
Qed.

Lemma each_hide_captured (fuel : nat) (captured : string → option nat)
  (names : list string) (n : Node) :
  each (hideWidget (S fuel)) (captured <$> names) n
  = each (hideWidget (S fuel)) (Some <$> omap captured names) n.
Proof.
  revert n. induction names as [|nm names IH]; intros n; [done|].
  rewrite fmap_cons, each_cons. simpl omap. destruct (captured nm) as [w|].
  - rewrite fmap_cons, each_cons. destruct (hideWidget _ _ _); try done.
    rewrite !bind_done. apply IH.
  - simpl hideWidget. rewrite bind_done. apply IH.
Qed.

Lemma each_show_captured (fuel : nat) (captured : string → option nat)
  (names : list string) (n : Node) :
  each (showWidget (S fuel)) (captured <$> names) n
  = each (showWidget (S fuel)) (Some <$> omap captured names) n.
Proof.
  revert n. induction names as [|nm names IH]; intros n; [done|].
  rewrite fmap_cons, each_cons. simpl omap. destruct (captured nm) as [w|].
  - rewrite fmap_cons, each_cons. destruct (showWidget _ _ _); try done.
    rewrite !bind_done. apply IH.
  - simpl showWidget. rewrite bind_done. apply IH.
Qed.

Lemma delete_middle (pre post : list nat) (w : nat) :
  delete (length pre) (pre ++ w :: post) = pre ++ post.
Proof. induction pre as [|y pre IH]; simpl; [done|by f_equal]. Qed.

Lemma insertAt_middle (pre post : list nat) (w : nat) :
  insertAt (length pre `min` length (pre ++ post)) w (pre ++ post)
  = pre ++ w :: post.
Proof.
  rewrite length_app, Nat.min_l by lia. unfold insertAt.
  by rewrite take_app_length, drop_app_length.
Qed.

(** Hiding a run of visible widgets that are listed next to each other:
    each one is taken out at the position where the run starts. *)
Lemma hideWidget_block (fuel : nat) (pre post ws : list nat) (n : Node) :
  widgets n = pre ++ ws ++ post → NoDup (widgets n) →
  (∀ w, w ∈ ws →
        _hidden (objects n w) = false ∧ linkedWidgets (objects n w) = []) →
  ∃ n',
    each (hideWidget (S fuel)) (Some <$> ws) n = Done n' ∧
    widgets n' = pre ++ post ∧
    (∀ w, w ∈ ws →
          _hidden (objects n' w) = true ∧
          _originalIndex (objects n' w) = Some (length pre) ∧
          linkedWidgets (objects n' w) = []) ∧
    (∀ x, x ∉ ws → objects n' x = objects n x).
Proof.
  revert n. induction ws as [|w ws IH]; intros n Hw Hnd Hvis.
  - exists n. split; [done|]. split; [done|]. split; [|done].
    intros w H. by apply elem_of_nil in H.
  - destruct (Hvis w) as [Hh Hl]; [by left|].
    rewrite fmap_cons, each_cons, (hideWidget_unlinked fuel w n Hl), Hh.
    assert ((w ∉ pre) ∧ (w ∉ ws)) as [Hpre Hws].
    { rewrite Hw in Hnd. apply NoDup_app in Hnd as (_ & Hd & Hnd').
      simpl in Hnd'. apply NoDup_cons in Hnd' as [Hn _].
      rewrite not_elem_of_app in Hn. split; [|tauto].
      intros Hp. apply (Hd w Hp). by left. }
    simpl app in Hw. rewrite Hw, (indexOf_app pre _ w Hpre), bind_done.
    rewrite delete_middle.
    set (n1 := mkNode _ _).
    destruct (IH n1) as (n' & H' & Hw' & Hh' & Ho').
    { done. }
    { simpl. rewrite Hw in Hnd. apply NoDup_app in Hnd as (H1 & H2 & H3).
      apply NoDup_cons in H3 as [_ H3]. apply NoDup_app. split; [done|].
      split; [|done]. intros x Hx Hx'. apply (H2 x Hx). by right. }
    { intros x Hx. unfold n1. simpl. rewrite update_other.
      - apply Hvis. by right.
      - intros ->. done. }
    exists n'. split; [exact H'|]. split; [exact Hw'|]. split.
    + intros x [->|Hx]%elem_of_cons; [|by apply Hh'].
      rewrite (Ho' w Hws). unfold n1. simpl. rewrite update_same. simpl.
      by rewrite linked_remember.
    + intros x [Hx1 Hx2]%not_elem_of_cons. rewrite (Ho' x Hx2).
      unfold n1. simpl. by rewrite update_other.
Qed.

(** Showing widgets that were all taken out at the same position: each
    one is put back in front of the ones shown before it. *)
Lemma showWidget_block (fuel : nat) (pre post ws mid : list nat) (n : Node) :
  widgets n = pre ++ mid ++ post → NoDup ws →
  (∀ w, w ∈ ws →
        _hidden (objects n w) = true ∧
        _originalIndex (objects n w) = Some (length pre) ∧
        linkedWidgets (objects n w) = []) →
  ∃ n',
    each (showWidget (S fuel)) (Some <$> ws) n = Done n' ∧
    widgets n' = pre ++ reverse ws ++ mid ++ post.
Proof.
  revert n mid. induction ws as [|w ws IH]; intros n mid Hw Hnd Hhid.
  - exists n. split; [done|]. by rewrite Hw.
  - destruct (Hhid w) as (Hh & Hi & Hl); [by left|].
    apply NoDup_cons in Hnd as [Hws Hnd].
    rewrite fmap_cons, each_cons, (showWidget_unlinked fuel w n Hl), Hh, Hi.
    rewrite bind_done, Hw, insertAt_middle.
    set (n1 := mkNode _ _).
    destruct (IH n1 (w :: mid)) as (n' & H' & Hw').
    { done. }
    { done. }
    { intros x Hx. unfold n1. simpl. rewrite update_other.
      - apply Hhid. by right.
      - intros ->. done. }
    exists n'. split; [exact H'|]. rewrite Hw', reverse_cons.
    by rewrite <- !app_assoc.
Qed.

Lemma sublist_omap {A B : Type} (f : A → option B) (l1 l2 : list A) :
  l1 `sublist_of` l2 → omap f l1 `sublist_of` omap f l2.
Proof.
  induction 1 as [|x l1 l2 _ IH|x l1 l2 _ IH]; simpl.
  - constructor.
  - destruct (f x); [by constructor|done].
  - destruct (f x); [by constructor|done].
Qed.

Lemma selected_sublist (op : value) : selected op `sublist_of` parameters.
Proof.
  unfold selected, parameters.
  repeat match goal with
         | |- context [if ?b then _ else _] => destruct b
         end;
    repeat first [apply sublist_nil_l | apply sublist_skip | apply sublist_cons].
Qed.

(** X21: the first [updateWidgetVisibility] on a node reverses the order
    of the parameters it shows.  When the parameter widgets are all
    visible and listed next to each other in the order the closure hides
    them, each is recorded as taken from the position where the run
    starts, so the widgets of the selected operation come back at that
    position one in front of the other: in reverse order. *)
Theorem first_update_reverses_order (fuel : nat)
  (captured : string → option nat) (selectedOperation : value)
  (pre post : list nat) (n : Node) :
  widgets n = pre ++ omap captured parameters ++ post →
  NoDup (widgets n) →
  (∀ w, w ∈ omap captured parameters →
        _hidden (objects n w) = false ∧ linkedWidgets (objects n w) = []) →
  ∃ n',
    updateWidgetVisibility (S fuel) captured selectedOperation n = Done n' ∧
    widgets n'
    = pre ++ reverse (omap captured (selected selectedOperation)) ++ post.
Proof.
  intros Hw Hnd Hvis. unfold updateWidgetVisibility.
  rewrite each_hide_captured.
  destruct (hideWidget_block fuel pre post _ n Hw Hnd Hvis)
    as (n1 & -> & Hw1 & Hh1 & _).
  rewrite bind_done, each_show_captured.
  pose proof (sublist_omap captured _ _ (selected_sublist selectedOperation))
    as Hsub.
  assert (NoDup (omap captured parameters)) as Hndp.
  { rewrite Hw in Hnd. apply NoDup_app in Hnd as (_ & _ & Hnd).
    by apply NoDup_app in Hnd as (Hnd & _ & _). }
  destruct (showWidget_block fuel pre post
              (omap captured (selected selectedOperation)) [] n1)
    as (n2 & -> & Hw2).
  - done.
  - by apply (sublist_NoDup _ _ Hndp).
  - intros w Hin. apply Hh1. by eapply elem_of_sublist.
  - exists n2. split; [done|]. by rewrite Hw2.
Qed.

(** A run of [hideWidget] calls, each with fuel above the length of the
    widget list it meets, given that one such call returns. *)
Lemma each_hide_terminates (fuel : nat) (links : list nat) :
  (∀ w n, length (widgets n) < fuel →
          ∃ n', hideWidget fuel w n = Done n' ∧
                widgets n' `sublist_of` widgets n ∧
                (∀ x, _hidden (objects n x) = true →
                      _hidden (objects n' x) = true) ∧
                (∀ x, x ∈ widgets n → x ∉ widgets n' →
                      _hidden (objects n' x) = true))%nat →
  ∀ n, (length (widgets n) < fuel)%nat →
       ∃ n', each (fun l => hideWidget fuel (Some l)) links n = Done n' ∧
             widgets n' `sublist_of` widgets n ∧
             (∀ x, _hidden (objects n x) = true →
                   _hidden (objects n' x) = true) ∧
             (∀ x, x ∈ widgets n → x ∉ widgets n' →
                   _hidden (objects n' x) = true).
Proof.
  intros Hone. induction links as [|l links IH]; intros n Hlen.
  - exists n. by repeat split.
  - destruct (Hone (Some l) n Hlen) as (n1 & H1 & Hs1 & Hm1 & Hr1).
    destruct (IH n1) as (n' & H' & Hs' & Hm' & Hr').
    { apply sublist_length in Hs1. lia. }
    exists n'. rewrite each_cons, H1. split; [exact H'|]. split; [|split].
    + by etrans.
    + intros x Hx. by apply Hm', Hm1.
    + intros x Hin Hout. destruct (decide (x ∈ widgets n1)) as [Hx|Hx].
      * by apply Hr'.
      * by apply Hm', Hr1.
Qed.

(** X23: [hideWidget] returns whatever the links between widgets are,
    cycles included: a nesting depth above the number of listed widgets is
    never exceeded, since every nested call that goes on takes a widget
    off the list first.  The list it leaves is the old one with some
    widgets taken out, a widget marked hidden stays so, and every widget
    that left the list is marked hidden. *)
Theorem hideWidget_terminates (fuel : nat) (w : option nat) (n : Node) :
  (length (widgets n) < fuel)%nat →
  ∃ n',
    hideWidget fuel w n = Done n' ∧
    widgets n' `sublist_of` widgets n ∧
    (∀ x, _hidden (objects n x) = true → _hidden (objects n' x) = true) ∧
    (∀ x, x ∈ widgets n → x ∉ widgets n' → _hidden (objects n' x) = true).
Proof.
  revert w n. induction fuel as [|fuel IH]; intros w n Hlen; [lia|].
  simpl. destruct w as [w|]; [|by exists n].
  destruct (_hidden (objects n w)) eqn:Eh; [by exists n|].
  destruct (indexOf (widgets n) w) as [i|] eqn:Ei; [|by exists n].
  destruct (indexOf_Some _ _ _ Ei) as [Hi _].
  set (n1 := mkNode _ _).
  assert (length (widgets n1) < fuel)%nat as Hlen1.
  { unfold n1. simpl. rewrite length_delete by eauto. 
    apply lookup_lt_Some in Hi. lia. }
  destruct (each_hide_terminates fuel
              (linkedWidgets (set_hidden true (Some i) (remember (objects n w))))
              IH n1 Hlen1)
    as (n' & H' & Hs' & Hm' & Hr').
  exists n'. split; [exact H'|]. split; [|split].
  - etrans; [exact Hs'|]. unfold n1. simpl. apply sublist_delete.
  - intros x Hx. apply Hm'. unfold n1. simpl.
    destruct (decide (x = w)) as [->|Hne].
    + by rewrite update_same.
    + by rewrite update_other.
  - intros x Hin Hout. destruct (decide (x ∈ widgets n1)) as [Hx|Hx].
    + by apply Hr'.
    + apply Hm'. unfold n1 in *. simpl in *.
      destruct (decide (x = w)) as [->|Hne]; [by rewrite update_same|].
      exfalso. apply Hx.
      apply list_elem_of_lookup in Hin as [j Hj].
      destruct (decide (j < i)%nat).
      * apply (list_elem_of_lookup_2 _ j). by rewrite list_lookup_delete_lt.
      * assert (j ≠ i) by (intros ->; congruence).
        apply (list_elem_of_lookup_2 _ (pred j)).
        rewrite list_lookup_delete_ge by lia.
        by replace (S (pred j)) with j by lia.
Qed.

End WidgetProps.

(** ** Handle names of the cropping widget *)

Section CroppingProps.

Import Stdlib.Strings.Ascii Cropping.

Lemma axisOf_zero (c : Ascii.ascii) : axisOf c = 0 ↔ c = "="%char.
Proof.
  unfold axisOf. destruct (Ascii.eqb c "-"%char) eqn:E1.
  { apply Ascii.eqb_eq in E1 as ->. done. }
  destruct (Ascii.eqb c "="%char) eqn:E2.
  { apply Ascii.eqb_eq in E2 as ->. done. }
  apply Ascii.eqb_neq in E2.
  destruct (Ascii.eqb c "+"%char); split; done.
Qed.

(** X24: [handleTypeFromName] classifies a handle by how many of the first
    three characters of its name are ['=']: none gives a corner, one an
    edge, two or three a face, whatever the other characters are; a name
    of fewer than three characters is a corner. *)
Theorem handleTypeFromName_counts_centred_axes (a b c : Ascii.ascii)
  (rest : string) :
  handleTypeFromName (String a (String b (String c rest)))
  = match centred [a; b; c] with
    | 0%nat => "corners"
    | 1%nat => "edges"
    | _ => "faces"
    end
  ∧ handleTypeFromName (String a (String b "")) = "corners"
  ∧ handleTypeFromName (String a "") = "corners"
  ∧ handleTypeFromName "" = "corners".
Proof.
  split; [|done].
  unfold handleTypeFromName, centred.
  cbn [String.list_ascii_of_string fmap list_fmap lookup list_lookup times
       nonzero].
  pose proof (axisOf_zero a) as Ha. pose proof (axisOf_zero b) as Hb.
  pose proof (axisOf_zero c) as Hc.
  rewrite !filter_cons, filter_nil.
  destruct (decide (a = "="%char)) as [Ea|Ea];
  destruct (decide (b = "="%char)) as [Eb|Eb];
  destruct (decide (c = "="%char)) as [Ec|Ec];
  try (apply Ha in Ea as Ea'; rewrite Ea');
  try (apply Hb in Eb as Eb'; rewrite Eb');
  try (apply Hc in Ec as Ec'; rewrite Ec');
  rewrite ?Z.mul_0_l, ?Z.mul_0_r; simpl;
  repeat match goal with
         | H : ?x ≠ "="%char, H' : axisOf ?x = 0 ↔ _ |- _ =>
             assert (axisOf x ≠ 0) by (rewrite H'; exact H); clear H'
         end;
  repeat match goal with
         | |- context [Z.eqb ?x 0] =>
             let E := fresh in
             destruct (Z.eqb_spec x 0) as [E|E]; [exfalso; nia|]
         end; try reflexivity.
Qed.

End CroppingProps.

(** ** The further properties at sample inputs *)

Section Instances.

Import Js Vtk Dual Sample Cases.

(** X3 at the messages [{type: "screenshot"}], which returns, and
    [{type: "setLayout", layout: {toString: 1}}], which throws. *)
Lemma onMessage_exceptions_witness :
  (prop shot "type" ≠ Str "setField" ∧
   prop shot "type" ≠ Str "setLayout" ∧
   prop shot "type" ≠ Str "setCameraSync" ∧
   prop oddLayout "type" = Str "setLayout") ∧
  (∃ v', onMessage shot viewer = Done v') ∧
  onMessage oddLayout viewer
  = Raised TypeError (set_layout (Obj [("toString", Num 1)]) viewer).
Proof.
  assert (prop shot "type" ≠ Str "setField") as H1
    by (vm_compute; discriminate).
  assert (prop shot "type" ≠ Str "setLayout") as H2
    by (vm_compute; discriminate).
  assert (prop shot "type" ≠ Str "setCameraSync") as H3
    by (vm_compute; discriminate).
  assert (prop oddLayout "type" = Str "setLayout") as H4
    by (vm_compute; reflexivity).
  split; [done|]. split.
  - apply (onMessage_exceptions shot viewer); assumption.
  - destruct (onMessage_exceptions oddLayout viewer) as (K & _).
    exact (K H4).
Defined.

(** X4 at the message [{type: "loadMesh", viewport: "B", url: "mesh2.obj"}]. *)
Lemma load_message_routing_witness :
  ready viewer ∧
  ∃ v', onMessage loadB viewer = Done v' ∧
        inflight v' !! 0%nat
        = Some (mkSuspended SlotB (Str "B") (Str "mesh2.obj")).
Proof.
  assert (ready viewer) as H by (intros []; simpl; eauto).
  split; [exact H|].
  destruct (load_message_routing loadB viewer H) as (_ & _ & K).
  destruct (K eq_refl) as (v' & K1 & K2 & _).
  exists v'. split; [exact K1|exact K2].
Defined.

(** X5 at the message [{type: "loadMesh"}]. *)
Lemma load_message_without_url_witness :
  (ready viewer ∧ prop loadNoUrl "type" = Str "loadMesh" ∧
   truthy (prop loadNoUrl "url") = false ∧
   truthy (prop loadNoUrl "viewport") = false) ∧
  Base.onMessage loadNoUrl base = Done base ∧
  ∃ v', Dual.onMessage loadNoUrl viewer = Done v' ∧
        inflight v' !! 0%nat = Some (mkSuspended SlotA (Str "A") Undefined).
Proof.
  assert (ready viewer) as H1 by (intros []; simpl; eauto).
  assert (prop loadNoUrl "type" = Str "loadMesh") as H2 by reflexivity.
  assert (truthy (prop loadNoUrl "url") = false) as H3 by reflexivity.
  assert (truthy (prop loadNoUrl "viewport") = false) as H4 by reflexivity.
  split; [done|].
  destruct (load_message_without_url loadNoUrl viewer base standard
              H1 H2 H3 H4) as (K1 & _ & v' & K2 & K3 & _).
  split; [exact K1|]. exists v'. split; [exact K2|exact K3].
Defined.

(** X6 at the sample viewer with both meshes loaded and the range
    [[0, 1]]. *)
Lemma applyField_explicit_range_witness :
  (truthy (prop (config bothLoaded) "enableFields") = true ∧
   ready bothLoaded ∧ live bothLoaded ∧
   DualView.givenRange unitRange = Some (Arr [Num 0; Num 1])) ∧
  applyField (Str "point:height") unitRange bothLoaded
  = Done (set_log
            (log bothLoaded ++
             [FieldApplied SlotA (Str "point:height") (Arr [Num 0; Num 1]);
              FieldApplied SlotB (Str "point:height") (Arr [Num 0; Num 1]);
              Render SlotA; Render SlotB])
            bothLoaded).
Proof.
  assert (truthy (prop (config bothLoaded) "enableFields") = true) as H1
    by reflexivity.
  assert (ready bothLoaded) as H2 by (intros []; simpl; eauto).
  assert (live bothLoaded) as H4 by reflexivity.
  assert (DualView.givenRange unitRange = Some (Arr [Num 0; Num 1])) as H3
    by reflexivity.
  split; [done|].
  destruct (applyField_explicit_range (Str "point:height") unitRange
              bothLoaded H1 H2 H4) as (K & _).
  exact (K _ H3 (or_introl eq_refl)).
Defined.

(** X7 at the sample viewer with both meshes loaded: the ranges [[0, 10]]
    and [[5, 20]] give [[0, 20]] on both viewports. *)
Lemma applyField_synchronized_witness :
  (truthy (prop (config bothLoaded) "enableFields") = true ∧
   DualView.givenRange Undefined = Some Undefined ∧
   truthy (syncFields bothLoaded) = true) ∧
  applyField (Str "point:height") Undefined bothLoaded
  = Done (set_log
            (log bothLoaded ++
             [FieldApplied SlotA (Str "point:height") (Arr [Num 0; Num 20]);
              FieldApplied SlotB (Str "point:height") (Arr [Num 0; Num 20]);
              Render SlotA; Render SlotB])
            bothLoaded).
Proof.
  assert (truthy (prop (config bothLoaded) "enableFields") = true) as H1
    by reflexivity.
  assert (DualView.givenRange Undefined = Some Undefined) as H2 by reflexivity.
  assert (truthy (syncFields bothLoaded) = true) as H3 by reflexivity.
  split; [done|].
  assert (omap polyData
            [{| id := "A";
                camera := mkCamera defaultPose [SyncCameraFrom SlotA];
                scene := [1%nat];
                actors := [1%nat];
                polyData := Some dataset1;
                filename := Str "mesh1.obj" |};
             {| id := "B";
                camera := mkCamera defaultPose [SyncCameraFrom SlotB];
                scene := [2%nat];
                actors := [2%nat];
                polyData := Some dataset2;
                filename := Str "mesh2.obj" |}] ≠ []) as H4 by discriminate.
  exact (applyField_synchronized "point:height" Undefined Undefined
           bothLoaded _ _ H1 eq_refl eq_refl H2 eq_refl H3 H4).
Defined.

(** X8 at the sample viewer with both meshes loaded. *)
Lemma setCameraView_moves_both_witness :
  (wired bothLoaded ∧ _isUpdatingCamera bothLoaded = false) ∧
  ∃ v', setCameraView X1 2 (Str "+X") bothLoaded = Done v' ∧
        poseOf SlotA v' = Some rotated ∧
        poseOf SlotB v' = Some rotated.
Proof.
  assert (wired bothLoaded) as H1 by (intros []; reflexivity).
  assert (_isUpdatingCamera bothLoaded = false) as H2 by reflexivity.
  split; [done|].
  destruct (setCameraView_moves_both X1 0 (Str "+X") bothLoaded _ _
              eq_refl eq_refl ltac:(discriminate) H2 (or_introl H1))
    as (v' & K1 & K2 & K3 & _).
  exists v'. split; [exact K1|]. split; [exact K2|exact K3].
Defined.

(** X9 at the sample viewer holding [mesh1.obj], into which [mesh2.obj]
    is loaded. *)
Lemma load_keeps_scene_consistent_witness :
  ready loaded ∧
  ∃ v1 v2 vp2,
    loadMesh (Str "A") (Str "mesh2.obj") loaded = Done v1 ∧
    loadMesh_resolved X0 2 1 mesh2 v1 = Done v2 ∧
    viewportA v2 = Some vp2 ∧
    actors vp2 = [2%nat] ∧
    DualView.consistent vp2.
Proof.
  assert (ready loaded) as H1 by (intros []; simpl; eauto).
  split; [exact H1|].
  destruct (load_keeps_scene_consistent X0 0 (Str "A") (Str "mesh2.obj")
              mesh2 loaded _ H1 eq_refl (fun x Hx => Hx))
    as (v1 & v2 & vp2 & K1 & K2 & K3 & K4 & K5).
  exists v1, v2, vp2. done.
Defined.

(** X10 at the sample viewer: [mesh1.obj] then [mesh2.obj] are issued for
    viewport A, [mesh2.obj] completes first, and its actor [2] stays in
    the renderer while the viewport lists actor [1] only. *)
Lemma overtaken_load_orphans_actors_witness :
  ready viewer ∧
  ∃ v1 v2 v3 v4 vp4,
    loadMesh (Str "A") (Str "mesh1.obj") viewer = Done v1 ∧
    loadMesh (Str "A") (Str "mesh2.obj") v1 = Done v2 ∧
    loadMesh_resolved X0 2 1 mesh2 v2 = Done v3 ∧
    loadMesh_resolved X0 2 0 mesh1 v3 = Done v4 ∧
    viewportA v4 = Some vp4 ∧
    2%nat ∈ scene vp4 ∧ (2%nat ∉ actors vp4).
Proof.
  assert (ready viewer) as H1 by (intros []; simpl; eauto).
  split; [exact H1|].
  destruct (overtaken_load_orphans_actors X0 0 (Str "A") (Str "mesh1.obj")
              (Str "mesh2.obj") (Str "mesh3.obj") mesh1 mesh2 viewer H1)
    as (v1 & v2 & v3 & v4 & v5 & vp4 & vp5 & vp6 & K1 & K2 & K3 & K4 & K5
        & _ & _ & _ & _ & K9).
  exists v1, v2, v3, v4, vp4.
  destruct (K9 2%nat) as (L1 & L2 & _).
  { apply list_elem_of_singleton. reflexivity. }
  { intros L%list_elem_of_singleton. discriminate. }
  done.
Defined.

(** X11 at the sample viewer with [mesh1.obj] pending for viewport A. *)
Lemma load_positions_cameras_witness :
  (ready loading ∧ live loading ∧ wired loading ∧
   _isUpdatingCamera loading = false) ∧
  ∃ v', loadMesh_resolved X1 2 0 mesh1 loading = Done v' ∧
        poseOf SlotA v' = Some rotated ∧
        poseOf SlotB v' = Some rotated.
Proof.
  assert (ready loading) as H1 by (intros []; simpl; eauto).
  assert (live loading) as H0 by reflexivity.
  assert (wired loading) as H2 by (intros []; reflexivity).
  assert (_isUpdatingCamera loading = false) as H3 by reflexivity.
  split; [done|].
  destruct (load_positions_cameras X1 0 0 mesh1 loading _ rotated H1 H0
              eq_refl H3 ltac:(discriminate) eq_refl (or_introl H2))
    as (v' & K1 & K2 & K3).
  exists v'. split; [exact K1|]. split; [exact K2|exact K3].
Defined.

End Instances.

Section MoreInstances.

Import Js Vtk Sample Cases.

(** X12 at the sample BaseViewer. *)
Lemma base_destroy_again_spares_scene_and_document_witness :
  Base.renderer base = Some [] ∧
  ∃ w1 w2,
    Base.destroy base = Done w1 ∧
    Base.destroy w1 = Done w2 ∧
    Base.log w2
    = Base.log w1 ++
      [Base.MessageCleanup; Base.ResizeDisconnect; Base.UnbindEvents;
       Base.DeleteOpenGLRenderWindow; Base.DeleteRenderWindow;
       Base.ConsoleLog "[BaseViewer] Destroyed"].
Proof.
  assert (Base.renderer base = Some []) as H by reflexivity.
  split; [exact H|].
  destruct (base_destroy_again_spares_scene_and_document [] base H)
    as (w1 & w2 & K1 & K2 & _ & K3).
  exists w1, w2. split; [exact K1|]. split; [exact K2|exact K3].
Defined.

(** X13 at the sample BaseViewer with [mesh1.obj] being loaded: the load
    resolves. *)
Lemma base_load_completion_notifies_once_witness :
  (Base.loadingOverlay baseLoading = Some true ∧
   Base.renderer baseLoading = Some [] ∧
   Base.inflight baseLoading !! 0%nat = Some (Str "mesh1.obj") ∧
   BaseView.live baseLoading) ∧
  ∃ w2 mid,
    Base.loadMesh_resolved (fun u => u) (fun _ => false) 0 mesh1 baseLoading
    = Done w2 ∧
    Forall (fun e => BaseView.internal e = true) mid ∧
    Base.log w2
    = Base.log baseLoading ++ mid ++
      [Base.ShowLoading false;
       Base.SendMeshLoaded (Str "mesh1.obj") (Str "obj") 1 false false;
       Base.Render].
Proof.
  assert (Base.loadingOverlay baseLoading = Some true) as H1 by reflexivity.
  assert (Base.renderer baseLoading = Some []) as H2 by reflexivity.
  assert (Base.inflight baseLoading !! 0%nat = Some (Str "mesh1.obj")) as H3
    by reflexivity.
  assert (BaseView.live baseLoading) as H4 by (split; reflexivity).
  split; [done|].
  destruct (base_load_completion_notifies_once (fun u => u) (fun _ => false)
              (Str "mesh2.obj") (Str "mesh1.obj") true [] 0 baseLoading H1 H2)
    as (_ & K & _).
  destruct (K H3 H4 mesh1) as (w2 & mid & K1 & K2 & K3 & _).
  exists w2, mid. split; [exact K1|]. split; [exact K2|exact K3].
Defined.

(** X14 at the sample StandardViewer holding [mesh1.obj]. *)
Lemma setColormap_reapplies_current_field_witness :
  (Base.fieldVisualization (Standard.super standardLoaded) = true ∧
   truthy (Str "point:height") = true) ∧
  Standard.currentColormap
    (Standard.setColormap (Str "viridis")
       (Standard.applyField (Str "point:height") Undefined
          (Arr [Num 0; Num 1]) standardLoaded))
  = Str "viridis" ∧
  Base.log
    (Standard.super
       (Standard.setColormap (Str "viridis")
          (Standard.applyField (Str "point:height") Undefined
             (Arr [Num 0; Num 1]) standardLoaded)))
  = Base.log
      (Standard.super
         (Standard.applyField (Str "point:height") Undefined
            (Arr [Num 0; Num 1]) standardLoaded))
    ++ [Base.FieldApplied (Str "point:height") (Str "viridis") Undefined].
Proof.
  assert (Base.fieldVisualization (Standard.super standardLoaded) = true)
    as H1 by reflexivity.
  assert (truthy (Str "point:height") = true) as H2 by reflexivity.
  split; [done|].
  destruct (setColormap_reapplies_current_field (Str "point:height")
              Undefined (Arr [Num 0; Num 1]) standardLoaded H1
              ltac:(discriminate) ltac:(discriminate) H2)
    as (_ & K & _).
  destruct (K (Str "viridis")) as (_ & K1 & K2).
  split; [exact K1|exact K2].
Defined.

(** X15 at two actors, the bounds of the first lying within those of the
    second. *)
Lemma combinedBounds_least_enclosing_witness :
  Bounds.combinedBounds boxes [1%nat; 2%nat] = Some (boxes 2%nat) ∧
  Bounds.within (boxes 1%nat) (boxes 2%nat) ∧
  Bounds.combinedBounds boxes [2%nat; 1%nat] = Some (boxes 2%nat).
Proof.
  assert (Bounds.combinedBounds boxes [1%nat; 2%nat] = Some (boxes 2%nat)) as H
    by reflexivity.
  split; [exact H|].
  destruct (combinedBounds_least_enclosing boxes [1%nat; 2%nat] (boxes 2%nat) H)
    as (K1 & _ & K2).
  split.
  - apply K1. apply list_elem_of_here.
  - apply K2. apply perm_swap.
Defined.

(** X18 at a deployment under [/dev/sd-comfyui]. *)
Lemma viewer_page_recovers_base_path_witness :
  (PathUtils.pathname page
   = PathUtils.getViewerUrl parent "0" "viewer_vtk.html" false ∧
   PathUtils.indexOf (PathUtils.getBasePath parent +:+ "/extensions/")
     "/extensions/"
   = Some (String.length (PathUtils.getBasePath parent)) ∧
   PathUtils.getBasePath parent ≠ "") ∧
  PathUtils.getBasePathForHTML page = "/dev/sd-comfyui".
Proof.
  assert (PathUtils.pathname page
          = PathUtils.getViewerUrl parent "0" "viewer_vtk.html" false) as H1
    by reflexivity.
  assert (PathUtils.indexOf (PathUtils.getBasePath parent +:+ "/extensions/")
            "/extensions/"
          = Some (String.length (PathUtils.getBasePath parent))) as H3
    by reflexivity.
  assert (PathUtils.getBasePath parent ≠ "") as H2 by discriminate.
  split; [done|].
  exact (viewer_page_recovers_base_path parent page "0" "viewer_vtk.html"
           H1 H3 (or_introl H2)).
Defined.

End MoreInstances.

Section WidgetInstances.

Import Js Widgets Cases.

Lemma find_Some (n : Node) (nm : string) (w : nat) :
  find n nm = Some w → w ∈ widgets n ∧ name (objects n w) = nm.
Proof.
  unfold find. destruct (list_find _ _) as [[i x]|] eqn:E; [|done].
  intros [= <-]. apply list_find_Some in E as (Hi & Hn & _).
  split; [by eapply list_elem_of_lookup_2|done].
Qed.

(** X20 at a Transform Mesh node as created, for the operation
    [translate]. *)
Lemma updateWidgetVisibility_shows_selected_witness :
  NoDup (widgets transformNode) ∧
  ∃ n',
    updateWidgetVisibility 1 (find transformNode) (Str "translate")
      transformNode = Done n' ∧
    NoDup (widgets n') ∧
    1%nat ∈ widgets n' ∧ (4%nat ∉ widgets n').
Proof.
  assert (NoDup (widgets transformNode)) as H1 by apply NoDup_seq.
  split; [exact H1|].
  destruct (updateWidgetVisibility_shows_selected 0 (find transformNode)
              (Str "translate") transformNode H1)
    as (n' & K1 & K2 & K3 & _).
  { intros nm w _ Hw. destruct (find_Some _ _ _ Hw) as [L1 L2].
    split; [exact L2|]. split; [reflexivity|]. split; [reflexivity|].
    intros _. exact L1. }
  exists n'. split; [exact K1|]. split; [exact K2|]. split.
  - apply (K3 "translate_x" 1%nat).
    + apply list_elem_of_here.
    + reflexivity.
    + apply list_elem_of_here.
  - intros L. apply (K3 "rotate_x" 4%nat) in L.
    + change (selected (Str "translate"))
        with ["translate_x"; "translate_y"; "translate_z"] in L.
      repeat (apply elem_of_cons in L as [L|L]; [discriminate|]).
      by apply elem_of_nil in L.
    + do 3 apply list_elem_of_further. apply list_elem_of_here.
    + reflexivity.
Defined.

(** X21 at a Transform Mesh node as created: [translate_x], [translate_y],
    [translate_z] come back as [translate_z], [translate_y],
    [translate_x]. *)
Lemma first_update_reverses_order_witness :
  (widgets transformNode
   = [0%nat] ++ omap (find transformNode) parameters ++ [] ∧
   NoDup (widgets transformNode)) ∧
  ∃ n',
    updateWidgetVisibility 1 (find transformNode) (Str "translate")
      transformNode = Done n' ∧
    widgets n' = [0%nat; 3%nat; 2%nat; 1%nat].
Proof.
  assert (widgets transformNode
          = [0%nat] ++ omap (find transformNode) parameters ++ []) as H1
    by reflexivity.
  assert (NoDup (widgets transformNode)) as H2 by apply NoDup_seq.
  split; [done|].
  destruct (first_update_reverses_order 0 (find transformNode)
              (Str "translate") [0%nat] [] transformNode H1 H2)
    as (n' & K1 & K2).
  { intros w _. split; reflexivity. }
  exists n'. split; [exact K1|exact K2].
Defined.

(** X22 at the widget [translate_y] of a Transform Mesh node. *)
Lemma hide_then_show_restores_witness :
  (NoDup (widgets transformNode) ∧ 2%nat ∈ widgets transformNode) ∧
  ∃ n1 n2,
    hideWidget 1 (Some 2%nat) transformNode = Done n1 ∧
    showWidget 1 (Some 2%nat) n1 = Done n2 ∧
    widgets n2 = widgets transformNode.
Proof.
  assert (NoDup (widgets transformNode)) as H1 by apply NoDup_seq.
  assert (2%nat ∈ widgets transformNode) as H2.
  { apply elem_of_seq. lia. }
  split; [done|].
  destruct (hide_then_show_restores 0 2 transformNode H1 H2 eq_refl eq_refl)
    as (n1 & n2 & K1 & _ & K2 & K3 & _).
  exists n1, n2. split; [exact K1|]. split; [exact K2|exact K3].
Defined.

(** X23 at two widgets linked to each other. *)
Lemma hideWidget_terminates_witness :
  (length (widgets linkedNode) < 3)%nat ∧
  ∃ n', hideWidget 3 (Some 0%nat) linkedNode = Done n' ∧
        _hidden (objects n' 0%nat) = true ∧
        _hidden (objects n' 1%nat) = true.
Proof.
  assert (length (widgets linkedNode) < 3)%nat as H by (simpl; lia).
  split; [exact H|].
  destruct (hideWidget_terminates 3 (Some 0%nat) linkedNode H)
    as (n' & K1 & _ & _ & K2).
  exists n'. split; [exact K1|].
  assert (widgets n' = []) as E.
  { revert K1. vm_compute. intros [= <-]. reflexivity. }
  split; apply K2; rewrite ?E.
  - apply list_elem_of_here.
  - apply not_elem_of_nil.
  - apply list_elem_of_further, list_elem_of_here.
  - apply not_elem_of_nil.
Defined.

End WidgetInstances.

(** ** Notifications of a completed load *)

Section LoadNotifies.

Import Js Vtk Dual DualView.

Variable X : Externals.

Lemma configure_log (s : slot) (r : Loader.Result) (v : DualViewer) :
  ∃ l, log (configure s r v) = log v ++ l ∧
       Forall (fun e => hostMessage e = false) l.
Proof.
  unfold configure. destruct (_ && _).
  { eexists [_]. split; [reflexivity|]. by repeat constructor. }
  destruct (Loader.hasVertexColors r).
  - destruct (truthy _).
    + eexists [_]. split; [reflexivity|]. by repeat constructor.
    + exists []. split; [by rewrite app_nil_r|constructor].
  - eexists [_]. split; [reflexivity|]. by repeat constructor.
Qed.

(** X26: a completed DualViewer load tells the parent frame exactly once,
    and last.  On a viewer that has not been destroyed, and whose cameras
    carry the synchronization closures or whose synchronization is off,
    the completion makes calls on the rendering library only, then
    renders the target viewport, then sends one [meshLoaded] notification
    carrying the viewport identifier the load was issued with and the
    filename taken from its URL. *)
Theorem load_completion_notifies_last (fuel k : nat) (r : Loader.Result)
  (v : DualViewer) (c : Suspended) :
  ready v → live v → inflight v !! k = Some c →
  _isUpdatingCamera v = false →
  wired v ∨ truthy (syncCameras v) = false →
  ∃ v' pre,
    loadMesh_resolved X (S (S fuel)) k r v = Done v' ∧
    Forall (fun e => hostMessage e = false) pre ∧
    log v' = log v ++ pre ++
      [Render (target c);
       SendMeshLoaded (viewport c) (extractFilename X (url c))
         (Loader.format r) (Loader.hasTexture r) (Loader.hasVertexColors r)].
Proof.
  intros Hr _ Hk Hg Hcase. unfold loadMesh_resolved. rewrite Hk.
  destruct (Hr (target c)) as [vp Hvp].
  destruct (Hr (other (target c))) as [vt Hvt].
  set (v0 := set_inflight (delete k (inflight v)) v).
  assert (viewport_of (target c) v0 = Some vp) as -> by (by destruct (target c)).
  set (vp1 := set_scene _ _).
  set (w := set_viewport (target c) vp1 v0).
  set (v1 := configure (target c) r w).
  destruct (configure_log (target c) r w) as (cfg & Hcfg & Fcfg).
  fold v1 in Hcfg.
  assert (log w = log v) as Hlw by (by destruct (target c)).
  rewrite Hlw in Hcfg.
  assert (viewport_of (target c) v1 = Some vp1) as H1.
  { unfold v1. rewrite (proj2 (configure_frame _ _ _)).
    apply viewport_of_set_same. }
  assert (viewport_of (other (target c)) v1 = Some vt) as H1'.
  { unfold v1. rewrite (proj2 (configure_frame _ _ _)).
    unfold w. rewrite viewport_of_other_set. rewrite <- Hvt.
    by destruct (target c). }
  assert (syncCameras v1 = syncCameras v) as Hs1.
  { unfold v1. rewrite (proj2 (configure_flags _ _ _)). by destruct (target c). }
  assert (_isUpdatingCamera v1 = false) as Hg1.
  { unfold v1. rewrite (proj1 (configure_flags _ _ _)). rewrite <- Hg.
    by destruct (target c). }
  assert (∃ v2 cam,
            _positionCameraForViewport X (S (S fuel)) (target c) v1 = Done v2 ∧
            log v2 = log v1 ++ cam ∧
            Forall (fun e => hostMessage e = false) cam)
    as (v2 & cam & -> & Hcam & Fcam).
  { unfold _positionCameraForViewport. rewrite H1.
    destruct (actors vp1) as [|a l] eqn:Ea.
    { exists v1, []. split; [done|]. split; [by rewrite app_nil_r|constructor]. }
    destruct (initialPose X (a :: l)) as [p|].
    2:{ exists v1, []. split; [done|].
        split; [by rewrite app_nil_r|constructor]. }
    destruct (truthy (syncCameras v)) eqn:Es.
    - destruct Hcase as [Hw|]; [|done].
      assert (wired v1) as Hw1.
      { apply (frame_wired w); [apply configure_frame|].
        intros s. specialize (Hw s). unfold w.
        destruct (decide (s = target c)) as [->|Hn].
        - rewrite viewport_of_set_same. rewrite Hvp in Hw. exact Hw.
        - assert (s = other (target c)) as -> by (by destruct s, (target c)).
          rewrite viewport_of_other_set. rewrite <- Hw. by destruct (target c). }
      rewrite <- Hs1 in Es.
      destruct (poseChange_synced X fuel (target c) p v1 vp1 vt Hw1 Es Hg1 H1 H1')
        as (v2 & -> & _ & _ & Hl & _).
      eexists v2, _. split; [done|]. split; [exact Hl|].
      by repeat constructor.
    - rewrite <- Hs1 in Es.
      rewrite (poseChange_unsynced X (S fuel) (target c) p v1 vp1 Es H1).
      eexists _, []. split; [done|]. split; [|constructor].
      rewrite log_set_viewport. by rewrite app_nil_r. }
  rewrite bind_done. simpl try_catch.
  eexists _, (cfg ++ cam). split; [reflexivity|]. split.
  - by apply Forall_app.
  - rewrite !log_record, Hcam, Hcfg. by rewrite <- !app_assoc.
Qed.

End LoadNotifies.

(** ** Showing linked widgets *)

Section ShowTerminates.

Import Js Widgets.

Lemma filter_length_le {A : Type} (P Q : A → Prop) `{∀ x, Decision (P x)}
  `{∀ x, Decision (Q x)} (l : list A) :
  (∀ x, P x → Q x) → (length (filter P l) ≤ length (filter Q l))%nat.
Proof.
  intros HPQ. induction l as [|y l IH]; [done|].
  rewrite !filter_cons. destruct (decide (P y)) as [Hp|Hp].
  - rewrite decide_True by auto. simpl. lia.
  - destruct (decide (Q y)); simpl; lia.
Qed.

Lemma filter_length_lt {A : Type} (P Q : A → Prop) `{∀ x, Decision (P x)}
  `{∀ x, Decision (Q x)} (l : list A) (a : A) :
  (∀ x, P x → Q x) → a ∈ l → Q a → ¬ P a →
  (length (filter P l) < length (filter Q l))%nat.
Proof.
  intros HPQ Ha Hq Hp. induction l as [|y l IH]; [by apply elem_of_nil in Ha|].
  rewrite !filter_cons. apply elem_of_cons in Ha as [<-|Ha].
  - rewrite decide_False, decide_True by done. simpl.
    pose proof (filter_length_le P Q l HPQ). lia.
  - specialize (IH Ha). destruct (decide (P y)) as [Hy|Hy].
    + rewrite decide_True by auto. simpl. lia.
    + destruct (decide (Q y)); simpl; lia.
Qed.

(** A run of [showWidget] calls, given that one call returns whenever its
    fuel exceeds the number of widgets of [hs] that are marked hidden. *)
Lemma each_show_terminates (fuel : nat) (hs links : list nat) :
  (∀ w n,
     (∀ x, _hidden (objects n x) = true → x ∈ hs) →
     (length (filter (fun x => _hidden (objects n x) = true) hs) < fuel)%nat →
     ∃ n', showWidget fuel w n = Done n' ∧
           (∀ x, _hidden (objects n' x) = true →
                 _hidden (objects n x) = true) ∧
           (∀ x, x ∈ widgets n → x ∈ widgets n')) →
  ∀ n,
    (∀ x, _hidden (objects n x) = true → x ∈ hs) →
    (length (filter (fun x => _hidden (objects n x) = true) hs) < fuel)%nat →
    ∃ n', each (fun l => showWidget fuel (Some l)) links n = Done n' ∧
          (∀ x, _hidden (objects n' x) = true →
                _hidden (objects n x) = true) ∧
          (∀ x, x ∈ widgets n → x ∈ widgets n').
Proof.
  intros Hone. induction links as [|l links IH]; intros n Hcov Hlen.
  - exists n. by repeat split.
  - destruct (Hone (Some l) n Hcov Hlen) as (n1 & H1 & Hm1 & Hg1).
    destruct (IH n1) as (n' & H' & Hm' & Hg').
    { intros x Hx. by apply Hcov, Hm1. }
    { eapply Nat.le_lt_trans; [|exact Hlen].
      apply filter_length_le. exact Hm1. }
    exists n'. rewrite each_cons, H1. split; [exact H'|]. split.
    + intros x Hx. by apply Hm1, Hm'.
    + intros x Hx. by apply Hg', Hg1.
Qed.

Lemma showWidget_terminates_counting (fuel : nat) (hs : list nat)
  (w : option nat) (n : Node) :
  (∀ x, _hidden (objects n x) = true → x ∈ hs) →
  (length (filter (fun x => _hidden (objects n x) = true) hs) < fuel)%nat →
  ∃ n', showWidget fuel w n = Done n' ∧
        (∀ x, _hidden (objects n' x) = true → _hidden (objects n x) = true) ∧
        (∀ x, x ∈ widgets n → x ∈ widgets n').
Proof.
  revert w n. induction fuel as [|fuel IH]; intros w n Hcov Hlen; [lia|].
  simpl. destruct w as [w|]; [|by exists n].
  destruct (_hidden (objects n w)) eqn:Eh; [|by exists n]. simpl.
  set (o := restore (objects n w)).
  set (n1 := mkNode _ _).
  assert (∀ x, _hidden (objects n1 x) = true →
               _hidden (objects n x) = true ∧ x ≠ w) as Hm1.
  { intros x. unfold n1. simpl. destruct (decide (x = w)) as [->|Hne].
    - by rewrite update_same.
    - by rewrite update_other. }
  destruct (each_show_terminates fuel hs (linkedWidgets o) IH n1)
    as (n' & H' & Hm' & Hg').
  { intros x Hx. by apply Hcov, Hm1. }
  { assert (length (filter (fun x => _hidden (objects n1 x) = true) hs)
            < length (filter (fun x => _hidden (objects n x) = true) hs))%nat;
      [|lia].
    apply (filter_length_lt _ _ hs w).
    - intros x Hx. by apply Hm1.
    - by apply Hcov.
    - done.
    - intros Hw. by destruct (Hm1 w Hw). }
  exists n'. split; [exact H'|]. split.
  - intros x Hx. by apply Hm1, Hm'.
  - intros x Hx. apply Hg'. unfold n1. simpl. rewrite insertAt_perm. by right.
Qed.

(** X25: [showWidget] returns whatever the links between widgets are,
    cycles included, when finitely many widgets are marked hidden: its
    nesting depth never exceeds their number, since every nested call
    that goes on clears the mark of one of them first.  No widget becomes
    hidden, and every widget that was listed stays listed. *)
Theorem showWidget_terminates (fuel : nat) (hs : list nat) (w : option nat)
  (n : Node) :
  (∀ x, _hidden (objects n x) = true → x ∈ hs) →
  (length hs < fuel)%nat →
  ∃ n',
    showWidget fuel w n = Done n' ∧
    (∀ x, _hidden (objects n' x) = true → _hidden (objects n x) = true) ∧
    (∀ x, x ∈ widgets n → x ∈ widgets n').
Proof.
  intros Hcov Hlen. apply (showWidget_terminates_counting fuel hs); [done|].
  eapply Nat.le_lt_trans; [apply length_filter|exact Hlen].
Qed.

End ShowTerminates.

Section LastInstances.

Import Js Vtk Dual Sample Cases.

(** X26 at the sample viewer with [mesh1.obj] pending for viewport A. *)
Lemma load_completion_notifies_last_witness :
  (ready loading ∧ live loading ∧ wired loading ∧
   _isUpdatingCamera loading = false) ∧
  ∃ v' pre,
    loadMesh_resolved X1 2 0 mesh1 loading = Done v' ∧
    log v' = log loading ++ pre ++
      [Render SlotA;
       SendMeshLoaded (Str "A") (Str "mesh1.obj") (Str "obj") false false].
Proof.
  assert (ready loading) as H1 by (intros []; simpl; eauto).
  assert (live loading) as H0 by reflexivity.
  assert (wired loading) as H2 by (intros []; reflexivity).
  assert (_isUpdatingCamera loading = false) as H3 by reflexivity.
  split; [done|].
  destruct (load_completion_notifies_last X1 0 0 mesh1 loading _ H1 H0
              eq_refl H3 (or_introl H2)) as (v' & pre & K1 & _ & K2).
  exists v', pre. split; [exact K1|exact K2].
Defined.

(** X25 at two hidden widgets linked to each other. *)
Lemma showWidget_terminates_witness :
  ((∀ x, Widgets._hidden (Widgets.objects hiddenPair x) = true →
         x ∈ [0%nat; 1%nat]) ∧
   (length [0%nat; 1%nat] < 3)%nat) ∧
  ∃ n', Widgets.showWidget 3 (Some 0%nat) hiddenPair = Done n'.
Proof.
  assert (∀ x, Widgets._hidden (Widgets.objects hiddenPair x) = true →
               x ∈ [0%nat; 1%nat]) as H1.
  { intros [|[|x]] Hx.
    - apply list_elem_of_here.
    - apply list_elem_of_further, list_elem_of_here.
    - discriminate Hx. }
  assert (length [0%nat; 1%nat] < 3)%nat as H2 by (simpl; lia).
  split; [done|].
  destruct (showWidget_terminates 3 [0%nat; 1%nat] (Some 0%nat) hiddenPair
              H1 H2) as (n' & K & _).
  by exists n'.
Defined.

End LastInstances.
